(** * HoneyBadger: the packet pipeline and the connection pool

    A shallow embedding of the capture / decode / dispatch pipeline of
    [packetSource/service.go], of the start-up guard of
    [cmd/honeyBadger/main.go], and of the first-generation [Inquisitor] of
    the core package, together with the properties the specification
    states about them.

    Conventions.
    - A [time.Time] instant is a [Z] (nanoseconds on the time line); a
      [time.Duration] is an [int64], kept as a [Z] with the wrap-around of
      its arithmetic written out ([wrap64]).
    - A [*Connection] is an identifier into a store of connection records;
      two pointers are equal exactly when the identifiers are.
    - A goroutine's loop is a step function on the value its [select]
      received; what a call does to the outside world is appended to a
      chronological trace of [Event]s.
    - The goroutines together are a transition system ([Goroutines]): a
      state says where each of them stands, a move is one rendezvous on an
      unbuffered channel, and a schedule is a list of moves. *)

From Stdlib Require Import ZArith NArith String List.
From stdpp Require Import gmap list.

Open Scope Z_scope.

(* ===================================================================== *)
(** ** Machine integers and time *)

Definition wrap64 (z : Z) : Z := (z + 2 ^ 63) mod 2 ^ 64 - 2 ^ 63.

Definition int64_range (z : Z) : Prop := - 2 ^ 63 <= z < 2 ^ 63.

(** [int32(x)]. *)
Definition wrap32 (z : Z) : Z := (z + 2 ^ 31) mod 2 ^ 32 - 2 ^ 31.

Abbreviation Time := Z (only parsing).
Abbreviation Duration := Z (only parsing).

(** [t.Equal(u)], [t.Before(u)] and [t.Add(d)] of the [time] package. *)
Definition Time_Equal (t u : Time) : bool := t =? u.
Definition Time_Before (t u : Time) : bool := t <? u.
Definition Time_Add (t : Time) (d : Duration) : Time := t + d.

(* ===================================================================== *)
(** ** Flow keys *)

Module types.

(** One [gopacket.Flow]: a source and a destination endpoint (an IPv4
    address for a network flow, a TCP port for a transport flow). *)
Record Flow := mkFlow { flow_src : N; flow_dst : N }.

(** [types.TcpIpFlow], built by [NewTcpIpFlowFromFlows(ip.NetworkFlow(),
    tcp.TransportFlow())]. *)
Record TcpIpFlow := mkTcpIpFlow { ipFlow : Flow; tcpFlow : Flow }.

Definition NewTcpIpFlowFromFlows (netFlow transFlow : Flow) : TcpIpFlow :=
  mkTcpIpFlow netFlow transFlow.

Definition Flow_Reverse (f : Flow) : Flow := mkFlow (flow_dst f) (flow_src f).

(** Modelled from the spec: [TcpIpFlow.Reverse] is not among the sources;
    "reversing a directional view yields the opposite view". *)
Definition Reverse (f : TcpIpFlow) : TcpIpFlow :=
  mkTcpIpFlow (Flow_Reverse (ipFlow f)) (Flow_Reverse (tcpFlow f)).

(** An endpoint of the conversation: (address, port). *)
Abbreviation Endpoint := (N * N)%type (only parsing).

Definition srcEndpoint (f : TcpIpFlow) : Endpoint :=
  (flow_src (ipFlow f), flow_src (tcpFlow f)).
Definition dstEndpoint (f : TcpIpFlow) : Endpoint :=
  (flow_dst (ipFlow f), flow_dst (tcpFlow f)).

(** Lexicographic order on endpoints, used only to pick a representative
    of an unordered pair. *)
Definition endpoint_leb (a b : Endpoint) : bool :=
  ((a.1 <? b.1) || ((a.1 =? b.1) && (a.2 <=? b.2)))%N.

(** Modelled from the spec: the pool's key type is not among the sources;
    "a flow key is the unordered pair {(srcIP,srcPort),(dstIP,dstPort)}".
    The unordered pair is represented by its sorted form. *)
Abbreviation FlowKey := ((N * N) * (N * N))%type (only parsing).

Definition key (f : TcpIpFlow) : FlowKey :=
  let a := srcEndpoint f in
  let b := dstEndpoint f in
  if endpoint_leb a b then (a, b) else (b, a).

End types.

Import types.

(* ===================================================================== *)
(** ** Parsed layers and the packet manifest *)

Module layers.

(** [layers.BaseLayer]: the bytes of the layer's header and of what it
    carries. *)
Record BaseLayer := mkBaseLayer {
  base_Contents : list Byte.byte;
  base_Payload : list Byte.byte
}.

Record Ethernet := mkEthernet {
  eth_BaseLayer : BaseLayer;
  EthernetType : N
}.

(** The fields of [layers.IPv4] and [layers.TCP] that the repository reads
    or builds (see the pool test). *)
Record IPv4 := mkIPv4 {
  ip_BaseLayer : BaseLayer;
  Version : N;
  TTL : N;
  Protocol : N;
  SrcIP : N;
  DstIP : N
}.

Record TCP := mkTCP {
  tcp_BaseLayer : BaseLayer;
  SrcPort : N;
  DstPort : N;
  Seq : N;
  SYN : bool
}.

Definition NetworkFlow (ip : IPv4) : Flow := mkFlow (SrcIP ip) (DstIP ip).
Definition TransportFlow (tcp : TCP) : Flow := mkFlow (SrcPort tcp) (DstPort tcp).

End layers.

Import layers.

Record TimedRawPacket := mkTimedRawPacket {
  raw_Timestamp : Time;
  raw_RawPacket : list Byte.byte
}.

Record PacketManifest := mkPacketManifest {
  Timestamp : Time;
  Flow : TcpIpFlow;
  RawPacket : list Byte.byte;
  IP : IPv4;
  TCP_ : TCP;
  Payload : list Byte.byte
}.

(* ===================================================================== *)
(** ** Connections and the connection pool *)

(** A [*Connection]. *)
Abbreviation ConnId := nat (only parsing).

(** What the pipeline can observe of a connection. [Connection] itself is
    not among the sources: [lastSeen] is the field [CloseOlderThan] reads;
    the three flags record that [Start], [Stop] and [Close] were called on
    it, and [received] the manifests handed to [ReceivePacket], oldest
    first. *)
Record Connection := mkConnection {
  lastSeen : Time;
  started : bool;
  stopped : bool;
  closing : bool;
  received : list PacketManifest
}.

Definition set_started (c : Connection) : Connection :=
  mkConnection (lastSeen c) true (stopped c) (closing c) (received c).
Definition set_stopped (c : Connection) : Connection :=
  mkConnection (lastSeen c) (started c) true (closing c) (received c).
Definition set_closing (c : Connection) : Connection :=
  mkConnection (lastSeen c) (started c) (stopped c) true (received c).
Definition add_received (m : PacketManifest) (c : Connection) : Connection :=
  mkConnection (lastSeen c) (started c) (stopped c) (closing c) (received c ++ [m]).

(** The three long-running goroutines of the pipeline. *)
Inductive Stage := Capture | Decode | Dispatch.

Inductive LogEntry :=
| LogCloseOlderThan (t : Time)     (* "CloseOlderThan %s" *)
| LogCloseAllConnections           (* "CloseAllConnections()" *)
| LogCloseRequest                  (* "Close request received." *)
| LogTimeoutClosed (closed : Z)    (* "timeout closed %d connections" *)
| LogEOF.                          (* "ReadPacketData got EOF" *)

(** Calls that reach outside the function that makes them, in the order
    they are made. *)
Inductive Event :=
| EvLog (l : LogEntry)
| EvNewConnection (c : ConnId)
| EvPacketLoggerStart (c : ConnId) (f : TcpIpFlow)
| EvPut (f : TcpIpFlow) (c : ConnId)
| EvStart (c : ConnId)
| EvReceivePacket (c : ConnId) (m : PacketManifest)
| EvStop (c : ConnId)
| EvClose (c : ConnId)
| EvStopSignal (st : Stage)
| EvCloseAllConnections
| EvHandleClose
| EvPagerStart
| EvPagerStop
| EvCloseTchan.

Module pool.

(** Modelled from the spec: [ConnectionPool] is not among the sources
    (its test is): "mapping from flow key to connection; uniqueness on
    direction-agnostic key"; operations [has], [get], [put], [delete],
    [len] with "direction-agnostic lookup". The field name is the one the
    test reads, [connPool.connectionMap]. *)
Record ConnectionPool := mkPool { connectionMap : gmap FlowKey ConnId }.

Definition NewConnectionPool : ConnectionPool := mkPool ∅.

Definition Has (p : ConnectionPool) (f : TcpIpFlow) : bool :=
  bool_decide (is_Some (connectionMap p !! key f)).

(** [None] stands for the not-found error. *)
Definition Get (p : ConnectionPool) (f : TcpIpFlow) : option ConnId :=
  connectionMap p !! key f.

Definition Put (p : ConnectionPool) (f : TcpIpFlow) (c : ConnId) : ConnectionPool :=
  mkPool (<[key f := c]> (connectionMap p)).

Definition Delete (p : ConnectionPool) (f : TcpIpFlow) : ConnectionPool :=
  mkPool (delete (key f) (connectionMap p)).

Definition Len (p : ConnectionPool) : nat := size (connectionMap p).

(** The connections of the pool, one per entry. *)
Definition Connections (p : ConnectionPool) : list ConnId :=
  (map_to_list (connectionMap p)).*2.

(** [conn.lastSeen <= t] for the connection a pointer denotes. *)
Definition seenBy (store : gmap ConnId Connection) (t : Time) (c : ConnId) : bool :=
  match store !! c with
  | Some conn => lastSeen conn <=? t
  | None => false
  end.

(** Mark closure as initiated on each connection of a list. *)
Definition closeEach (cs : list ConnId) (store : gmap ConnId Connection)
  : gmap ConnId Connection :=
  foldr (alter set_closing) store cs.

(** Modelled from the spec: the pool's own [CloseOlderThan] is not among
    the sources; "closes any connection whose lastSeen <= threshold; [...]
    the count returned reflects connections it initiated closure on, not
    necessarily yet fully torn down". The entries stay in the map: removal
    is the connection's own, later, work. *)
Definition CloseOlderThan (p : ConnectionPool) (store : gmap ConnId Connection)
    (t : Time) : Z * list ConnId * gmap ConnId Connection :=
  let old := List.filter (seenBy store t) (Connections p) in
  (Z.of_nat (length old), old, closeEach old store).

(** Modelled from the spec: [closeAll()], closure initiated on every
    connection of the pool. *)
Definition CloseAllConnections (p : ConnectionPool) (store : gmap ConnId Connection)
  : list ConnId * gmap ConnId Connection :=
  (Connections p, closeEach (Connections p) store).

End pool.

(* ===================================================================== *)
(** ** The first-generation Inquisitor (core package, [service.go]) *)

Module Legacy.

Record Inquisitor := mkInquisitor {
  connPool : pool.ConnectionPool;
  conns : gmap ConnId Connection;
  trace : list Event
}.

Definition log (l : LogEntry) (a : Inquisitor) : Inquisitor :=
  mkInquisitor (connPool a) (conns a) (trace a ++ [EvLog l]).

(** Modelled from the spec: [Connection.Close] is not among the sources;
    closing "asynchronously drains and removes from the map", so the call
    itself only initiates closure. *)
Definition Close (conn : ConnId) (a : Inquisitor) : Inquisitor :=
  mkInquisitor (connPool a) (alter set_closing conn (conns a))
               (trace a ++ [EvClose conn]).

(** The [for _, conn := range conns] loop of [CloseOlderThan], with its
    counter [closed], a Go [int]. A pointer held by the pool always denotes
    a connection; the [None] branch is there for totality only. *)
Fixpoint CloseOlderThan_range (t : Time) (cs : list ConnId) (closed : Z)
    (a : Inquisitor) : Z * Inquisitor :=
  match cs with
  | [] => (closed, a)
  | conn :: cs' =>
      match conns a !! conn with
      | Some c =>
          if Time_Equal (lastSeen c) t || Time_Before (lastSeen c) t
          then CloseOlderThan_range t cs' (wrap64 (closed + 1)) (Close conn a)
          else CloseOlderThan_range t cs' closed a
      | None => CloseOlderThan_range t cs' closed a
      end
  end.

Definition CloseOlderThan (t : Time) (a : Inquisitor) : Z * Inquisitor :=
  let a := log (LogCloseOlderThan t) a in
  CloseOlderThan_range t (pool.Connections (connPool a)) 0 a.

Fixpoint CloseAllConnections_range (cs : list ConnId) (i : Inquisitor) : Inquisitor :=
  match cs with
  | [] => i
  | conn :: cs' => CloseAllConnections_range cs' (Close conn i)
  end.

Definition CloseAllConnections (i : Inquisitor) : Inquisitor :=
  let i := log LogCloseAllConnections i in
  CloseAllConnections_range (pool.Connections (connPool i)) i.

End Legacy.

(* ===================================================================== *)
(** ** The layer parser of gopacket *)

Module gopacket.

Inductive LayerType :=
| LayerTypeZero
| LayerTypeEthernet
| LayerTypeIPv4
| LayerTypeTCP
| LayerTypePayload
| LayerTypeOther (n : N).

(** The interface [gopacket.DecodingLayer]. gopacket is a library, not part
    of this repository, and the byte formats are outside the specification:
    the header decoders stay abstract. A successful [DecodeFromBytes]
    rewrites the whole layer from the bytes it is given ([DecodeFromBytes]
    returns the new layer); a failed one may leave the layer partly
    rewritten ([DecodeFailure] is what it leaves). A decoder is only called
    on non-empty data, and what it hands to the next layer is a proper
    part of what it was given. *)
Class DecodingLayer (L : Type) := {
  DecodeFromBytes : list Byte.byte -> option L;
  DecodeFailure : list Byte.byte -> L -> L;
  NextLayerType : L -> LayerType;
  LayerPayload : L -> list Byte.byte;
  LayerPayload_shorter :
    forall data l, data <> [] -> DecodeFromBytes data = Some l ->
                   (length (LayerPayload l) < length data)%nat
}.

Inductive DecodeError :=
| UnsupportedLayerType (t : LayerType)
| LayerError (t : LayerType)
| OutOfFuel.

End gopacket.

Import gopacket.

(* ===================================================================== *)
(** ** The pipeline of [packetSource/service.go] *)

Module PacketSource.

Record InquisitorOptions := mkOptions {
  Interface : string;
  Filename : string;
  WireDuration : Duration;
  BufferedPerConnection : Z;
  BufferedTotal : Z;
  Filter : string;
  LogDir : string;
  Snaplen : Z;
  LogPackets : bool;
  TcpIdleTimeout : Duration;
  MaxRingPackets : Z;
  DetectHijack : bool;
  DetectInjection : bool;
  DetectCoalesceInjection : bool;
  MaxConcurrentConnections : Z
}.

(** The variables [decodePackets] declares before its loop and hands to
    the parser by address. *)
Record DecoderVars := mkVars {
  eth : Ethernet;
  ip : IPv4;
  tcp : TCP;
  payload : list Byte.byte;
  decoded : list LayerType
}.

(** The [Inquisitor] and what its goroutines share. An unbuffered channel
    holds nothing: [closeConnectionChan] lists the connections that are
    blocked sending themselves on it, first come first; the stop channels
    are represented by whether their receiver is still in its loop. *)
Record Inquisitor := mkInquisitor {
  options : InquisitorOptions;
  pool_ : pool.ConnectionPool;
  conns : gmap ConnId Connection;
  closeConnectionChan : list ConnId;
  capturing : bool;
  decoding : bool;
  dispatching : bool;
  handleOpen : bool;
  pagerRunning : bool;
  vars : DecoderVars;
  trace : list Event
}.

Definition running (st : Stage) (i : Inquisitor) : bool :=
  match st with
  | Capture => capturing i
  | Decode => decoding i
  | Dispatch => dispatching i
  end.

Definition with_pool (p : pool.ConnectionPool) (i : Inquisitor) : Inquisitor :=
  mkInquisitor (options i) p (conns i) (closeConnectionChan i) (capturing i)
    (decoding i) (dispatching i) (handleOpen i) (pagerRunning i) (vars i) (trace i).
Definition with_conns (cs : gmap ConnId Connection) (i : Inquisitor) : Inquisitor :=
  mkInquisitor (options i) (pool_ i) cs (closeConnectionChan i) (capturing i)
    (decoding i) (dispatching i) (handleOpen i) (pagerRunning i) (vars i) (trace i).
Definition with_closeChan (q : list ConnId) (i : Inquisitor) : Inquisitor :=
  mkInquisitor (options i) (pool_ i) (conns i) q (capturing i)
    (decoding i) (dispatching i) (handleOpen i) (pagerRunning i) (vars i) (trace i).
Definition with_running (st : Stage) (b : bool) (i : Inquisitor) : Inquisitor :=
  mkInquisitor (options i) (pool_ i) (conns i) (closeConnectionChan i)
    (match st with Capture => b | _ => capturing i end)
    (match st with Decode => b | _ => decoding i end)
    (match st with Dispatch => b | _ => dispatching i end)
    (handleOpen i) (pagerRunning i) (vars i) (trace i).
Definition with_handleOpen (b : bool) (i : Inquisitor) : Inquisitor :=
  mkInquisitor (options i) (pool_ i) (conns i) (closeConnectionChan i) (capturing i)
    (decoding i) (dispatching i) b (pagerRunning i) (vars i) (trace i).
Definition with_pagerRunning (b : bool) (i : Inquisitor) : Inquisitor :=
  mkInquisitor (options i) (pool_ i) (conns i) (closeConnectionChan i) (capturing i)
    (decoding i) (dispatching i) (handleOpen i) b (vars i) (trace i).
Definition with_vars (v : DecoderVars) (i : Inquisitor) : Inquisitor :=
  mkInquisitor (options i) (pool_ i) (conns i) (closeConnectionChan i) (capturing i)
    (decoding i) (dispatching i) (handleOpen i) (pagerRunning i) v (trace i).
Definition emitted (e : Event) (i : Inquisitor) : Inquisitor :=
  mkInquisitor (options i) (pool_ i) (conns i) (closeConnectionChan i) (capturing i)
    (decoding i) (dispatching i) (handleOpen i) (pagerRunning i) (vars i)
    (trace i ++ [e]).

(** *** A state monad for the goroutines

    [Panic] is a Go panic; [Blocked] is a goroutine that waits forever on a
    communication that has no partner. *)
Inductive Outcome (A : Type) :=
| Done (a : A) (i : Inquisitor)
| Panic (i : Inquisitor)
| Blocked (i : Inquisitor).

Arguments Done {A}.
Arguments Panic {A}.
Arguments Blocked {A}.

Definition M (A : Type) : Type := Inquisitor -> Outcome A.

Definition ret {A} (a : A) : M A := fun i => Done a i.

Definition bind {A B} (m : M A) (k : A -> M B) : M B :=
  fun i => match m i with
           | Done a i' => k a i'
           | Panic i' => Panic i'
           | Blocked i' => Blocked i'
           end.

Definition panic {A} : M A := fun i => Panic i.
Definition block {A} : M A := fun i => Blocked i.
Definition gets {A} (f : Inquisitor -> A) : M A := fun i => Done (f i) i.
Definition modify (f : Inquisitor -> Inquisitor) : M unit := fun i => Done tt (f i).
Definition emit (e : Event) : M unit := modify (emitted e).
Definition log (l : LogEntry) : M unit := emit (EvLog l).

Notation "x <- m ;; k" := (bind m (fun x => k))
  (at level 100, m at next level, right associativity).
Notation "m ;; k" := (bind m (fun _ => k))
  (at level 100, right associativity).

(** What a loop body tells its [for]: go round again, or [return]. *)
Inductive Loop := Continue | Return.

(** *** Connections, as the dispatcher uses them *)

(** Modelled from the spec: [NewConnection] is not among the sources. It
    allocates a connection: a pointer no live connection has, on a record
    with Go's zero values. *)
Definition NewConnection : M ConnId :=
  fun i =>
    let c := fresh (dom (conns i)) in
    Done c (emitted (EvNewConnection c)
              (with_conns (<[c := mkConnection 0 false false false []]> (conns i)) i)).

(** Modelled from the spec: [Connection.Start], [Connection.Stop] and
    [Connection.ReceivePacket] are not among the sources. The dispatcher
    "delivers the manifest to the connection's input"; stopping only asks
    the connection to finish, it leaves the pool when it has drained. *)
Definition conn_Start (c : ConnId) : M unit :=
  modify (fun i => emitted (EvStart c) (with_conns (alter set_started c (conns i)) i)).

Definition conn_Stop (c : ConnId) : M unit :=
  modify (fun i => emitted (EvStop c) (with_conns (alter set_stopped c (conns i)) i)).

Definition conn_ReceivePacket (c : ConnId) (m : PacketManifest) : M unit :=
  modify (fun i => emitted (EvReceivePacket c m)
                     (with_conns (alter (add_received m) c (conns i)) i)).

Definition PacketLogger_Start (c : ConnId) (flow : TcpIpFlow) : M unit :=
  emit (EvPacketLoggerStart c flow).

(** *** The pool, as the Inquisitor uses it *)

Definition pool_Has (flow : TcpIpFlow) : M bool :=
  gets (fun i => pool.Has (pool_ i) flow).

Definition pool_Get (flow : TcpIpFlow) : M (option ConnId) :=
  gets (fun i => pool.Get (pool_ i) flow).

Definition pool_Len : M Z :=
  gets (fun i => Z.of_nat (pool.Len (pool_ i))).

Definition pool_Put (flow : TcpIpFlow) (c : ConnId) : M unit :=
  modify (fun i => emitted (EvPut flow c) (with_pool (pool.Put (pool_ i) flow c) i)).

Definition emitAll (es : list Event) (i : Inquisitor) : Inquisitor :=
  foldl (fun j e => emitted e j) i es.

Definition pool_CloseOlderThan (t : Time) : M Z :=
  fun i =>
    let '(closed, old, store) := pool.CloseOlderThan (pool_ i) (conns i) t in
    Done closed (emitAll (map EvClose old) (with_conns store i)).

Definition pool_CloseAllConnections : M unit :=
  fun i =>
    let '(all, store) := pool.CloseAllConnections (pool_ i) (conns i) in
    Done tt (emitAll (EvCloseAllConnections :: map EvClose all) (with_conns store i)).

(** *** [setupNewConnection] *)

Definition setupNewConnection (flow : TcpIpFlow) : M ConnId :=
  conn <- NewConnection ;;
  logPackets <- gets (fun i => LogPackets (options i)) ;;
  (if logPackets : bool then PacketLogger_Start conn flow else ret tt) ;;
  pool_Put flow conn ;;
  conn_Start conn ;;
  ret conn.

(** *** [dispatchPackets] *)

(** What the second [select] of the loop received. *)
Inductive Selected :=
| Tick (now : Time)
| StopDispatch
| Manifest (packetManifest : PacketManifest).

(** [time.Tick(d)] is [nil] for [d <= 0]: a receive from it never
    happens. *)
Definition tickerFires (timeout : Duration) : bool := 0 <? timeout.

(** The first [select]: one receive from [closeConnectionChan] if a
    connection is waiting to send, [default] otherwise. *)
Definition pollCloseRequest : M unit :=
  q <- gets closeConnectionChan ;;
  match q with
  | conn :: rest =>
      modify (with_closeChan rest) ;;
      log LogCloseRequest ;;
      conn_Stop conn
  | [] => ret tt
  end.

(** [case <-ticker]. *)
Definition onTick (now : Time) : M Loop :=
  timeout <- gets (fun i => TcpIdleTimeout (options i)) ;;
  if tickerFires timeout then
    closed <- pool_CloseOlderThan (Time_Add now (wrap64 (timeout * -1))) ;;
    (if closed =? 0 then ret tt else log (LogTimeoutClosed closed)) ;;
    ret Continue
  else block.

(** [case packetManifest := <-i.dispatchPacketChan]. *)
Definition onManifest (packetManifest : PacketManifest) : M Loop :=
  has <- pool_Has (Flow packetManifest) ;;
  if has : bool then
    r <- pool_Get (Flow packetManifest) ;;
    match r with
    | None => panic
    | Some conn => conn_ReceivePacket conn packetManifest ;; ret Continue
    end
  else
    maxConns <- gets (fun i => MaxConcurrentConnections (options i)) ;;
    len <- pool_Len ;;
    if negb (maxConns =? 0) && (maxConns <=? len) then ret Continue
    else
      conn <- setupNewConnection (Flow packetManifest) ;;
      conn_ReceivePacket conn packetManifest ;;
      ret Continue.

(** The second [select]. *)
Definition selected (sel : Selected) : M Loop :=
  match sel with
  | Tick now => onTick now
  | StopDispatch => ret Return
  | Manifest packetManifest => onManifest packetManifest
  end.

(** One turn of the [for] loop. *)
Definition dispatchIteration (sel : Selected) : M Loop :=
  pollCloseRequest ;;
  selected sel.

(** Modelled from the spec: how a connection asks to be closed is not
    among the sources; "a connection may self-request closure [...] via a
    close-request channel". The connection blocks sending itself on
    [closeConnectionChan], behind those already waiting. *)
Definition requestClose (c : ConnId) : M unit :=
  modify (fun i => with_closeChan (closeConnectionChan i ++ [c]) i).

(** The loop, on the values its second [select] receives one after the
    other. *)
Fixpoint dispatchPackets (sels : list Selected) : M unit :=
  match sels with
  | [] => ret tt
  | sel :: rest =>
      l <- dispatchIteration sel ;;
      match l with
      | Return => ret tt
      | Continue => dispatchPackets rest
      end
  end.

(** *** [Start] and [Stop] *)

Definition NewInquisitor (opts : InquisitorOptions) (v : DecoderVars) : Inquisitor :=
  mkInquisitor opts pool.NewConnectionPool ∅ [] false false false false false v [].

(** [Start] when [setupHandle] returns (it ends the program otherwise, see
    [Handle.setupHandle]): the handle is open, the three loops are entered
    and the pager is started. What the goroutines then do is in [reader],
    [dispatchPackets] and [Goroutines.step]. *)
Definition Start : M unit :=
  modify (with_handleOpen true) ;;
  modify (with_running Capture true) ;;
  modify (with_running Decode true) ;;
  modify (with_running Dispatch true) ;;
  modify (with_pagerRunning true) ;;
  emit EvPagerStart.

(** [ch <- true] on the stop channel of a stage: the stage, in its loop,
    receives it and returns; a stage that has left its loop never does. *)
Definition signalStop (st : Stage) : M unit :=
  r <- gets (running st) ;;
  if r : bool then
    emit (EvStopSignal st) ;;
    modify (with_running st false)
  else block.

Definition Stop : M unit :=
  signalStop Dispatch ;;
  signalStop Decode ;;
  signalStop Capture ;;
  pool_CloseAllConnections ;;
  (modify (with_handleOpen false) ;; emit EvHandleClose) ;;
  (modify (with_pagerRunning false) ;; emit EvPagerStop).

(** *** [decodePackets] and [capturePackets] *)

Section Decoding.

Context {decEthernet : DecodingLayer Ethernet}.
Context {decIPv4 : DecodingLayer IPv4}.
Context {decTCP : DecodingLayer TCP}.

Definition appendDecoded (t : LayerType) (v : DecoderVars) : DecoderVars :=
  mkVars (eth v) (ip v) (tcp v) (payload v) (decoded v ++ [t]).
Definition set_eth (l : Ethernet) (v : DecoderVars) : DecoderVars :=
  mkVars l (ip v) (tcp v) (payload v) (decoded v).
Definition set_ip (l : IPv4) (v : DecoderVars) : DecoderVars :=
  mkVars (eth v) l (tcp v) (payload v) (decoded v).
Definition set_tcp (l : TCP) (v : DecoderVars) : DecoderVars :=
  mkVars (eth v) (ip v) l (payload v) (decoded v).
Definition set_payload (l : list Byte.byte) (v : DecoderVars) : DecoderVars :=
  mkVars (eth v) (ip v) (tcp v) l (decoded v).
Definition set_decoded (d : list LayerType) (v : DecoderVars) : DecoderVars :=
  mkVars (eth v) (ip v) (tcp v) (payload v) d.

(** The loop of [DecodingLayerParser.DecodeLayers], for the parser built by
    [NewDecodingLayerParser(LayerTypeEthernet, &eth, &ip, &tcp, &payload)]:
    while there is data, the decoder registered for the expected layer type
    decodes it into its variable, and the loop goes on with the layer's
    payload. [gopacket.Payload] decodes by keeping the bytes, and carries
    nothing further. [fuel] bounds the number of turns. *)
Fixpoint decodeLoop (fuel : nat) (typ : LayerType) (data : list Byte.byte)
    (v : DecoderVars) : DecoderVars * option DecodeError :=
  match data with
  | [] => (v, None)
  | _ :: _ =>
      match fuel with
      | O => (v, Some OutOfFuel)
      | S fuel' =>
          match typ with
          | LayerTypeEthernet =>
              match DecodeFromBytes (L := Ethernet) data with
              | Some l => decodeLoop fuel' (NextLayerType l) (LayerPayload l)
                            (appendDecoded typ (set_eth l v))
              | None => (set_eth (DecodeFailure data (eth v)) v, Some (LayerError typ))
              end
          | LayerTypeIPv4 =>
              match DecodeFromBytes (L := IPv4) data with
              | Some l => decodeLoop fuel' (NextLayerType l) (LayerPayload l)
                            (appendDecoded typ (set_ip l v))
              | None => (set_ip (DecodeFailure data (ip v)) v, Some (LayerError typ))
              end
          | LayerTypeTCP =>
              match DecodeFromBytes (L := TCP) data with
              | Some l => decodeLoop fuel' (NextLayerType l) (LayerPayload l)
                            (appendDecoded typ (set_tcp l v))
              | None => (set_tcp (DecodeFailure data (tcp v)) v, Some (LayerError typ))
              end
          | LayerTypePayload =>
              decodeLoop fuel' LayerTypeZero [] (appendDecoded typ (set_payload data v))
          | _ => (v, Some (UnsupportedLayerType typ))
          end
      end
  end.

Definition DecodeLayers (data : list Byte.byte) (v : DecoderVars)
  : DecoderVars * option DecodeError :=
  decodeLoop (S (length data)) LayerTypeEthernet data (set_decoded [] v).

(** [case timedRawPacket := <-i.decodePacketChan], up to the send on
    [dispatchPacketChan]: the variables afterwards, and the manifest to
    send if there is one. *)
Definition decodeOne (timedRawPacket : TimedRawPacket) (v : DecoderVars)
  : DecoderVars * option PacketManifest :=
  let v := set_payload [] v in
  let '(v, err) := DecodeLayers (raw_RawPacket timedRawPacket) v in
  match err with
  | Some _ => (v, None)
  | None =>
      let flow := NewTcpIpFlowFromFlows (NetworkFlow (ip v)) (TransportFlow (tcp v)) in
      (v, Some (mkPacketManifest (raw_Timestamp timedRawPacket) flow
                  (raw_RawPacket timedRawPacket) (ip v) (tcp v) (payload v)))
  end.

(** [i.dispatchPacketChan <- packetManifest]: the dispatcher, in its loop,
    receives the manifest in a turn of that loop. *)
Definition sendToDispatch (packetManifest : PacketManifest) : M unit :=
  r <- gets dispatching ;;
  if r : bool then dispatchIteration (Manifest packetManifest) ;; ret tt
  else block.

(** [i.decodePacketChan <- t]: the decoder, in its loop, receives the raw
    packet and handles it. *)
Definition sendToDecode (t : TimedRawPacket) : M unit :=
  r <- gets decoding ;;
  if r : bool then
    v <- gets vars ;;
    let '(v', out) := decodeOne t v in
    modify (with_vars v') ;;
    match out with
    | None => ret tt
    | Some packetManifest => sendToDispatch packetManifest
    end
  else block.

(** [tchan <- TimedRawPacket{...}] with the pipeline at rest, and the
    handoffs that follow it taken one after the other with nothing in
    between: the capture loop receives the packet and forwards it, the
    decoder handles it. The other interleavings, in which a stage stands at
    a send when the next one arrives, are those of [Goroutines.step]. *)
Definition sendToCapture (t : TimedRawPacket) : M unit :=
  r <- gets capturing ;;
  if r : bool then sendToDecode t else block.

(** What [ReadPacketData] returned. *)
Inductive ReadResult :=
| ReadEOF
| ReadError
| ReadData (rawPacket : list Byte.byte) (timestamp : Time).

(** One turn of the reading goroutine of [capturePackets], each send taken
    at once by a receiver at its [select]. *)
Definition readerStep (r : ReadResult) : M Loop :=
  match r with
  | ReadEOF =>
      log LogEOF ;;
      Stop ;;
      emit EvCloseTchan ;;
      ret Return
  | ReadError => ret Continue
  | ReadData rawPacket timestamp =>
      sendToCapture (mkTimedRawPacket timestamp rawPacket) ;;
      ret Continue
  end.

Fixpoint reader (rs : list ReadResult) : M unit :=
  match rs with
  | [] => ret tt
  | r :: rest =>
      l <- readerStep r ;;
      match l with
      | Return => ret tt
      | Continue => reader rest
      end
  end.

End Decoding.

End PacketSource.

(* ===================================================================== *)
(** ** The goroutines of the pipeline, interleaved

    [capturePackets] runs two goroutines, the reading one and the capture
    loop; [decodePackets] and [dispatchPackets] run one each. They meet on
    unbuffered channels, so a send and its receive are one move, and a
    goroutine that stands at a send takes nothing else until the send is
    taken: the capture loop at [i.decodePacketChan <- t] is not at its
    [select], nor is the decoder at [i.dispatchPacketChan <- packetManifest].
    A state records where each goroutine stands; a move is one rendezvous,
    one return of [ReadPacketData], or one tick. Which of the possible
    moves happens next is not decided by the program. *)

Module Goroutines.

Import PacketSource.

(** Where the reading goroutine of [capturePackets] stands. *)
Inductive ReaderAt :=
| AtRead                          (* i.handle.ReadPacketData() *)
| AtTchan (t : TimedRawPacket)    (* tchan <- TimedRawPacket{...} *)
| InStop (st : Stage)             (* i.Stop(), at the send to [st] *)
| ReaderReturned.                 (* after close(tchan) *)

Record State := mkState {
  inquisitor : Inquisitor;
  readerAt : ReaderAt;
  (** the capture loop stands at [i.decodePacketChan <- t] *)
  captureHolds : option TimedRawPacket;
  (** the decoder stands at [i.dispatchPacketChan <- packetManifest] *)
  decoderHolds : option PacketManifest
}.

(** Every goroutine at the head of its loop. *)
Definition idle (i : Inquisitor) : State := mkState i AtRead None None.

Inductive Move :=
| ReadPacketData (r : ReadResult)   (* the call returns [r] *)
| Tchan                             (* the reader's send, the capture loop's receive *)
| DecodePacketChan                  (* the capture loop's send, the decoder's receive *)
| DispatchPacketChan                (* the decoder's send, the dispatcher's receive *)
| Ticker (now : Time)               (* the dispatcher's receive from its ticker *)
| StopChan.                         (* the send [Stop] stands at, and its receive *)

(** A move that cannot happen in a state is [Disabled] there; [Crash] is
    a panic, which ends the program. *)
Inductive Result :=
| Next (s : State)
| Crash (s : State)
| Disabled.

Definition holdsNothing {A} (o : option A) : bool :=
  match o with None => true | Some _ => false end.

(** A stage is at its [select] when it is in its loop and not at a send. *)
Definition atSelect (st : Stage) (s : State) : bool :=
  running st (inquisitor s)
  && match st with
     | Capture => holdsNothing (captureHolds s)
     | Decode => holdsNothing (decoderHolds s)
     | Dispatch => true
     end.

Definition after {A} (m : M A) (k : Inquisitor -> State) (i : Inquisitor) : Result :=
  match m i with
  | Done _ j => Next (k j)
  | Panic j => Crash (k j)
  | Blocked _ => Disabled
  end.

(** [Stop] from its fourth line on. *)
Definition closeDown : M unit :=
  pool_CloseAllConnections ;;
  (modify (with_handleOpen false) ;; emit EvHandleClose) ;;
  (modify (with_pagerRunning false) ;; emit EvPagerStop).

Section Moves.

Context {decEthernet : DecodingLayer Ethernet}.
Context {decIPv4 : DecodingLayer IPv4}.
Context {decTCP : DecodingLayer TCP}.

Definition step (mv : Move) (s : State) : Result :=
  let i := inquisitor s in
  match mv with
  | ReadPacketData r =>
      match readerAt s with
      | AtRead =>
          match r with
          | ReadEOF =>
              Next (mkState (emitted (EvLog LogEOF) i) (InStop Dispatch)
                      (captureHolds s) (decoderHolds s))
          | ReadError => Next s
          | ReadData rawPacket timestamp =>
              Next (mkState i (AtTchan (mkTimedRawPacket timestamp rawPacket))
                      (captureHolds s) (decoderHolds s))
          end
      | _ => Disabled
      end
  | Tchan =>
      match readerAt s with
      | AtTchan t =>
          if atSelect Capture s
          then Next (mkState i AtRead (Some t) (decoderHolds s))
          else Disabled
      | _ => Disabled
      end
  | DecodePacketChan =>
      match captureHolds s with
      | Some t =>
          if atSelect Decode s
          then let '(v, out) := decodeOne t (vars i) in
               Next (mkState (with_vars v i) (readerAt s) None out)
          else Disabled
      | None => Disabled
      end
  | DispatchPacketChan =>
      match decoderHolds s with
      | Some packetManifest =>
          if atSelect Dispatch s
          then after (dispatchIteration (Manifest packetManifest))
                 (fun j => mkState j (readerAt s) (captureHolds s) None) i
          else Disabled
      | None => Disabled
      end
  | Ticker now =>
      if atSelect Dispatch s && tickerFires (TcpIdleTimeout (options i))
      then after (dispatchIteration (Tick now))
             (fun j => mkState j (readerAt s) (captureHolds s) (decoderHolds s)) i
      else Disabled
  | StopChan =>
      match readerAt s with
      | InStop st =>
          if atSelect st s
          then match st with
               | Dispatch =>
                   after (dispatchIteration StopDispatch ;; signalStop Dispatch)
                     (fun j => mkState j (InStop Decode) (captureHolds s) (decoderHolds s)) i
               | Decode =>
                   after (signalStop Decode)
                     (fun j => mkState j (InStop Capture) (captureHolds s) (decoderHolds s)) i
               | Capture =>
                   after (signalStop Capture ;; closeDown ;; emit EvCloseTchan)
                     (fun j => mkState j ReaderReturned (captureHolds s) (decoderHolds s)) i
               end
          else Disabled
      | _ => Disabled
      end
  end.

(** The moves of a schedule, one after the other. *)
Fixpoint run (mvs : list Move) (s : State) : Result :=
  match mvs with
  | [] => Next s
  | mv :: rest =>
      match step mv s with
      | Next s' => run rest s'
      | Crash s' => Crash s'
      | Disabled => Disabled
      end
  end.

(** No goroutine can move: those that have not returned wait for ever. *)
Definition deadlocked (s : State) : Prop :=
  forall mv, step mv s = Disabled.

End Moves.

End Goroutines.

(* ===================================================================== *)
(** ** [main] of [cmd/honeyBadger] *)

Module Main.

(** The values of the command-line flags after [flag.Parse()]. A Go [int]
    is kept as a [Z]. *)
Record Flags := mkFlags {
  pcapfile : string;
  iface : string;
  snaplen : Z;
  filter : string;
  logDir : string;
  archiveDir : string;
  wireTimeout : string;
  metadataAttackLog : bool;
  logPackets : bool;
  tcpTimeout : Duration;
  maxRingPackets : Z;
  detectHijack : bool;
  detectInjection : bool;
  detectCoalesceInjection : bool;
  maxConcurrentConnections : Z;
  bufferedPerConnection : Z;
  bufferedTotal : Z;
  useAfPacket : bool;
  maxPcapLogSize : Z;
  maxNumPcapRotations : Z
}.

Definition defaultFlags : Flags :=
  mkFlags EmptyString "eth0" 65536 "tcp" "honeyBadger-logs" EmptyString "3s" true false
          (5 * 60 * 1000000000) 40 true true true 0 0 0 true 1 10.

Record DispatcherOptions := mkDispatcherOptions {
  d_BufferedPerConnection : Z;
  d_BufferedTotal : Z;
  d_LogDir : string;
  d_LogPackets : bool;
  d_MaxPcapLogRotations : Z;
  d_MaxPcapLogSize : Z;
  d_TcpIdleTimeout : Duration;
  d_MaxRingPackets : Z;
  d_DetectHijack : bool;
  d_DetectInjection : bool;
  d_DetectCoalesceInjection : bool;
  d_MaxConcurrentConnections : Z
}.

Record SnifferOptions := mkSnifferOptions {
  s_Interface : string;
  s_Filename : string;
  s_WireDuration : Duration;
  s_Snaplen : Z;
  s_Filter : string;
  s_UseAfPacket : bool
}.

(** What [main] does that can be seen from outside, in order. Packets are
    captured from within [supervisor.Run()]. *)
Inductive Step :=
| AttackLoggerStart (metadataOnly : bool)
| SupervisorRun (d : DispatcherOptions) (s : SnifferOptions) (packetLoggers : bool)
| AttackLoggerStop.

(** How [main] ends: [log.Fatal] with its message, or the return from
    [main]; either way after the steps listed. *)
Inductive Exit :=
| Fatal (message : string) (done : list Step)
| Returned (done : list Step).

Section WithParseDuration.

(** [time.ParseDuration]; [None] is its error. *)
Variable ParseDuration : string -> option Duration.

Definition main (f : Flags) : Exit :=
  match ParseDuration (wireTimeout f) with
  | None => Fatal ("invalid wire timeout duration: " ++ wireTimeout f) []
  | Some wireDuration =>
      if (maxConcurrentConnections f =? 0) && (bufferedTotal f =? 0) then
        Fatal "connection_max_buffer and or total_max_buffer must be set to a non-zero value" []
      else
        let dispatcherOptions :=
          mkDispatcherOptions (bufferedPerConnection f) (bufferedTotal f) (logDir f)
            (logPackets f) (maxNumPcapRotations f) (maxPcapLogSize f) (tcpTimeout f)
            (maxRingPackets f) (detectHijack f) (detectInjection f)
            (detectCoalesceInjection f) (maxConcurrentConnections f) in
        let snifferOptions :=
          mkSnifferOptions (iface f) (pcapfile f) wireDuration
            (wrap32 (snaplen f)) (filter f) (useAfPacket f) in
        Returned [AttackLoggerStart (metadataAttackLog f);
                  SupervisorRun dispatcherOptions snifferOptions (logPackets f);
                  AttackLoggerStop]
  end.

End WithParseDuration.

(** [main] got as far as running the supervisor, where capture begins. *)
Definition captureBegan (e : Exit) : Prop :=
  exists d s l,
    SupervisorRun d s l ∈ match e with Fatal _ done => done | Returned done => done end.

End Main.

(* ===================================================================== *)
(** ** Opening the capture handle *)

Module Handle.

(** How a function that may call [log.Fatal] ends. *)
Inductive Setup (A : Type) :=
| Ready (a : A)
| LogFatal.

Arguments Ready {A}.
Arguments LogFatal {A}.

Section WithPcap.

(** The pcap library: [None] is an error from an open, [false] an error
    from [SetBPFFilter]. *)
Variable PcapHandle : Type.
Variable OpenOffline : string -> option PcapHandle.
Variable OpenLive : string -> Z -> bool -> Duration -> option PcapHandle.
Variable SetBPFFilter : PcapHandle -> string -> bool.

(** [Inquisitor.setupHandle]: the handle it leaves in [i.handle]. *)
Definition setupHandle (o : PacketSource.InquisitorOptions) : Setup PcapHandle :=
  let opened :=
    if negb (String.eqb (PacketSource.Filename o) EmptyString)
    then OpenOffline (PacketSource.Filename o)
    else OpenLive (PacketSource.Interface o) (wrap32 (PacketSource.Snaplen o)) true
                  (PacketSource.WireDuration o) in
  match opened with
  | None => LogFatal
  | Some handle =>
      if SetBPFFilter handle (PacketSource.Filter o) then Ready handle else LogFatal
  end.

End WithPcap.

End Handle.

(* ===================================================================== *)
(** ** The sniffer of the core package ([Sniffer], second generation) *)

Module Sniffer.

Inductive LogEntry :=
| LogAfPacket (iface : string)   (* "sniffing with AF_PACKET in-kernel socket from interface %q" *)
| LogPcapFile (file : string)    (* "sniffing with libpcap from file %q" *)
| LogPcapLive (iface : string)   (* "sniffing with libpcap from interface %q" *)
| LogEOF.                        (* "ReadPacketData got EOF" *)

Section WithCapture.

(** The capture libraries: pcap as above, and [afpacket.NewTPacket]. *)
Variable PcapHandle : Type.
Variable TPacket : Type.
Variable NewTPacket : string -> option TPacket.
Variable OpenOffline : string -> option PcapHandle.
Variable OpenLive : string -> Z -> bool -> Duration -> option PcapHandle.
Variable SetBPFFilter : PcapHandle -> string -> bool.

(** The interface value in [packetDataSource]: nothing assigned yet, a
    [*pcap.Handle] (which may be a nil pointer), or a [*afpacket.TPacket]. *)
Inductive PacketDataSource :=
| NoSource
| FromPcap (h : option PcapHandle)
| FromTPacket (h : option TPacket).

Inductive Event :=
| EvLog (l : LogEntry)
| EvStopSignal (st : Stage)
| EvPcapClose (h : PcapHandle)
| EvTPacketClose (h : TPacket)
| EvCloseTchan
| EvSupervisorStopped
| EvDispatcherReceivePacket (m : PacketManifest).

Record Sniffer := mkSniffer {
  options : Main.SnifferOptions;
  pcapHandle : option PcapHandle;
  tpacketHandle : option TPacket;
  packetDataSource : PacketDataSource;
  capturing : bool;
  decoding : bool;
  vars : PacketSource.DecoderVars;
  trace : list Event
}.

Definition NewSniffer (o : Main.SnifferOptions) (v : PacketSource.DecoderVars) : Sniffer :=
  mkSniffer o None None NoSource false false v [].

Inductive Outcome (A : Type) :=
| Done (a : A) (s : Sniffer)
| LogFatal (s : Sniffer)
| Panic (s : Sniffer)
| Blocked (s : Sniffer).

Arguments Done {A}.
Arguments LogFatal {A}.
Arguments Panic {A}.
Arguments Blocked {A}.

Definition M (A : Type) : Type := Sniffer -> Outcome A.

Definition ret {A} (a : A) : M A := fun s => Done a s.

Definition bind {A B} (m : M A) (k : A -> M B) : M B :=
  fun s => match m s with
           | Done a s' => k a s'
           | LogFatal s' => LogFatal s'
           | Panic s' => Panic s'
           | Blocked s' => Blocked s'
           end.

Notation "x <- m ;; k" := (bind m (fun x => k))
  (at level 100, m at next level, right associativity).
Notation "m ;; k" := (bind m (fun _ => k))
  (at level 100, right associativity).

Definition gets {A} (f : Sniffer -> A) : M A := fun s => Done (f s) s.
Definition modify (f : Sniffer -> Sniffer) : M unit := fun s => Done tt (f s).
Definition fatal {A} : M A := fun s => LogFatal s.
Definition panic {A} : M A := fun s => Panic s.
Definition block {A} : M A := fun s => Blocked s.

Definition emit (e : Event) : M unit :=
  modify (fun s => mkSniffer (options s) (pcapHandle s) (tpacketHandle s)
                     (packetDataSource s) (capturing s) (decoding s) (vars s)
                     (trace s ++ [e])).
Definition set_pcapHandle (h : option PcapHandle) : M unit :=
  modify (fun s => mkSniffer (options s) h (tpacketHandle s)
                     (packetDataSource s) (capturing s) (decoding s) (vars s) (trace s)).
Definition set_tpacketHandle (h : option TPacket) : M unit :=
  modify (fun s => mkSniffer (options s) (pcapHandle s) h
                     (packetDataSource s) (capturing s) (decoding s) (vars s) (trace s)).
Definition set_packetDataSource (src : PacketDataSource) : M unit :=
  modify (fun s => mkSniffer (options s) (pcapHandle s) (tpacketHandle s)
                     src (capturing s) (decoding s) (vars s) (trace s)).
Definition set_capturing (b : bool) : M unit :=
  modify (fun s => mkSniffer (options s) (pcapHandle s) (tpacketHandle s)
                     (packetDataSource s) b (decoding s) (vars s) (trace s)).
Definition set_decoding (b : bool) : M unit :=
  modify (fun s => mkSniffer (options s) (pcapHandle s) (tpacketHandle s)
                     (packetDataSource s) (capturing s) b (vars s) (trace s)).
Definition set_vars (v : PacketSource.DecoderVars) : M unit :=
  modify (fun s => mkSniffer (options s) (pcapHandle s) (tpacketHandle s)
                     (packetDataSource s) (capturing s) (decoding s) v (trace s)).

(** [Sniffer.setupHandle]. *)
Definition setupHandle : M unit :=
  o <- gets options ;;
  if Main.s_UseAfPacket o then
    emit (EvLog (LogAfPacket (Main.s_Interface o))) ;;
    let h := NewTPacket (Main.s_Interface o) in
    set_tpacketHandle h ;;
    match h with
    | None => fatal
    | Some _ => set_packetDataSource (FromTPacket h)
    end
  else if negb (String.eqb (Main.s_Filename o) EmptyString) then
    emit (EvLog (LogPcapFile (Main.s_Filename o))) ;;
    let h := OpenOffline (Main.s_Filename o) in
    set_pcapHandle h ;;
    set_packetDataSource (FromPcap h)
  else
    emit (EvLog (LogPcapLive (Main.s_Interface o))) ;;
    let h := OpenLive (Main.s_Interface o) (Main.s_Snaplen o) true
                      (Main.s_WireDuration o) in
    set_pcapHandle h ;;
    match h with
    | None => fatal
    | Some handle =>
        if SetBPFFilter handle (Main.s_Filter o) then set_packetDataSource (FromPcap h)
        else fatal
    end.

(** [Sniffer.Start]. *)
Definition Start : M unit :=
  p <- gets pcapHandle ;;
  t <- gets tpacketHandle ;;
  (match p, t with
   | None, None => setupHandle
   | _, _ => ret tt
   end) ;;
  set_capturing true ;;
  set_decoding true.

(** [ch <- true] on a stop channel, as for the inquisitor: the stage
    receives it in its loop and returns. *)
Definition signalStop (st : Stage) : M unit :=
  match st with
  | Capture =>
      r <- gets capturing ;;
      if r : bool then emit (EvStopSignal Capture) ;; set_capturing false else block
  | Decode =>
      r <- gets decoding ;;
      if r : bool then emit (EvStopSignal Decode) ;; set_decoding false else block
  | Dispatch => block
  end.

(** [Sniffer.Stop]. [Close] on a nil [*afpacket.TPacket] dereferences
    it. *)
Definition Stop : M unit :=
  signalStop Capture ;;
  signalStop Decode ;;
  p <- gets pcapHandle ;;
  match p with
  | Some h => emit (EvPcapClose h)
  | None =>
      t <- gets tpacketHandle ;;
      match t with
      | Some h => emit (EvTPacketClose h)
      | None => panic
      end
  end.

Section Decoding.

Context {decEthernet : DecodingLayer Ethernet}.
Context {decIPv4 : DecodingLayer IPv4}.
Context {decTCP : DecodingLayer TCP}.

(** [i.decodePacketChan <- t], received by [Sniffer.decodePackets]: the
    same body as the inquisitor's, with the manifest handed to the
    dispatcher's [ReceivePacket]. *)
Definition sendToDecode (t : TimedRawPacket) : M unit :=
  r <- gets decoding ;;
  if r : bool then
    v <- gets vars ;;
    let '(v', out) := PacketSource.decodeOne t v in
    set_vars v' ;;
    match out with
    | None => ret tt
    | Some packetManifest => emit (EvDispatcherReceivePacket packetManifest)
    end
  else block.

Definition sendToCapture (t : TimedRawPacket) : M unit :=
  r <- gets capturing ;;
  if r : bool then sendToDecode t else block.

(** One turn of the reading goroutine of [Sniffer.capturePackets], on
    what [ReadPacketData] returns. The call itself dereferences the handle
    in [packetDataSource]. *)
Definition readerStep (r : PacketSource.ReadResult) : M PacketSource.Loop :=
  src <- gets packetDataSource ;;
  match src with
  | NoSource | FromPcap None | FromTPacket None => panic
  | _ =>
      match r with
      | PacketSource.ReadEOF =>
          emit (EvLog LogEOF) ;;
          Stop ;;
          emit EvCloseTchan ;;
          emit EvSupervisorStopped ;;
          ret PacketSource.Return
      | PacketSource.ReadError => ret PacketSource.Continue
      | PacketSource.ReadData rawPacket timestamp =>
          sendToCapture (mkTimedRawPacket timestamp rawPacket) ;;
          ret PacketSource.Continue
      end
  end.

End Decoding.

End WithCapture.

Arguments Done {PcapHandle TPacket A}.
Arguments LogFatal {PcapHandle TPacket A}.
Arguments Panic {PcapHandle TPacket A}.
Arguments Blocked {PcapHandle TPacket A}.
Arguments NoSource {PcapHandle TPacket}.
Arguments FromPcap {PcapHandle TPacket}.
Arguments FromTPacket {PcapHandle TPacket}.
Arguments EvLog {PcapHandle TPacket}.
Arguments EvStopSignal {PcapHandle TPacket}.
Arguments EvPcapClose {PcapHandle TPacket}.
Arguments EvTPacketClose {PcapHandle TPacket}.
Arguments EvCloseTchan {PcapHandle TPacket}.
Arguments EvSupervisorStopped {PcapHandle TPacket}.
Arguments EvDispatcherReceivePacket {PcapHandle TPacket}.
Arguments options {PcapHandle TPacket}.
Arguments pcapHandle {PcapHandle TPacket}.
Arguments tpacketHandle {PcapHandle TPacket}.
Arguments packetDataSource {PcapHandle TPacket}.
Arguments capturing {PcapHandle TPacket}.
Arguments decoding {PcapHandle TPacket}.
Arguments vars {PcapHandle TPacket}.
Arguments trace {PcapHandle TPacket}.

End Sniffer.

(* ===================================================================== *)
(** ** The receive loop of the first-generation Inquisitor *)

Module LegacyLoop.

(** [const timeout time.Duration = time.Minute * 5]. *)
Definition timeout : Duration := 5 * 60 * 1000000000.

(** The [PacketManifest] of that generation: headers and payload only. *)
Record Manifest := mkManifest {
  m_IP : IPv4;
  m_TCP : TCP;
  m_Payload : list Byte.byte
}.

(** What the loop does besides closing connections: its own log lines and
    its calls on connections and loggers, in order. *)
Inductive Call :=
| LogTick                                  (* "stopChan received a value" *)
| LogLastTimestamp (t : Time)              (* "lastTimestamp is %s" *)
| NewConnectionPacketLogger (c : ConnId) (flow : TcpIpFlow)
| NewAttackJsonLogger (c : ConnId) (flow : TcpIpFlow)
| ReceivePacket (c : ConnId) (m : Manifest) (flow : TcpIpFlow) (timestamp : Time)
| PacketLoggerWrite (c : ConnId) (rawPacket : list Byte.byte) (flow : TcpIpFlow)
| CloseStopChan
| HandleClose.

(** The inquisitor of that generation with what [receivePackets] keeps in
    local variables. *)
Record State := mkState {
  inq : Legacy.Inquisitor;
  lastTimestamp : Time;
  vars : PacketSource.DecoderVars;
  stopChanClosed : bool;
  handleOpen : bool;
  calls : list Call
}.

Definition with_inq (a : Legacy.Inquisitor) (s : State) : State :=
  mkState a (lastTimestamp s) (vars s) (stopChanClosed s) (handleOpen s) (calls s).
Definition with_lastTimestamp (t : Time) (s : State) : State :=
  mkState (inq s) t (vars s) (stopChanClosed s) (handleOpen s) (calls s).
Definition with_vars (v : PacketSource.DecoderVars) (s : State) : State :=
  mkState (inq s) (lastTimestamp s) v (stopChanClosed s) (handleOpen s) (calls s).
Definition with_stopChanClosed (s : State) : State :=
  mkState (inq s) (lastTimestamp s) (vars s) true (handleOpen s) (calls s).
Definition with_handleClosed (s : State) : State :=
  mkState (inq s) (lastTimestamp s) (vars s) (stopChanClosed s) false (calls s).
Definition called (c : Call) (s : State) : State :=
  mkState (inq s) (lastTimestamp s) (vars s) (stopChanClosed s) (handleOpen s)
          (calls s ++ [c]).

(** How a turn of the loop, or a call, ends. *)
Inductive Outcome :=
| Continue (s : State)
| Returned (s : State)
| Blocked (s : State)
| Panic (s : State).

(** [InquestWithTimestamp]. Modelled from the spec: [NewConnection] is not
    among the sources; it allocates a connection, as above. *)
Definition InquestWithTimestamp (rawPacket : list Byte.byte) (packetManifest : Manifest)
    (flow : TcpIpFlow) (timestamp : Time) (s : State) : Outcome :=
  let a := inq s in
  let found :=
    if pool.Has (Legacy.connPool a) flow then
      match pool.Get (Legacy.connPool a) flow with
      | Some conn => Some (conn, s)
      | None => None
      end
    else
      let conn := fresh (dom (Legacy.conns a)) in
      let a := Legacy.mkInquisitor
                 (pool.Put (Legacy.connPool a) flow conn)
                 (<[conn := mkConnection 0 false false false []]> (Legacy.conns a))
                 (Legacy.trace a ++ [EvNewConnection conn; EvPut flow conn]) in
      Some (conn, with_inq a (called (NewAttackJsonLogger conn flow)
                                (called (NewConnectionPacketLogger conn flow) s)))
  in
  match found with
  | None => Panic s
  | Some (conn, s) =>
      Continue (called (PacketLoggerWrite conn rawPacket flow)
                  (called (ReceivePacket conn packetManifest flow timestamp) s))
  end.

(** [Stop], called from another goroutine while the loop is at its
    [select]: the loop receives the value, closes [stopChan], closes all
    connections and returns; [Stop] closes the handle. A send on the closed
    channel panics. *)
Definition Stop (s : State) : Outcome :=
  if stopChanClosed s then Panic s
  else
    let s := called CloseStopChan (with_stopChanClosed s) in
    let s := with_inq (Legacy.CloseAllConnections (inq s)) s in
    Returned (called HandleClose (with_handleClosed s)).

(** What the [select] of a turn chose. *)
Inductive Selected :=
| SelStop
| SelTick
| SelDefault (r : PacketSource.ReadResult).

Section Decoding.

Context {decEthernet : DecodingLayer Ethernet}.
Context {decIPv4 : DecodingLayer IPv4}.
Context {decTCP : DecodingLayer TCP}.

(** One turn of the loop of [receivePackets]. On end of stream the loop
    itself calls [Stop]: the send on [stopChan] has no receiver, the only
    one being this loop. *)
Definition turn (sel : Selected) (s : State) : Outcome :=
  match sel with
  | SelStop =>
      let s := called CloseStopChan (with_stopChanClosed s) in
      Returned (with_inq (Legacy.CloseAllConnections (inq s)) s)
  | SelTick =>
      let s := called LogTick s in
      if negb (lastTimestamp s =? 0) then
        let s := called (LogLastTimestamp (lastTimestamp s)) s in
        let s := with_lastTimestamp (Time_Add (lastTimestamp s) timeout) s in
        let '(closed, a) := Legacy.CloseOlderThan (lastTimestamp s) (inq s) in
        let s := with_inq a s in
        if closed =? 0 then Continue s
        else Continue (with_inq (Legacy.log (LogTimeoutClosed closed) (inq s)) s)
      else Continue s
  | SelDefault PacketSource.ReadEOF =>
      let s := with_inq (Legacy.log LogEOF (inq s)) s in
      if stopChanClosed s then Panic s else Blocked s
  | SelDefault PacketSource.ReadError => Continue s
  | SelDefault (PacketSource.ReadData rawPacket timestamp) =>
      let '(v, err) := PacketSource.DecodeLayers rawPacket
                         (PacketSource.set_payload [] (vars s)) in
      let s := with_vars v s in
      match err with
      | Some _ => Continue s
      | None =>
          let flow := NewTcpIpFlowFromFlows (NetworkFlow (PacketSource.ip v))
                                            (TransportFlow (PacketSource.tcp v)) in
          let packetManifest :=
            mkManifest (PacketSource.ip v) (PacketSource.tcp v) (PacketSource.payload v) in
          let s := with_lastTimestamp timestamp s in
          InquestWithTimestamp rawPacket packetManifest flow timestamp s
      end
  end.

(** The loop, on what its [select] chooses turn after turn. *)
Fixpoint receivePackets (sels : list Selected) (s : State) : Outcome :=
  match sels with
  | [] => Continue s
  | sel :: rest =>
      match turn sel s with
      | Continue s' => receivePackets rest s'
      | o => o
      end
  end.

End Decoding.

End LegacyLoop.

(* ===================================================================== *)
(** ** Concrete data to run the definitions on *)

Module Fixture.

Definition be (bs : list Byte.byte) : N :=
  fold_left (fun acc b => (acc * 256 + Byte.to_N b)%N) bs 0%N.

Definition slice (from len : nat) (data : list Byte.byte) : list Byte.byte :=
  take len (drop from data).

(** Plain framing: a 14-byte Ethernet header with the EtherType in its last
    two bytes, 20-byte IPv4 and TCP headers without options. *)
Definition ethDecode (data : list Byte.byte) : option Ethernet :=
  if (length data <? 14)%nat then None
  else Some (mkEthernet (mkBaseLayer (take 14 data) (drop 14 data))
                        (be (slice 12 2 data))).

Definition ipDecode (data : list Byte.byte) : option IPv4 :=
  if (length data <? 20)%nat then None
  else Some (mkIPv4 (mkBaseLayer (take 20 data) (drop 20 data))
                    4 (be (slice 8 1 data)) (be (slice 9 1 data))
                    (be (slice 12 4 data)) (be (slice 16 4 data))).

Definition tcpDecode (data : list Byte.byte) : option TCP :=
  if (length data <? 20)%nat then None
  else Some (mkTCP (mkBaseLayer (take 20 data) (drop 20 data))
                   (be (slice 0 2 data)) (be (slice 2 2 data))
                   (be (slice 4 4 data))
                   (N.testbit (be (slice 13 1 data)) 1)).

Lemma drop_shorter (n : nat) (data : list Byte.byte) :
  (0 < n)%nat -> data <> [] -> (length (drop n data) < length data)%nat.
Proof.
  intros Hn Hd. rewrite length_drop. destruct data; [congruence|]. simpl. lia.
Qed.

#[export] Instance decEthernet : DecodingLayer Ethernet.
Proof.
  refine {| DecodeFromBytes := ethDecode;
            DecodeFailure := fun _ l => l;
            NextLayerType := fun l =>
              if (EthernetType l =? 2048)%N then LayerTypeIPv4
              else LayerTypeOther (EthernetType l);
            LayerPayload := fun l => base_Payload (eth_BaseLayer l) |}.
  intros data l Hd. unfold ethDecode.
  destruct (length data <? 14)%nat; [discriminate|].
  intros [= <-]. simpl. apply drop_shorter; [lia | exact Hd].
Defined.

#[export] Instance decIPv4 : DecodingLayer IPv4.
Proof.
  refine {| DecodeFromBytes := ipDecode;
            DecodeFailure := fun _ l => l;
            NextLayerType := fun l =>
              if (Protocol l =? 6)%N then LayerTypeTCP
              else LayerTypeOther (Protocol l);
            LayerPayload := fun l => base_Payload (ip_BaseLayer l) |}.
  intros data l Hd. unfold ipDecode.
  destruct (length data <? 20)%nat; [discriminate|].
  intros [= <-]. simpl. apply drop_shorter; [lia | exact Hd].
Defined.

#[export] Instance decTCP : DecodingLayer TCP.
Proof.
  refine {| DecodeFromBytes := tcpDecode;
            DecodeFailure := fun _ l => l;
            NextLayerType := fun _ => LayerTypePayload;
            LayerPayload := fun l => base_Payload (tcp_BaseLayer l) |}.
  intros data l Hd. unfold tcpDecode.
  destruct (length data <? 20)%nat; [discriminate|].
  intros [= <-]. simpl. apply drop_shorter; [lia | exact Hd].
Defined.

Definition zeros (n : nat) : list Byte.byte := repeat Byte.x00 n.

(** A frame from 1.2.3.4:1 to 2.3.4.5:2 carrying [body] over TCP. *)
Definition frame (body : list Byte.byte) : list Byte.byte :=
  (zeros 12 ++ [Byte.x08; Byte.x00])
  ++ (zeros 8 ++ [Byte.x40; Byte.x06] ++ zeros 2
      ++ [Byte.x01; Byte.x02; Byte.x03; Byte.x04]
      ++ [Byte.x02; Byte.x03; Byte.x04; Byte.x05])
  ++ ([Byte.x00; Byte.x01; Byte.x00; Byte.x02] ++ zeros 16)
  ++ body.

(** The same frame with an EtherType that is not IPv4 (ARP). *)
Definition arpFrame : list Byte.byte :=
  zeros 12 ++ [Byte.x08; Byte.x06] ++ zeros 28.

(** A UDP datagram from 9.9.9.9 to 8.8.8.8: IPv4 with protocol 17. *)
Definition udpFrame : list Byte.byte :=
  (zeros 12 ++ [Byte.x08; Byte.x00])
  ++ (zeros 8 ++ [Byte.x40; Byte.x11] ++ zeros 2
      ++ [Byte.x09; Byte.x09; Byte.x09; Byte.x09]
      ++ [Byte.x08; Byte.x08; Byte.x08; Byte.x08])
  ++ zeros 8.

(** A frame cut after its Ethernet header, and one cut after the IPv4
    header of a TCP packet from 5.5.5.5 to 6.6.6.6. *)
Definition ethernetOnly : list Byte.byte :=
  zeros 12 ++ [Byte.x08; Byte.x00].

Definition ipv4Only : list Byte.byte :=
  (zeros 12 ++ [Byte.x08; Byte.x00])
  ++ (zeros 8 ++ [Byte.x40; Byte.x06] ++ zeros 2
      ++ [Byte.x05; Byte.x05; Byte.x05; Byte.x05]
      ++ [Byte.x06; Byte.x06; Byte.x06; Byte.x06]).

Definition hello : list Byte.byte :=
  [Byte.x68; Byte.x65; Byte.x6c; Byte.x6c; Byte.x6f].

Definition noBase : BaseLayer := mkBaseLayer [] [].

Definition zeroVars : PacketSource.DecoderVars :=
  PacketSource.mkVars (mkEthernet noBase 0) (mkIPv4 noBase 0 0 0 0 0)
                      (mkTCP noBase 0 0 0 false) [] [].

(** The flow of the pool test: client 1.2.3.4:1, server 2.3.4.5:2; and a
    second conversation of the same hosts. *)
Definition flow : TcpIpFlow :=
  NewTcpIpFlowFromFlows (mkFlow 16909060 33752069) (mkFlow 1 2).
Definition flow2 : TcpIpFlow :=
  NewTcpIpFlowFromFlows (mkFlow 16909060 33752069) (mkFlow 7 2).
Definition flow3 : TcpIpFlow :=
  NewTcpIpFlowFromFlows (mkFlow 16909060 33752069) (mkFlow 9 2).

(** The addresses of [udpFrame] with the ports of no TCP header. *)
Definition udpFlow : TcpIpFlow :=
  NewTcpIpFlowFromFlows (mkFlow 151587081 134744072) (mkFlow 0 0).

Definition manifestOf (f : TcpIpFlow) (ts : Time) : PacketManifest :=
  mkPacketManifest ts f []
    (mkIPv4 noBase 4 64 6 (flow_src (ipFlow f)) (flow_dst (ipFlow f)))
    (mkTCP noBase (flow_src (tcpFlow f)) (flow_dst (tcpFlow f)) 3 false)
    [Byte.x01; Byte.x02; Byte.x03].

Definition opts (maxConns : Z) (idle : Duration) : PacketSource.InquisitorOptions :=
  PacketSource.mkOptions "eth0" EmptyString 3000000000 0 0 "tcp" "log" 65536 false
    idle 40 true true true maxConns.

(** An inquisitor that has been started, with a cap of [maxConns]
    connections and an idle timeout of [idle]. *)
Definition started (maxConns : Z) (idle : Duration) : PacketSource.Inquisitor :=
  match PacketSource.Start (PacketSource.NewInquisitor (opts maxConns idle) zeroVars) with
  | PacketSource.Done _ i => i
  | PacketSource.Panic i => i
  | PacketSource.Blocked i => i
  end.

(** The state after the manifests [ms] went through the dispatcher. *)
Definition after (ms : list PacketManifest) (i : PacketSource.Inquisitor)
  : PacketSource.Inquisitor :=
  match PacketSource.dispatchPackets (map PacketSource.Manifest ms) i with
  | PacketSource.Done _ j => j
  | PacketSource.Panic j => j
  | PacketSource.Blocked j => j
  end.

(** Two conversations are tracked, and both connections have asked to be
    closed: first connection 0, then connection 1. *)
Definition twoRequests : PacketSource.Inquisitor :=
  match PacketSource.bind (PacketSource.requestClose 0%nat)
          (fun _ => PacketSource.requestClose 1%nat)
          (after [manifestOf flow 1; manifestOf flow2 2] (started 0 100)) with
  | PacketSource.Done _ i => i
  | PacketSource.Panic i => i
  | PacketSource.Blocked i => i
  end.

(** Two connections in the legacy pool: one last seen at 5, one at 20. *)
Definition legacy : Legacy.Inquisitor :=
  Legacy.mkInquisitor
    (pool.Put (pool.Put pool.NewConnectionPool flow 0%nat) flow2 1%nat)
    (<[0%nat := mkConnection 5 true false false []]>
       (<[1%nat := mkConnection 20 true false false []]> ∅))
    [].

Definition parseDuration (s : string) : option Duration :=
  if String.eqb s "3s" then Some 3000000000 else None.

(** The default flags, with at most 100 connections tracked. *)
Definition boundedFlags : Main.Flags :=
  Main.mkFlags EmptyString "eth0" 65536 "tcp" "honeyBadger-logs" EmptyString "3s"
    true false (5 * 60 * 1000000000) 40 true true true 100 0 0 true 1 10.

End Fixture.

(* ===================================================================== *)
(** * Properties *)

Lemma endpoint_leb_total (a b : N * N) :
  endpoint_leb a b = false -> endpoint_leb b a = true.
Proof.
  destruct a as [a1 a2], b as [b1 b2]; unfold endpoint_leb; simpl.
  intros H. apply orb_false_iff in H as [H1 H2].
  apply N.ltb_ge in H1.
  destruct (N.eqb_spec a1 b1) as [->|Hne]; simpl in H2.
  - apply N.leb_gt in H2. rewrite N.ltb_irrefl, N.eqb_refl. simpl.
    apply N.leb_le. lia.
  - assert (Hlt : (b1 < a1)%N) by lia.
    apply N.ltb_lt in Hlt. now rewrite Hlt.
Qed.

Lemma endpoint_leb_antisym (a b : N * N) :
  endpoint_leb a b = true -> endpoint_leb b a = true -> a = b.
Proof.
  destruct a as [a1 a2], b as [b1 b2]; unfold endpoint_leb; simpl.
  intros H1 H2.
  apply orb_true_iff in H1. apply orb_true_iff in H2.
  rewrite !andb_true_iff, !N.ltb_lt, !N.eqb_eq, !N.leb_le in *.
  f_equal; lia.
Qed.

Lemma key_Reverse (f : TcpIpFlow) : key (Reverse f) = key f.
Proof.
  unfold key.
  change (srcEndpoint (Reverse f)) with (dstEndpoint f).
  change (dstEndpoint (Reverse f)) with (srcEndpoint f).
  destruct (endpoint_leb (srcEndpoint f) (dstEndpoint f)) eqn:Hab;
    destruct (endpoint_leb (dstEndpoint f) (srcEndpoint f)) eqn:Hba; try reflexivity.
  - now rewrite (endpoint_leb_antisym _ _ Hab Hba).
  - apply endpoint_leb_total in Hab. congruence.
Qed.

Lemma Reverse_involutive (f : TcpIpFlow) : Reverse (Reverse f) = f.
Proof. now destruct f as [[? ?] [? ?]]. Qed.

(** C2. Pool lookup does not depend on the direction of the flow key:
    [Has] and [Get] give the same answer on a key and on its reverse, and a
    connection stored under one direction is the one found under the other,
    in a single entry of the pool. *)
Theorem C2_pool_lookup_direction_agnostic (p : pool.ConnectionPool) (K : TcpIpFlow) :
  pool.Has p K = pool.Has p (Reverse K)
  /\ pool.Get p K = pool.Get p (Reverse K)
  /\ (forall c, pool.Get (pool.Put p K c) (Reverse K) = Some c)
  /\ (forall c c', pool.Len (pool.Put (pool.Put p K c) (Reverse K) c')
                   = pool.Len (pool.Put p K c)).
Proof.
  unfold pool.Has, pool.Get, pool.Put, pool.Len; simpl.
  rewrite !key_Reverse. repeat split; try reflexivity.
  - intros c. apply lookup_insert_eq.
  - intros c c'. apply map_size_insert_Some. rewrite lookup_insert_eq. eauto.
Qed.

(* --------------------------------------------------------------------- *)
(** ** Closing by age *)

Lemma wrap64_id (z : Z) : int64_range z -> wrap64 z = z.
Proof.
  unfold int64_range, wrap64. intros H.
  rewrite Z.mod_small by lia. lia.
Qed.

Lemma Equal_or_Before (l t : Z) :
  Time_Equal l t || Time_Before l t = (l <=? t).
Proof.
  unfold Time_Equal, Time_Before.
  destruct (Z.eqb_spec l t), (Z.ltb_spec l t), (Z.leb_spec l t); simpl; lia.
Qed.

(** A connection once closure is, or is not, initiated on it. *)
Definition closedIf (b : bool) (c : Connection) : Connection :=
  if b then set_closing c else c.

Lemma set_closing_idemp (c : Connection) : set_closing (set_closing c) = set_closing c.
Proof. reflexivity. Qed.

Lemma seenBy_alter_closing (store : gmap nat Connection) (t : Z) (c d : nat) :
  pool.seenBy (alter set_closing d store) t c = pool.seenBy store t c.
Proof.
  unfold pool.seenBy. rewrite lookup_alter.
  destruct (decide (d = c)) as [->|Hd]; [|reflexivity].
  now destruct (store !! c).
Qed.

Lemma filter_seenBy_alter (store : gmap nat Connection) (t : Z) (d : nat) (cs : list nat) :
  List.filter (pool.seenBy (alter set_closing d store) t) cs
  = List.filter (pool.seenBy store t) cs.
Proof.
  induction cs as [|c cs IH]; simpl; [reflexivity|].
  now rewrite seenBy_alter_closing, IH.
Qed.

Lemma closeEach_lookup (cs : list nat) (store : gmap nat Connection) (c : nat) :
  pool.closeEach cs store !! c
  = closedIf (bool_decide (c ∈ cs)) <$> store !! c.
Proof.
  induction cs as [|d cs IH]; simpl.
  - now destruct (store !! c).
  - rewrite lookup_alter. destruct (decide (d = c)) as [->|Hd].
    + rewrite IH, (bool_decide_true (c ∈ c :: cs)) by set_solver.
      destruct (store !! c) as [x|]; simpl; [|reflexivity].
      now destruct (bool_decide (c ∈ cs)).
    + rewrite IH. destruct (bool_decide_reflect (c ∈ cs)).
      * rewrite (bool_decide_true (c ∈ d :: cs)) by set_solver. reflexivity.
      * rewrite (bool_decide_false (c ∈ d :: cs))
          by (rewrite elem_of_cons; intros [?|?]; congruence). reflexivity.
Qed.

Lemma Legacy_range_cons (t : Z) (d : nat) (cs : list nat) (closed : Z)
    (a : Legacy.Inquisitor) :
  Legacy.CloseOlderThan_range t (d :: cs) closed a
  = if pool.seenBy (Legacy.conns a) t d
    then Legacy.CloseOlderThan_range t cs (wrap64 (closed + 1)) (Legacy.Close d a)
    else Legacy.CloseOlderThan_range t cs closed a.
Proof.
  unfold pool.seenBy. cbn [Legacy.CloseOlderThan_range].
  destruct (Legacy.conns a !! d) as [x|]; [|reflexivity].
  now rewrite Equal_or_Before.
Qed.

Lemma Legacy_range_spec (t : Z) (cs : list nat) :
  forall (closed : Z) (a : Legacy.Inquisitor),
    0 <= closed ->
    closed + Z.of_nat (length cs) < 2 ^ 63 ->
    let old := List.filter (pool.seenBy (Legacy.conns a) t) cs in
    let r := Legacy.CloseOlderThan_range t cs closed a in
    r.1 = closed + Z.of_nat (length old)
    /\ Legacy.connPool r.2 = Legacy.connPool a
    /\ Legacy.trace r.2 = Legacy.trace a ++ map EvClose old
    /\ forall c, Legacy.conns r.2 !! c
                 = closedIf (bool_decide (c ∈ old)) <$> Legacy.conns a !! c.
Proof.
  induction cs as [|d cs IH]; intros closed a Hc Hb; cbn zeta.
  - simpl. rewrite Z.add_0_r, app_nil_r. repeat split.
    intros c. now destruct (Legacy.conns a !! c).
  - rewrite Legacy_range_cons. cbn [List.filter]. cbn [length] in Hb.
    destruct (pool.seenBy (Legacy.conns a) t d) eqn:Hd.
    + rewrite wrap64_id by (unfold int64_range; lia).
      specialize (IH (closed + 1) (Legacy.Close d a)).
      cbn zeta in IH. destruct IH as (I1 & I2 & I3 & I4); [lia | lia |].
      cbn [Legacy.Close Legacy.conns Legacy.trace Legacy.connPool] in *.
      rewrite filter_seenBy_alter in *.
      repeat split.
      * rewrite I1. cbn [length]. lia.
      * exact I2.
      * rewrite I3, <- app_assoc. reflexivity.
      * intros c. rewrite I4, lookup_alter.
        set (old := List.filter (pool.seenBy (Legacy.conns a) t) cs).
        destruct (decide (d = c)) as [<-|Hcd].
        -- rewrite (bool_decide_true (d ∈ d :: old)) by set_solver.
           destruct (Legacy.conns a !! d) as [x|]; [|reflexivity]. simpl.
           now destruct (bool_decide (d ∈ old)).
        -- destruct (bool_decide_reflect (c ∈ old)).
           ++ rewrite (bool_decide_true (c ∈ d :: old)) by set_solver. reflexivity.
           ++ rewrite (bool_decide_false (c ∈ d :: old))
                by (rewrite elem_of_cons; intros [?|?]; congruence). reflexivity.
    + apply IH; lia.
Qed.

(** What [CloseOlderThan] leaves behind, all in one place. *)
Lemma Legacy_CloseOlderThan_spec (t : Z) (a : Legacy.Inquisitor) :
  Z.of_nat (length (pool.Connections (Legacy.connPool a))) < 2 ^ 63 ->
  let old := List.filter (pool.seenBy (Legacy.conns a) t)
                         (pool.Connections (Legacy.connPool a)) in
  let r := Legacy.CloseOlderThan t a in
  r.1 = Z.of_nat (length old)
  /\ Legacy.connPool r.2 = Legacy.connPool a
  /\ Legacy.trace r.2
     = Legacy.trace a ++ EvLog (LogCloseOlderThan t) :: map EvClose old
  /\ forall c, Legacy.conns r.2 !! c
               = closedIf (bool_decide (c ∈ old)) <$> Legacy.conns a !! c.
Proof.
  intros Hlen. cbn zeta. unfold Legacy.CloseOlderThan.
  pose proof (Legacy_range_spec t (pool.Connections (Legacy.connPool a)) 0
                (Legacy.log (LogCloseOlderThan t) a)) as H.
  cbn zeta in H. cbn [Legacy.log Legacy.connPool Legacy.conns Legacy.trace] in *.
  destruct H as (H1 & H2 & H3 & H4); [lia | lia |].
  repeat split; try assumption.
  rewrite H3, <- app_assoc. reflexivity.
Qed.

(** C3. [CloseOlderThan t] initiates closure on exactly the connections of
    the pool whose [lastSeen] is at most [t]: each of them, and no other,
    gets one [Close] call; a connection with a later [lastSeen] (or outside
    the pool) is left as it was; and the number returned is the number of
    connections closure was initiated on. The hypothesis is the range of a
    Go slice length. *)
Theorem C3_CloseOlderThan_exact (t : Z) (a : Legacy.Inquisitor) :
  Z.of_nat (length (pool.Connections (Legacy.connPool a))) < 2 ^ 63 ->
  let r := Legacy.CloseOlderThan t a in
  let closedOn := omap (fun e => match e with EvClose c => Some c | _ => None end)
                       (drop (length (Legacy.trace a)) (Legacy.trace r.2)) in
  (* exactly the pool's connections with lastSeen <= t *)
  (forall c, (c ∈ closedOn) <->
             (c ∈ pool.Connections (Legacy.connPool a))
             /\ exists conn, Legacy.conns a !! c = Some conn /\ lastSeen conn <= t)
  (* they are marked, every other connection is untouched *)
  /\ (forall c conn, Legacy.conns a !! c = Some conn ->
        Legacy.conns r.2 !! c
        = Some (if bool_decide (c ∈ closedOn) then set_closing conn else conn))
  /\ (forall c conn, Legacy.conns a !! c = Some conn -> t < lastSeen conn ->
        (c ∉ closedOn) /\ Legacy.conns r.2 !! c = Some conn)
  (* the count *)
  /\ r.1 = Z.of_nat (length closedOn)
  /\ Legacy.connPool r.2 = Legacy.connPool a.
Proof.
  intros Hlen. cbn zeta.
  destruct (Legacy_CloseOlderThan_spec t a Hlen) as (H1 & H2 & H3 & H4).
  set (old := List.filter (pool.seenBy (Legacy.conns a) t)
                          (pool.Connections (Legacy.connPool a))) in *.
  assert (Hclosed :
    omap (fun e => match e with EvClose c => Some c | _ => None end)
         (drop (length (Legacy.trace a)) (Legacy.trace (Legacy.CloseOlderThan t a).2))
    = old).
  { rewrite H3, drop_app_length. cbn [omap list_omap].
    clear. induction old as [|x l IH]; [reflexivity|]. cbn. now rewrite IH. }
  rewrite Hclosed.
  assert (Hmem : forall c, (c ∈ old) <->
             (c ∈ pool.Connections (Legacy.connPool a))
             /\ exists conn, Legacy.conns a !! c = Some conn /\ lastSeen conn <= t).
  { intros c. unfold old. rewrite list_elem_of_In, filter_In, <- list_elem_of_In.
    unfold pool.seenBy. split.
    - intros [Hin Hs]. split; [exact Hin|].
      destruct (Legacy.conns a !! c) as [conn|]; [|discriminate].
      exists conn. split; [reflexivity|]. now apply Z.leb_le.
    - intros [Hin (conn & -> & Hle)]. split; [exact Hin|]. now apply Z.leb_le. }
  split; [exact Hmem|]. split; [|split; [|split; [exact H1 | exact H2]]].
  - intros c conn Hc. rewrite H4, Hc. simpl.
    now destruct (bool_decide (c ∈ old)).
  - intros c conn Hc Hlt.
    assert (Hnot : c ∉ old).
    { intros Hin. apply Hmem in Hin as (_ & conn' & Hc' & Hle).
      rewrite Hc in Hc'. injection Hc' as <-. lia. }
    split; [exact Hnot|].
    rewrite H4, Hc. simpl. rewrite bool_decide_false by exact Hnot. reflexivity.
Qed.

(* --------------------------------------------------------------------- *)
(** ** The dispatcher and the pool *)

Import PacketSource.

Lemma Has_true_Get (p : pool.ConnectionPool) (f : TcpIpFlow) :
  pool.Has p f = true -> exists conn, pool.Get p f = Some conn.
Proof.
  unfold pool.Has, pool.Get. intros H.
  apply bool_decide_eq_true in H. destruct H as [conn H]. eauto.
Qed.

Lemma Has_false_Get (p : pool.ConnectionPool) (f : TcpIpFlow) :
  pool.Has p f = false -> pool.Get p f = None.
Proof.
  unfold pool.Has, pool.Get. intros H.
  apply bool_decide_eq_false in H. now apply eq_None_not_Some.
Qed.

Lemma Get_Some_Has (p : pool.ConnectionPool) (f : TcpIpFlow) (conn : nat) :
  pool.Get p f = Some conn -> pool.Has p f = true.
Proof.
  unfold pool.Has, pool.Get. intros H. apply bool_decide_eq_true. eauto.
Qed.

(** The state after [conn.ReceivePacket(&m)]. *)
Definition delivered (conn : nat) (m : PacketManifest) (i : Inquisitor) : Inquisitor :=
  emitted (EvReceivePacket conn m) (with_conns (alter (add_received m) conn (conns i)) i).

Lemma onManifest_known (i : Inquisitor) (m : PacketManifest) (conn : nat) :
  pool.Get (pool_ i) (Flow m) = Some conn ->
  onManifest m i = Done Continue (delivered conn m i).
Proof.
  intros HG. unfold onManifest, bind, pool_Has, pool_Get, gets.
  rewrite (Get_Some_Has _ _ _ HG), HG. reflexivity.
Qed.

Lemma onManifest_full (i : Inquisitor) (m : PacketManifest) :
  pool.Has (pool_ i) (Flow m) = false ->
  MaxConcurrentConnections (options i) <> 0 ->
  MaxConcurrentConnections (options i) <= Z.of_nat (pool.Len (pool_ i)) ->
  onManifest m i = Done Continue i.
Proof.
  intros HH Hne Hle. unfold onManifest, bind, pool_Has, pool_Len, gets.
  rewrite HH.
  destruct (Z.eqb_spec (MaxConcurrentConnections (options i)) 0); [contradiction|].
  destruct (Z.leb_spec (MaxConcurrentConnections (options i))
                       (Z.of_nat (pool.Len (pool_ i)))); [reflexivity | lia].
Qed.

(** The state after [setupNewConnection(flow)] returned [conn]. *)
Definition setUp (flow : TcpIpFlow) (i : Inquisitor) : Inquisitor :=
  let conn := fresh (dom (conns i)) in
  let i := emitted (EvNewConnection conn)
             (with_conns (<[conn := mkConnection 0 false false false []]> (conns i)) i) in
  let i := if LogPackets (options i) then emitted (EvPacketLoggerStart conn flow) i else i in
  let i := emitted (EvPut flow conn) (with_pool (pool.Put (pool_ i) flow conn) i) in
  emitted (EvStart conn) (with_conns (alter set_started conn (conns i)) i).

Lemma setupNewConnection_eq (flow : TcpIpFlow) (i : Inquisitor) :
  setupNewConnection flow i = Done (fresh (dom (conns i))) (setUp flow i).
Proof.
  unfold setupNewConnection, setUp, bind, NewConnection, gets, pool_Put, conn_Start,
    PacketLogger_Start, emit, modify, ret. cbn.
  destruct (LogPackets (options i)); reflexivity.
Qed.

Lemma onManifest_new (i : Inquisitor) (m : PacketManifest) :
  pool.Has (pool_ i) (Flow m) = false ->
  MaxConcurrentConnections (options i) = 0
  \/ Z.of_nat (pool.Len (pool_ i)) < MaxConcurrentConnections (options i) ->
  onManifest m i
  = Done Continue (delivered (fresh (dom (conns i))) m (setUp (Flow m) i)).
Proof.
  intros HH Hcap. unfold onManifest, bind, pool_Has, pool_Len, gets.
  rewrite HH.
  assert (Hgo : negb (MaxConcurrentConnections (options i) =? 0)
                && (MaxConcurrentConnections (options i)
                    <=? Z.of_nat (pool.Len (pool_ i))) = false).
  { destruct (Z.eqb_spec (MaxConcurrentConnections (options i)) 0); [reflexivity|].
    destruct (Z.leb_spec (MaxConcurrentConnections (options i))
                         (Z.of_nat (pool.Len (pool_ i)))); [lia | reflexivity]. }
  rewrite Hgo, setupNewConnection_eq. reflexivity.
Qed.

(** The state after the first [select] of a turn. *)
Definition polled (i : Inquisitor) : Inquisitor :=
  match closeConnectionChan i with
  | [] => i
  | conn :: rest =>
      let i := emitted (EvLog LogCloseRequest) (with_closeChan rest i) in
      emitted (EvStop conn) (with_conns (alter set_stopped conn (conns i)) i)
  end.

Lemma pollCloseRequest_eq (i : Inquisitor) : pollCloseRequest i = Done tt (polled i).
Proof.
  unfold pollCloseRequest, polled, bind, gets.
  now destruct (closeConnectionChan i).
Qed.

Lemma dispatchIteration_eq (sel : Selected) (i : Inquisitor) :
  dispatchIteration sel i = selected sel (polled i).
Proof. unfold dispatchIteration, bind. now rewrite pollCloseRequest_eq. Qed.

Lemma polled_pool (i : Inquisitor) : pool_ (polled i) = pool_ i.
Proof. unfold polled. now destruct (closeConnectionChan i). Qed.

Lemma polled_options (i : Inquisitor) : options (polled i) = options i.
Proof. unfold polled. now destruct (closeConnectionChan i). Qed.

(** C1. A manifest of a flow the pool does not hold, arriving when
    [MaxConcurrentConnections > 0] and the pool holds that many connections
    or more, is dropped: the dispatcher's turn ends with the inquisitor as
    it was, so no connection is created, none is evicted, nothing is
    logged. A manifest of a flow the pool holds is handed, as it is, to the
    connection the pool has for it, whatever the size of the pool. *)
Theorem C1_full_pool_drops_new_flows (i : Inquisitor) (m : PacketManifest) :
  (pool.Has (pool_ i) (Flow m) = false ->
   0 < MaxConcurrentConnections (options i) ->
   MaxConcurrentConnections (options i) <= Z.of_nat (pool.Len (pool_ i)) ->
   onManifest m i = Done Continue i
   /\ dispatchIteration (Manifest m) i
      = (pollCloseRequest ;; ret Continue) i)
  /\ (pool.Has (pool_ i) (Flow m) = true ->
      exists conn j,
        pool.Get (pool_ i) (Flow m) = Some conn
        /\ onManifest m i = Done Continue j
        /\ pool_ j = pool_ i
        /\ trace j = trace i ++ [EvReceivePacket conn m]
        /\ conns j !! conn = add_received m <$> conns i !! conn
        /\ forall c, c <> conn -> conns j !! c = conns i !! c).
Proof.
  split.
  - intros HH Hpos Hle. split.
    + apply onManifest_full; [assumption | lia | assumption].
    + rewrite dispatchIteration_eq. unfold bind. rewrite pollCloseRequest_eq.
      cbn [selected]. apply onManifest_full; rewrite ?polled_pool, ?polled_options;
        [assumption | lia | assumption].
  - intros HH. destruct (Has_true_Get _ _ HH) as [conn HG].
    exists conn, (delivered conn m i). split; [exact HG|].
    split; [now apply onManifest_known|].
    unfold delivered; cbn. split; [reflexivity|]. split; [reflexivity|].
    split.
    + apply lookup_alter_eq.
    + intros c Hc. apply lookup_alter_ne. congruence.
Qed.

Lemma setUp_pool (flow : TcpIpFlow) (i : Inquisitor) :
  pool_ (setUp flow i) = pool.Put (pool_ i) flow (fresh (dom (conns i))).
Proof. unfold setUp. cbn. now destruct (LogPackets (options i)). Qed.

Lemma setUp_conns (flow : TcpIpFlow) (i : Inquisitor) :
  conns (setUp flow i)
  = alter set_started (fresh (dom (conns i)))
      (<[fresh (dom (conns i)) := mkConnection 0 false false false []]> (conns i)).
Proof. unfold setUp. cbn. now destruct (LogPackets (options i)). Qed.

Lemma setUp_trace (flow : TcpIpFlow) (i : Inquisitor) :
  trace (setUp flow i)
  = trace i ++ [EvNewConnection (fresh (dom (conns i)))]
      ++ (if LogPackets (options i)
          then [EvPacketLoggerStart (fresh (dom (conns i))) flow] else [])
      ++ [EvPut flow (fresh (dom (conns i))); EvStart (fresh (dom (conns i)))].
Proof.
  unfold setUp. cbn. destruct (LogPackets (options i)); cbn;
    now rewrite <- !app_assoc.
Qed.

Lemma setUp_closeChan (flow : TcpIpFlow) (i : Inquisitor) :
  closeConnectionChan (setUp flow i) = closeConnectionChan i.
Proof. unfold setUp. cbn. now destruct (LogPackets (options i)). Qed.

Lemma fresh_conn_new (i : Inquisitor) : conns i !! fresh (dom (conns i)) = None.
Proof. apply not_elem_of_dom, is_fresh. Qed.

Lemma Get_same_key (p : pool.ConnectionPool) (f g : TcpIpFlow) :
  key f = key g -> pool.Get p f = pool.Get p g.
Proof. unfold pool.Get. now intros ->. Qed.

Lemma delivered_dom (conn : nat) (m : PacketManifest) (i : Inquisitor) :
  dom (conns (delivered conn m i)) = dom (conns i).
Proof. unfold delivered; cbn. apply dom_alter_L. Qed.

(** The next manifest of a conversation whose connection the pool holds
    goes to that connection, and nothing is created for it. *)
Lemma onManifest_again (j : Inquisitor) (m m' : PacketManifest) (conn : nat) :
  pool.Get (pool_ j) (Flow m) = Some conn ->
  key (Flow m') = key (Flow m) ->
  exists k, onManifest m' j = Done Continue k
            /\ pool_ k = pool_ j
            /\ dom (conns k) = dom (conns j)
            /\ trace k = trace j ++ [EvReceivePacket conn m'].
Proof.
  intros HG Hk. exists (delivered conn m' j). split.
  - apply onManifest_known. now rewrite (Get_same_key _ _ _ Hk).
  - split; [reflexivity|]. split; [apply delivered_dom | reflexivity].
Qed.

Lemma last_delivery {A} (l1 l2 l3 : list A) (a b c : A) :
  last (l1 ++ l2 ++ l3 ++ [a; b; c]) = Some c.
Proof.
  change [a; b; c] with ([a; b] ++ [c]). rewrite !app_assoc. apply last_snoc.
Qed.

(** C9. A connection made for a new flow is put in the pool and started
    before the manifest that caused it is handed to it, in that order.
    Hence whenever the dispatcher hands a manifest over, the receiver is the
    connection the pool holds for the manifest's flow, and the next manifest
    of the conversation, in either direction, finds that connection through
    the pool: it is delivered there and no connection is created. *)
Theorem C9_registered_and_started_before_delivery (i : Inquisitor) (m : PacketManifest) :
  (pool.Has (pool_ i) (Flow m) = false ->
   MaxConcurrentConnections (options i) = 0
   \/ Z.of_nat (pool.Len (pool_ i)) < MaxConcurrentConnections (options i) ->
   exists conn j,
     conns i !! conn = None
     /\ onManifest m i = Done Continue j
     /\ trace j
        = trace i ++ [EvNewConnection conn]
            ++ (if LogPackets (options i)
                then [EvPacketLoggerStart conn (Flow m)] else [])
            ++ [EvPut (Flow m) conn; EvStart conn; EvReceivePacket conn m]
     /\ conns j !! conn = Some (mkConnection 0 true false false [m]))
  /\ exists j,
       onManifest m i = Done Continue j
       /\ (j = i
           \/ exists conn,
                pool.Get (pool_ j) (Flow m) = Some conn
                /\ last (trace j) = Some (EvReceivePacket conn m)
                /\ forall m', key (Flow m') = key (Flow m) ->
                     exists k, onManifest m' j = Done Continue k
                               /\ pool_ k = pool_ j
                               /\ dom (conns k) = dom (conns j)
                               /\ trace k = trace j ++ [EvReceivePacket conn m']).
Proof.
  assert (Hnew : pool.Has (pool_ i) (Flow m) = false ->
    MaxConcurrentConnections (options i) = 0
    \/ Z.of_nat (pool.Len (pool_ i)) < MaxConcurrentConnections (options i) ->
    let conn := fresh (dom (conns i)) in
    let j := delivered conn m (setUp (Flow m) i) in
    onManifest m i = Done Continue j
    /\ pool.Get (pool_ j) (Flow m) = Some conn
    /\ trace j
        = trace i ++ [EvNewConnection conn]
            ++ (if LogPackets (options i)
                then [EvPacketLoggerStart conn (Flow m)] else [])
            ++ [EvPut (Flow m) conn; EvStart conn; EvReceivePacket conn m]
    /\ conns j !! conn = Some (mkConnection 0 true false false [m])).
  { intros HH Hcap. cbn zeta. split; [now apply onManifest_new|].
    unfold delivered; cbn [pool_ conns trace emitted with_conns].
    rewrite setUp_pool, setUp_conns, setUp_trace. split; [|split].
    - unfold pool.Get, pool.Put; cbn. apply lookup_insert_eq.
    - rewrite <- !app_assoc. cbn. destruct (LogPackets (options i)); cbn;
        rewrite <- ?app_assoc; reflexivity.
    - now rewrite !lookup_alter_eq, lookup_insert_eq. }
  split.
  - intros HH Hcap. destruct (Hnew HH Hcap) as (H1 & _ & H3 & H4).
    exists (fresh (dom (conns i))), (delivered (fresh (dom (conns i))) m (setUp (Flow m) i)).
    split; [apply fresh_conn_new|]. split; [exact H1|]. split; assumption.
  - destruct (pool.Has (pool_ i) (Flow m)) eqn:HH.
    + destruct (Has_true_Get _ _ HH) as [conn HG].
      exists (delivered conn m i). split; [now apply onManifest_known|].
      right. exists conn. split; [exact HG|]. split.
      * unfold delivered; cbn. apply last_snoc.
      * intros m' Hk. now apply (onManifest_again _ m).
    + destruct (Z.eq_dec (MaxConcurrentConnections (options i)) 0) as [Hz|Hz].
      * destruct (Hnew eq_refl (or_introl Hz)) as (H1 & H2 & H3 & _).
        eexists. split; [exact H1|]. right. eexists. split; [exact H2|]. split.
        -- rewrite H3. apply last_delivery.
        -- intros m' Hk. now apply (onManifest_again _ m).
      * destruct (Z.lt_ge_cases (Z.of_nat (pool.Len (pool_ i)))
                                (MaxConcurrentConnections (options i))) as [Hlt|Hge].
        -- destruct (Hnew eq_refl (or_intror Hlt)) as (H1 & H2 & H3 & _).
           eexists. split; [exact H1|]. right. eexists. split; [exact H2|]. split.
           ++ rewrite H3. apply last_delivery.
           ++ intros m' Hk. now apply (onManifest_again _ m).
        -- exists i. split; [now apply onManifest_full | now left].
Qed.

Lemma C9_witness :
  exists conn j,
    conns (Fixture.started 0 100) !! conn = None
    /\ onManifest (Fixture.manifestOf Fixture.flow 1) (Fixture.started 0 100)
       = Done Continue j
    /\ last (trace j) = Some (EvReceivePacket conn (Fixture.manifestOf Fixture.flow 1))
    /\ conns j !! conn
       = Some (mkConnection 0 true false false [Fixture.manifestOf Fixture.flow 1]).
Proof.
  destruct (C9_registered_and_started_before_delivery
              (Fixture.started 0 100) (Fixture.manifestOf Fixture.flow 1)) as [H _].
  destruct H as (conn & j & H1 & H2 & H3 & H4).
  - vm_compute. reflexivity.
  - left. vm_compute. reflexivity.
  - exists conn, j. split; [exact H1|]. split; [exact H2|]. split; [|exact H4].
    rewrite H3. apply last_delivery.
Defined.

Lemma C1_witness :
  onManifest (Fixture.manifestOf Fixture.flow2 2)
    (Fixture.after [Fixture.manifestOf Fixture.flow 1] (Fixture.started 1 100))
  = Done Continue
      (Fixture.after [Fixture.manifestOf Fixture.flow 1] (Fixture.started 1 100)).
Proof.
  destruct (C1_full_pool_drops_new_flows
              (Fixture.after [Fixture.manifestOf Fixture.flow 1] (Fixture.started 1 100))
              (Fixture.manifestOf Fixture.flow2 2)) as [H _].
  destruct H as [H _].
  - vm_compute. reflexivity.
  - vm_compute. reflexivity.
  - vm_compute. discriminate.
  - exact H.
Defined.

Lemma C3_witness :
  Z.of_nat (length (pool.Connections (Legacy.connPool Fixture.legacy))) < 2 ^ 63
  /\ (Legacy.CloseOlderThan 10 Fixture.legacy).1 = 1.
Proof.
  assert (H : Z.of_nat (length (pool.Connections (Legacy.connPool Fixture.legacy)))
              < 2 ^ 63) by (vm_compute; reflexivity).
  split; [exact H|].
  destruct (C3_CloseOlderThan_exact 10 Fixture.legacy H) as (_ & _ & _ & Hn & _).
  rewrite Hn. vm_compute. reflexivity.
Defined.

(* --------------------------------------------------------------------- *)
(** ** One turn of the dispatcher *)

Lemma emitAll_trace (es : list Event) (i : Inquisitor) :
  trace (emitAll es i) = trace i ++ es.
Proof.
  revert i. induction es as [|e es IH]; intros i; cbn.
  - now rewrite app_nil_r.
  - unfold emitAll in IH. rewrite IH. cbn. now rewrite <- app_assoc.
Qed.

Lemma emitAll_frame (es : list Event) (i : Inquisitor) :
  options (emitAll es i) = options i
  /\ pool_ (emitAll es i) = pool_ i
  /\ conns (emitAll es i) = conns i
  /\ closeConnectionChan (emitAll es i) = closeConnectionChan i
  /\ capturing (emitAll es i) = capturing i
  /\ decoding (emitAll es i) = decoding i
  /\ dispatching (emitAll es i) = dispatching i
  /\ handleOpen (emitAll es i) = handleOpen i
  /\ pagerRunning (emitAll es i) = pagerRunning i
  /\ vars (emitAll es i) = vars i.
Proof.
  revert i. induction es as [|e es IH]; intros i; cbn; [repeat split|].
  apply (IH (emitted e i)).
Qed.

(** The state after [pool.CloseOlderThan(t)]. *)
Definition reaped (t : Z) (i : Inquisitor) : Inquisitor :=
  let old := List.filter (pool.seenBy (conns i) t) (pool.Connections (pool_ i)) in
  emitAll (map EvClose old) (with_conns (pool.closeEach old (conns i)) i).

Lemma pool_CloseOlderThan_eq (t : Z) (i : Inquisitor) :
  pool_CloseOlderThan t i
  = Done (Z.of_nat (length (List.filter (pool.seenBy (conns i) t)
                                        (pool.Connections (pool_ i)))))
         (reaped t i).
Proof. reflexivity. Qed.

Lemma wrap64_negate (d : Z) : 0 < d < 2 ^ 63 -> wrap64 (d * -1) = - d.
Proof. intros H. rewrite wrap64_id; unfold int64_range; lia. Qed.

Lemma onTick_eq (now : Z) (i : Inquisitor) :
  0 < TcpIdleTimeout (options i) < 2 ^ 63 ->
  let t := now - TcpIdleTimeout (options i) in
  let closed := Z.of_nat (length (List.filter (pool.seenBy (conns i) t)
                                              (pool.Connections (pool_ i)))) in
  onTick now i
  = Done Continue (if closed =? 0 then reaped t i
                   else emitted (EvLog (LogTimeoutClosed closed)) (reaped t i)).
Proof.
  intros Ht. cbn zeta. unfold onTick, bind, gets, tickerFires.
  destruct (Z.ltb_spec 0 (TcpIdleTimeout (options i))); [|lia].
  rewrite wrap64_negate by exact Ht. unfold Time_Add.
  replace (now + - TcpIdleTimeout (options i))
    with (now - TcpIdleTimeout (options i)) by lia.
  rewrite pool_CloseOlderThan_eq.
  now destruct (_ =? 0).
Qed.

Lemma reaped_frame (t : Z) (i : Inquisitor) :
  closeConnectionChan (reaped t i) = closeConnectionChan i
  /\ pool_ (reaped t i) = pool_ i
  /\ trace (reaped t i)
     = trace i ++ map EvClose (List.filter (pool.seenBy (conns i) t)
                                           (pool.Connections (pool_ i)))
  /\ conns (reaped t i)
     = pool.closeEach (List.filter (pool.seenBy (conns i) t)
                                   (pool.Connections (pool_ i))) (conns i).
Proof.
  unfold reaped. cbv zeta.
  set (old := List.filter _ _). set (i' := with_conns _ i).
  destruct (emitAll_frame (map EvClose old) i') as (_ & Hp & Hc & Hq & _).
  rewrite emitAll_trace. repeat split; assumption.
Qed.

(** What a turn's second [select] leaves alone, and that it only adds to
    the trace. *)
Lemma selected_frame (sel : Selected) (i j : Inquisitor) (l : Loop) :
  selected sel i = Done l j ->
  closeConnectionChan j = closeConnectionChan i
  /\ exists evs, trace j = trace i ++ evs.
Proof.
  destruct sel as [now | | m]; cbn [selected].
  - unfold onTick, bind, gets. destruct (tickerFires _); [|discriminate].
    rewrite pool_CloseOlderThan_eq.
    set (t := Time_Add now _).
    destruct (reaped_frame t i) as (Hq & _ & Ht & _).
    destruct (_ =? 0); unfold ret, log, emit, modify; intros [= <- <-].
    + split; [exact Hq|]. rewrite Ht. eauto.
    + split; [exact Hq|]. cbn [trace emitted]. rewrite Ht, <- app_assoc. eauto.
  - intros [= <- <-]. split; [reflexivity|]. exists []. now rewrite app_nil_r.
  - destruct (pool.Has (pool_ i) (Flow m)) eqn:HH.
    + destruct (Has_true_Get _ _ HH) as [conn HG].
      rewrite (onManifest_known _ _ _ HG). intros [= <- <-].
      split; [reflexivity|]. unfold delivered; cbn. eauto.
    + destruct (Z.eq_dec (MaxConcurrentConnections (options i)) 0) as [Hz|Hz];
        [|destruct (Z.lt_ge_cases (Z.of_nat (pool.Len (pool_ i)))
                                  (MaxConcurrentConnections (options i))) as [Hlt|Hge]].
      * rewrite (onManifest_new _ _ HH (or_introl Hz)). intros [= <- <-].
        unfold delivered; cbn [trace emitted with_conns closeConnectionChan].
        rewrite setUp_trace, <- !app_assoc.
        split; [apply setUp_closeChan | eauto].
      * rewrite (onManifest_new _ _ HH (or_intror Hlt)). intros [= <- <-].
        unfold delivered; cbn [trace emitted with_conns closeConnectionChan].
        rewrite setUp_trace, <- !app_assoc.
        split; [apply setUp_closeChan | eauto].
      * rewrite (onManifest_full _ _ HH Hz Hge). intros [= <- <-].
        split; [reflexivity|]. exists []. now rewrite app_nil_r.
Qed.

(** C6, as the dispatcher does it. A turn begins with one poll of the
    close-request channel that does not wait. With no connection waiting
    the turn is its second [select] alone. With connections waiting, the
    request of the first of them, and only that one, is received: the
    connection is stopped before the second [select] handles the tick, the
    stop signal or the manifest of the turn, so every event of that
    [select] comes after the stop; the other requests stay on the channel
    for later turns. *)
Theorem C6_one_close_request_before_select (i : Inquisitor) (sel : Selected) :
  match closeConnectionChan i with
  | [] => dispatchIteration sel i = selected sel i
  | conn :: rest =>
      exists i1,
        dispatchIteration sel i = selected sel i1
        /\ closeConnectionChan i1 = rest
        /\ pool_ i1 = pool_ i
        /\ trace i1 = trace i ++ [EvLog LogCloseRequest; EvStop conn]
        /\ conns i1 !! conn = set_stopped <$> conns i !! conn
        /\ (forall c, c <> conn -> conns i1 !! c = conns i !! c)
        /\ forall l j, dispatchIteration sel i = Done l j ->
             closeConnectionChan j = rest
             /\ exists evs,
                  trace j = trace i ++ [EvLog LogCloseRequest; EvStop conn] ++ evs
  end.
Proof.
  rewrite dispatchIteration_eq. unfold polled.
  destruct (closeConnectionChan i) as [|conn rest] eqn:Hq; [reflexivity|].
  eexists. split; [reflexivity|]. cbn.
  split; [reflexivity|]. split; [reflexivity|].
  split; [now rewrite <- app_assoc|].
  split; [apply lookup_alter_eq|].
  split; [intros c Hc; apply lookup_alter_ne; congruence|].
  intros l j Hj. apply selected_frame in Hj as [Hch [evs Hevs]].
  split; [exact Hch|]. exists evs. rewrite Hevs. cbn. now rewrite <- !app_assoc.
Qed.

(** C6, as it is stated, fails when two connections are waiting: the turn
    stops connection 0 only, and the manifest of that turn is handed to
    connection 1, whose request is still on the channel afterwards. *)
Lemma C6_counterexample :
  closeConnectionChan Fixture.twoRequests = [0%nat; 1%nat]
  /\ exists j,
       dispatchIteration (Manifest (Fixture.manifestOf Fixture.flow2 9))
         Fixture.twoRequests = Done Continue j
       /\ drop (length (trace Fixture.twoRequests)) (trace j)
          = [EvLog LogCloseRequest; EvStop 0;
             EvReceivePacket 1 (Fixture.manifestOf Fixture.flow2 9)]
       /\ closeConnectionChan j = [1%nat].
Proof.
  split; [vm_compute; reflexivity|].
  eexists. split; [vm_compute; reflexivity|].
  split; vm_compute; reflexivity.
Qed.

(* --------------------------------------------------------------------- *)
(** ** Idle connections *)

Lemma seenBy_alter_stopped (store : gmap nat Connection) (t : Z) (c d : nat) :
  pool.seenBy (alter set_stopped d store) t c = pool.seenBy store t c.
Proof.
  unfold pool.seenBy. rewrite lookup_alter.
  destruct (decide (d = c)) as [->|Hd]; [|reflexivity].
  now destruct (store !! c).
Qed.

Lemma seenBy_polled (i : Inquisitor) (t : Z) (c : nat) :
  pool.seenBy (conns (polled i)) t c = pool.seenBy (conns i) t c.
Proof.
  unfold polled. destruct (closeConnectionChan i); [reflexivity|].
  cbn. apply seenBy_alter_stopped.
Qed.

Lemma polled_lastSeen (i : Inquisitor) (c : nat) (conn : Connection) :
  conns i !! c = Some conn ->
  exists conn', conns (polled i) !! c = Some conn' /\ lastSeen conn' = lastSeen conn.
Proof.
  intros Hc. unfold polled. destruct (closeConnectionChan i) as [|d rest]; [eauto|].
  cbn. rewrite lookup_alter. destruct (decide (d = c)) as [->|Hd].
  - rewrite Hc. cbn. eauto.
  - eauto.
Qed.

Lemma polled_trace (i : Inquisitor) : exists evs, trace (polled i) = trace i ++ evs.
Proof.
  unfold polled. destruct (closeConnectionChan i).
  - exists []. now rewrite app_nil_r.
  - cbn. rewrite <- app_assoc. eauto.
Qed.

Lemma filter_ext_seenBy (f g : nat -> bool) (l : list nat) :
  (forall c, f c = g c) -> List.filter f l = List.filter g l.
Proof. intros H. apply filter_ext. exact H. Qed.

(** C5. A tick makes the dispatcher call [pool.CloseOlderThan] with the
    time of the tick minus [TcpIdleTimeout] (a ticker exists for a positive
    timeout only): closure is initiated on exactly the connections of the
    pool last seen at or before that instant, so on every connection of the
    pool that has been idle for longer than [TcpIdleTimeout]. *)
Theorem C5_tick_closes_idle_connections (i : Inquisitor) (now : Z) :
  0 < TcpIdleTimeout (options i) < 2 ^ 63 ->
  exists j evs,
    dispatchIteration (Tick now) i = Done Continue j
    /\ pool_ j = pool_ i
    /\ trace j = trace i ++ evs
    /\ (forall c, (EvClose c ∈ evs) <->
          (c ∈ pool.Connections (pool_ i))
          /\ exists conn, conns i !! c = Some conn
                          /\ lastSeen conn <= now - TcpIdleTimeout (options i))
    /\ forall c conn,
         c ∈ pool.Connections (pool_ i) ->
         conns i !! c = Some conn ->
         TcpIdleTimeout (options i) < now - lastSeen conn ->
         (EvClose c ∈ evs)
         /\ exists conn', conns j !! c = Some conn'
                          /\ closing conn' = true
                          /\ lastSeen conn' = lastSeen conn.
Proof.
  intros Ht. rewrite dispatchIteration_eq. cbn [selected].
  pose proof (onTick_eq now (polled i)) as Htick.
  rewrite polled_options, polled_pool in Htick. specialize (Htick Ht).
  cbn zeta in Htick.
  set (t := now - TcpIdleTimeout (options i)) in *.
  rewrite (filter_ext_seenBy _ (pool.seenBy (conns i) t) _ (seenBy_polled i t)) in Htick.
  set (old := List.filter (pool.seenBy (conns i) t) (pool.Connections (pool_ i))) in *.
  destruct (reaped_frame t (polled i)) as (_ & Hp & Htr & Hcs).
  rewrite polled_pool in Hp, Htr, Hcs.
  rewrite (filter_ext_seenBy _ (pool.seenBy (conns i) t) _ (seenBy_polled i t)) in Htr, Hcs.
  fold old in Htr, Hcs.
  destruct (polled_trace i) as [pre Hpre].
  assert (Hold : forall c, (c ∈ old) <->
            (c ∈ pool.Connections (pool_ i))
            /\ exists conn, conns i !! c = Some conn /\ lastSeen conn <= t).
  { intros c. unfold old. rewrite list_elem_of_In, filter_In, <- list_elem_of_In.
    unfold pool.seenBy. split.
    - intros [Hin Hs]. split; [exact Hin|].
      destruct (conns i !! c) as [conn|]; [|discriminate].
      exists conn. split; [reflexivity|]. now apply Z.leb_le.
    - intros [Hin (conn & -> & Hle)]. split; [exact Hin|]. now apply Z.leb_le. }
  assert (Hcl : forall evs' c, (forall d, EvClose d ∉ evs') ->
            (EvClose c ∈ pre ++ map EvClose old ++ evs') <-> (c ∈ old) \/ (EvClose c ∈ pre)).
  { intros evs' c Hno. rewrite !elem_of_app, list_elem_of_fmap. split.
    - intros [H|[(d & [= <-] & Hd)|H]]; [now right | now left | now apply Hno in H].
    - intros [H|H]; [right; left; eauto | now left]. }
  assert (Hpre_no : forall d, EvClose d ∉ pre).
  { intros d. revert Hpre. unfold polled.
    destruct (closeConnectionChan i); cbn.
    - intros Hpre. assert (pre = []) as ->.
      { apply (app_inv_head (trace i)). now rewrite app_nil_r. }
      apply not_elem_of_nil.
    - rewrite <- app_assoc. intros Hpre%app_inv_head. subst pre. cbn.
      rewrite !elem_of_cons, elem_of_nil. intros [?|[?|[]]]; discriminate. }
  assert (Hmarked : forall c conn, c ∈ old -> conns i !! c = Some conn ->
            exists conn', pool.closeEach old (conns (polled i)) !! c = Some conn'
                          /\ closing conn' = true /\ lastSeen conn' = lastSeen conn).
  { intros c conn Hin Hc. rewrite closeEach_lookup, bool_decide_true by exact Hin.
    destruct (polled_lastSeen i c conn Hc) as (conn' & -> & Hl).
    exists (set_closing conn'). cbn. auto. }
  destruct (Z.of_nat (length old) =? 0).
  - exists (reaped t (polled i)), (pre ++ map EvClose old ++ []).
    split; [exact Htick|]. split; [exact Hp|].
    split; [rewrite Htr, Hpre, app_nil_r, <- app_assoc; reflexivity|].
    split.
    + intros c. rewrite (Hcl [] c) by (intros d; apply not_elem_of_nil).
      rewrite <- Hold. split; [intros [H|H]; [exact H | now apply Hpre_no in H] | now left].
    + intros c conn Hin Hc Hidle.
      assert (Ho : c ∈ old) by (apply Hold; split; [exact Hin|]; exists conn; split; [exact Hc | unfold t; lia]).
      split.
      * apply (Hcl [] c); [intros d; apply not_elem_of_nil | now left].
      * rewrite Hcs. now apply Hmarked.
  - exists (emitted (EvLog (LogTimeoutClosed (Z.of_nat (length old)))) (reaped t (polled i))),
           (pre ++ map EvClose old ++ [EvLog (LogTimeoutClosed (Z.of_nat (length old)))]).
    assert (Hlog : forall d, EvClose d ∉ [EvLog (LogTimeoutClosed (Z.of_nat (length old)))]).
    { intros d. rewrite elem_of_cons, elem_of_nil. intros [?|[]]; discriminate. }
    split; [exact Htick|]. split; [exact Hp|].
    split; [cbn [trace emitted]; rewrite Htr, Hpre, <- !app_assoc; reflexivity|].
    split.
    + intros c. rewrite (Hcl _ c Hlog).
      rewrite <- Hold. split; [intros [H|H]; [exact H | now apply Hpre_no in H] | now left].
    + intros c conn Hin Hc Hidle.
      assert (Ho : c ∈ old) by (apply Hold; split; [exact Hin|]; exists conn; split; [exact Hc | unfold t; lia]).
      split.
      * apply (Hcl _ c Hlog). now left.
      * cbn [conns emitted]. rewrite Hcs. now apply Hmarked.
Qed.

Lemma C5_witness :
  exists j evs,
    dispatchIteration (Tick 1000)
      (Fixture.after [Fixture.manifestOf Fixture.flow 1] (Fixture.started 0 100))
    = Done Continue j
    /\ trace j
       = trace (Fixture.after [Fixture.manifestOf Fixture.flow 1] (Fixture.started 0 100))
         ++ evs
    /\ EvClose 0 ∈ evs.
Proof.
  destruct (C5_tick_closes_idle_connections
              (Fixture.after [Fixture.manifestOf Fixture.flow 1] (Fixture.started 0 100))
              1000) as (j & evs & H1 & _ & H3 & _ & H5).
  - vm_compute. split; reflexivity.
  - exists j, evs. split; [exact H1|]. split; [exact H3|].
    apply (H5 0%nat
             (mkConnection 0 true false false [Fixture.manifestOf Fixture.flow 1])).
    + rewrite list_elem_of_In. vm_compute. left. reflexivity.
    + vm_compute. reflexivity.
    + vm_compute. reflexivity.
Defined.

(* --------------------------------------------------------------------- *)
(** ** Capture, decode, shutdown *)

Section Pipeline.

Context {decEthernet : DecodingLayer Ethernet}.
Context {decIPv4 : DecodingLayer IPv4}.
Context {decTCP : DecodingLayer TCP}.

(** The parser's loop ends by itself: the fuel [DecodeLayers] gives it is
    never used up. *)
Lemma decodeLoop_fuel (fuel : nat) :
  forall (typ : LayerType) (data : list Byte.byte) (v : DecoderVars),
    (length data < fuel)%nat ->
    (decodeLoop fuel typ data v).2 <> Some OutOfFuel.
Proof.
  induction fuel as [|fuel IH]; intros typ data v Hlen; [lia|].
  destruct data as [|b data]; [discriminate|].
  cbn [decodeLoop].
  assert (Hne : b :: data <> []) by discriminate.
  destruct typ; try discriminate.
  - destruct (DecodeFromBytes (b :: data)) as [l|] eqn:Hd; [|discriminate].
    apply IH. pose proof (LayerPayload_shorter _ _ Hne Hd). lia.
  - destruct (DecodeFromBytes (b :: data)) as [l|] eqn:Hd; [|discriminate].
    apply IH. pose proof (LayerPayload_shorter _ _ Hne Hd). lia.
  - destruct (DecodeFromBytes (b :: data)) as [l|] eqn:Hd; [|discriminate].
    apply IH. pose proof (LayerPayload_shorter _ _ Hne Hd). lia.
  - destruct fuel; discriminate.
Qed.

Lemma DecodeLayers_total (data : list Byte.byte) (v : DecoderVars) :
  (DecodeLayers data v).2 <> Some OutOfFuel.
Proof. unfold DecodeLayers. apply decodeLoop_fuel. lia. Qed.

(** Whether the parser fails, and what it leaves in [payload], depend on
    the bytes and on [payload] before, not on the other variables. *)
Lemma decodeLoop_payload_indep (fuel : nat) :
  forall (typ : LayerType) (data : list Byte.byte) (v1 v2 : DecoderVars),
    payload v1 = payload v2 ->
    (decodeLoop fuel typ data v1).2 = (decodeLoop fuel typ data v2).2
    /\ payload (decodeLoop fuel typ data v1).1 = payload (decodeLoop fuel typ data v2).1.
Proof.
  induction fuel as [|fuel IH]; intros typ data v1 v2 Hp;
    destruct data as [|b data]; cbn [decodeLoop]; try (split; [reflexivity | exact Hp]).
  destruct typ; try (split; [reflexivity | exact Hp]).
  - destruct (DecodeFromBytes (b :: data)) as [l|];
      [apply IH; exact Hp | split; [reflexivity | exact Hp]].
  - destruct (DecodeFromBytes (b :: data)) as [l|];
      [apply IH; exact Hp | split; [reflexivity | exact Hp]].
  - destruct (DecodeFromBytes (b :: data)) as [l|];
      [apply IH; exact Hp | split; [reflexivity | exact Hp]].
  - apply IH. reflexivity.
Qed.

(** [payload] is written by the payload layer only, and that layer is the
    last one decoded when it is decoded at all. *)
Lemma decodeLoop_payload_written (fuel : nat) :
  forall (typ : LayerType) (data : list Byte.byte) (v : DecoderVars),
    payload (decodeLoop fuel typ data v).1 = payload v
    \/ last (decoded (decodeLoop fuel typ data v).1) = Some LayerTypePayload.
Proof.
  induction fuel as [|fuel IH]; intros typ data v;
    destruct data as [|b data]; cbn [decodeLoop]; try (left; reflexivity).
  destruct typ; try (left; reflexivity).
  - destruct (DecodeFromBytes (b :: data)) as [l|]; [|left; reflexivity].
    destruct (IH (NextLayerType l) (LayerPayload l) (appendDecoded LayerTypeEthernet (set_eth l v)))
      as [H|H]; [left; exact H | right; exact H].
  - destruct (DecodeFromBytes (b :: data)) as [l|]; [|left; reflexivity].
    destruct (IH (NextLayerType l) (LayerPayload l) (appendDecoded LayerTypeIPv4 (set_ip l v)))
      as [H|H]; [left; exact H | right; exact H].
  - destruct (DecodeFromBytes (b :: data)) as [l|]; [|left; reflexivity].
    destruct (IH (NextLayerType l) (LayerPayload l) (appendDecoded LayerTypeTCP (set_tcp l v)))
      as [H|H]; [left; exact H | right; exact H].
  - right. destruct fuel; cbn; apply last_snoc.
Qed.

(** When the parser succeeds with TCP as the last layer decoded, the TCP
    layer carried nothing. *)
Lemma decodeLoop_ends_on_tcp (fuel : nat) :
  forall (typ : LayerType) (data : list Byte.byte) (v v' : DecoderVars),
    decodeLoop fuel typ data v = (v', None) ->
    (v' = v /\ data = [])
    \/ (last (decoded v') = Some LayerTypeTCP -> LayerPayload (tcp v') = []).
Proof.
  induction fuel as [|fuel IH]; intros typ data v v';
    destruct data as [|b data]; cbn [decodeLoop];
    try (intros [= <-]; left; split; reflexivity); try discriminate.
  destruct typ; try discriminate.
  - destruct (DecodeFromBytes (b :: data)) as [l|]; [|discriminate].
    intros H. apply IH in H as [[-> _]|H]; [|right; exact H].
    right. cbn. rewrite last_snoc. discriminate.
  - destruct (DecodeFromBytes (b :: data)) as [l|]; [|discriminate].
    intros H. apply IH in H as [[-> _]|H]; [|right; exact H].
    right. cbn. rewrite last_snoc. discriminate.
  - destruct (DecodeFromBytes (b :: data)) as [l|]; [|discriminate].
    intros H. apply IH in H as [[-> Hd]|H]; [|right; exact H].
    right. intros _. exact Hd.
  - intros H. apply IH in H as [[-> _]|H]; [|right; exact H].
    right. cbn. rewrite last_snoc. discriminate.
Qed.

Lemma decodeOne_err (p : TimedRawPacket) (v v' : DecoderVars) (e : DecodeError) :
  DecodeLayers (raw_RawPacket p) (set_payload [] v) = (v', Some e) ->
  decodeOne p v = (v', None).
Proof. unfold decodeOne. now intros ->. Qed.

Lemma decodeOne_ok (p : TimedRawPacket) (v v' : DecoderVars) :
  DecodeLayers (raw_RawPacket p) (set_payload [] v) = (v', None) ->
  decodeOne p v
  = (v', Some (mkPacketManifest (raw_Timestamp p)
                 (NewTcpIpFlowFromFlows (NetworkFlow (ip v')) (TransportFlow (tcp v')))
                 (raw_RawPacket p) (ip v') (tcp v') (payload v'))).
Proof. unfold decodeOne. now intros ->. Qed.

End Pipeline.

(** The stages [Stop] signalled, in the order of the signals. *)
Definition stopSignals (tr : list Event) : list Stage :=
  omap (fun e => match e with EvStopSignal st => Some st | _ => None end) tr.

Section PipelineStages.

Context {decEthernet : DecodingLayer Ethernet}.
Context {decIPv4 : DecodingLayer IPv4}.
Context {decTCP : DecodingLayer TCP}.

(** C8, as the code does it. A raw packet on which the parser returns an
    error is dropped: the decoder, having received it from the capture loop,
    sends no manifest and is back at its [select]. Nothing of the inquisitor
    changes but the decoder's own variables, which keep what the parser
    wrote before it failed: pool, connections, close requests, trace and
    options are as before, every stage is where it was, and the next raw
    packet is parsed, from those variables. *)
Theorem C8_undecodable_packet_dropped (s : Goroutines.State) (t : TimedRawPacket)
    (v' : DecoderVars) (e : DecodeError) :
  Goroutines.captureHolds s = Some t ->
  Goroutines.atSelect Decode s = true ->
  DecodeLayers (raw_RawPacket t) (set_payload [] (vars (Goroutines.inquisitor s)))
  = (v', Some e) ->
  exists s',
    Goroutines.step Goroutines.DecodePacketChan s = Goroutines.Next s'
    /\ Goroutines.decoderHolds s' = None
    /\ Goroutines.captureHolds s' = None
    /\ Goroutines.readerAt s' = Goroutines.readerAt s
    /\ Goroutines.inquisitor s' = with_vars v' (Goroutines.inquisitor s)
    /\ pool_ (Goroutines.inquisitor s') = pool_ (Goroutines.inquisitor s)
    /\ conns (Goroutines.inquisitor s') = conns (Goroutines.inquisitor s)
    /\ closeConnectionChan (Goroutines.inquisitor s')
       = closeConnectionChan (Goroutines.inquisitor s)
    /\ trace (Goroutines.inquisitor s') = trace (Goroutines.inquisitor s)
    /\ options (Goroutines.inquisitor s') = options (Goroutines.inquisitor s)
    /\ (forall st, running st (Goroutines.inquisitor s')
                   = running st (Goroutines.inquisitor s))
    /\ Goroutines.atSelect Decode s' = true
    /\ forall t2,
         Goroutines.step Goroutines.DecodePacketChan
           (Goroutines.mkState (Goroutines.inquisitor s') (Goroutines.readerAt s')
              (Some t2) None)
         = Goroutines.Next
             (Goroutines.mkState
                (with_vars (decodeOne t2 v').1 (Goroutines.inquisitor s'))
                (Goroutines.readerAt s') None (decodeOne t2 v').2).
Proof.
  intros Hcap Hsel He.
  assert (Hone : decodeOne t (vars (Goroutines.inquisitor s)) = (v', None))
    by (eapply decodeOne_err; exact He).
  assert (Hdec : decoding (Goroutines.inquisitor s) = true).
  { unfold Goroutines.atSelect in Hsel. cbn [running] in Hsel.
    now apply andb_true_iff in Hsel as [-> _]. }
  exists (Goroutines.mkState (with_vars v' (Goroutines.inquisitor s))
            (Goroutines.readerAt s) None None).
  split.
  { unfold Goroutines.step. rewrite Hcap, Hsel, Hone. reflexivity. }
  cbn [Goroutines.decoderHolds Goroutines.captureHolds Goroutines.readerAt
       Goroutines.inquisitor].
  do 9 (split; [reflexivity|]).
  split; [intros []; reflexivity|].
  split.
  { unfold Goroutines.atSelect.
    cbn [running Goroutines.inquisitor Goroutines.decoderHolds with_vars decoding
         Goroutines.holdsNothing].
    now rewrite Hdec. }
  intros t2. unfold Goroutines.step, Goroutines.atSelect.
  cbn [Goroutines.captureHolds Goroutines.decoderHolds Goroutines.inquisitor
       Goroutines.readerAt running with_vars decoding vars Goroutines.holdsNothing].
  rewrite Hdec. cbn [andb]. now destruct (decodeOne t2 v').
Qed.

(** C10. [payload] is emptied before each raw packet is parsed, so the
    [Payload] of a manifest does not depend on what earlier packets left in
    the decoder's variables: it is the same from any two states of them, in
    particular after any earlier packet. It is what [payload] holds after
    the parse: the bytes the payload layer was handed if that layer was
    decoded, and empty otherwise; so a segment whose TCP layer is the last
    layer decoded, carrying nothing, gets an empty [Payload]. *)
Theorem C10_payload_from_this_packet_only (p : TimedRawPacket) (v1 v2 : DecoderVars) :
  Payload <$> (decodeOne p v1).2 = Payload <$> (decodeOne p v2).2
  /\ (forall p0, Payload <$> (decodeOne p (decodeOne p0 v1).1).2
                 = Payload <$> (decodeOne p v1).2)
  /\ forall v' m,
       decodeOne p v1 = (v', Some m) ->
       Payload m = payload v'
       /\ (Payload m = [] \/ last (decoded v') = Some LayerTypePayload)
       /\ (last (decoded v') = Some LayerTypeTCP ->
           Payload m = [] /\ LayerPayload (tcp v') = []).
Proof.
  assert (Hindep : forall va vb,
            Payload <$> (decodeOne p va).2 = Payload <$> (decodeOne p vb).2).
  { intros va vb. unfold decodeOne, DecodeLayers.
    destruct (decodeLoop_payload_indep (S (length (raw_RawPacket p))) LayerTypeEthernet
                (raw_RawPacket p) (set_decoded [] (set_payload [] va))
                (set_decoded [] (set_payload [] vb)) eq_refl) as [He Hp].
    destruct (decodeLoop _ _ _ (set_decoded [] (set_payload [] va))) as [wa ea].
    destruct (decodeLoop _ _ _ (set_decoded [] (set_payload [] vb))) as [wb eb].
    cbn in He, Hp. subst eb. destruct ea; cbn; [reflexivity | now rewrite Hp]. }
  split; [apply Hindep|]. split; [intros p0; apply Hindep|].
  intros v' m. unfold decodeOne, DecodeLayers.
  pose proof (decodeLoop_payload_written (S (length (raw_RawPacket p))) LayerTypeEthernet
                (raw_RawPacket p) (set_decoded [] (set_payload [] v1))) as Hw.
  pose proof (decodeLoop_ends_on_tcp (S (length (raw_RawPacket p))) LayerTypeEthernet
                (raw_RawPacket p) (set_decoded [] (set_payload [] v1))) as Ht.
  destruct (decodeLoop _ _ _ _) as [w err]. cbn [fst] in Hw.
  destruct err; [discriminate|]. intros [= <- <-]. cbn [Payload].
  cbn [payload set_decoded set_payload] in Hw.
  split; [reflexivity|]. split; [exact Hw|].
  intros Hlast. split.
  - destruct Hw as [Hw|Hw]; [exact Hw | congruence].
  - destruct (Ht w eq_refl) as [[-> _]|Htcp]; [discriminate | now apply Htcp].
Qed.

(** The state after [Stop()]. *)
Definition shutDown (i : Inquisitor) : Inquisitor :=
  let i := with_running Dispatch false (emitted (EvStopSignal Dispatch) i) in
  let i := with_running Decode false (emitted (EvStopSignal Decode) i) in
  let i := with_running Capture false (emitted (EvStopSignal Capture) i) in
  let i := emitAll (EvCloseAllConnections :: map EvClose (pool.Connections (pool_ i)))
             (with_conns (pool.closeEach (pool.Connections (pool_ i)) (conns i)) i) in
  let i := emitted EvHandleClose (with_handleOpen false i) in
  emitted EvPagerStop (with_pagerRunning false i).

Lemma Stop_eq (i : Inquisitor) :
  capturing i = true -> decoding i = true -> dispatching i = true ->
  Stop i = Done tt (shutDown i).
Proof.
  intros Hc Hd Hp.
  unfold Stop, shutDown, signalStop, bind, gets, emit, modify,
    pool_CloseAllConnections, pool.CloseAllConnections.
  cbn [running]. rewrite Hp.
  cbn [running with_running emitted capturing decoding dispatching]. rewrite Hd.
  cbn [running with_running emitted capturing decoding dispatching]. rewrite Hc.
  reflexivity.
Qed.


(** The first [select] of a turn signals no stage and leaves the stages,
    the handle and the pager as they are. *)
Lemma stopSignals_app (l1 l2 : list Event) :
  stopSignals (l1 ++ l2) = stopSignals l1 ++ stopSignals l2.
Proof. unfold stopSignals. apply omap_app. Qed.

Lemma polled_stages (i : Inquisitor) :
  capturing (polled i) = capturing i
  /\ decoding (polled i) = decoding i
  /\ dispatching (polled i) = dispatching i
  /\ handleOpen (polled i) = handleOpen i
  /\ pagerRunning (polled i) = pagerRunning i
  /\ vars (polled i) = vars i
  /\ stopSignals (trace (polled i)) = stopSignals (trace i).
Proof.
  unfold polled. destruct (closeConnectionChan i) as [|c rest]; [repeat split|].
  cbn [capturing decoding dispatching handleOpen pagerRunning vars trace emitted
       with_conns with_closeChan].
  do 6 (split; [reflexivity|]).
  rewrite <- app_assoc, stopSignals_app. cbn. now rewrite app_nil_r.
Qed.

(** C4 fails on the code when a packet is on its way. The reading
    goroutine has handed a packet on, the decoder has parsed it and stands
    at its send to the dispatcher; the next read returns EOF and [Stop]
    sends its first signal, which goes to the dispatcher, not to the
    capture loop. If the dispatcher takes that signal rather than the
    manifest, nobody is left to take the manifest: the decoder never comes
    back to its [select], so the second send of [Stop] is never received.
    No goroutine can move any more: the decoder and the capture loop have
    not stopped, no connection has been closed, the handle is open and the
    pager runs. *)
Theorem C4_EOF_with_a_packet_in_flight_hangs (i : Inquisitor)
    (rawPacket : list Byte.byte) (timestamp : Z) (v' : DecoderVars) :
  capturing i = true -> decoding i = true -> dispatching i = true ->
  DecodeLayers rawPacket (set_payload [] (vars i)) = (v', None) ->
  exists s,
    Goroutines.run
      [Goroutines.ReadPacketData (ReadData rawPacket timestamp);
       Goroutines.Tchan;
       Goroutines.DecodePacketChan;
       Goroutines.ReadPacketData ReadEOF;
       Goroutines.StopChan]
      (Goroutines.idle i)
    = Goroutines.Next s
    /\ Goroutines.readerAt s = Goroutines.InStop Decode
    /\ Goroutines.captureHolds s = None
    /\ Goroutines.decoderHolds s
       = Some (mkPacketManifest timestamp
                 (NewTcpIpFlowFromFlows (NetworkFlow (ip v')) (TransportFlow (tcp v')))
                 rawPacket (ip v') (tcp v') (payload v'))
    /\ stopSignals (trace (Goroutines.inquisitor s)) = stopSignals (trace i) ++ [Dispatch]
    /\ dispatching (Goroutines.inquisitor s) = false
    /\ decoding (Goroutines.inquisitor s) = true
    /\ capturing (Goroutines.inquisitor s) = true
    /\ handleOpen (Goroutines.inquisitor s) = handleOpen i
    /\ pagerRunning (Goroutines.inquisitor s) = pagerRunning i
    /\ pool_ (Goroutines.inquisitor s) = pool_ i
    /\ Goroutines.deadlocked s.
Proof.
  intros Hc Hd Hp He.
  pose proof (decodeOne_ok (mkTimedRawPacket timestamp rawPacket) (vars i) v' He) as Hone.
  cbn [raw_Timestamp raw_RawPacket] in Hone.
  set (m := mkPacketManifest _ _ _ _ _ _) in *.
  set (i1 := emitted (EvLog LogEOF) (with_vars v' i)).
  destruct (polled_stages i1) as (Pc & Pd & Pp & Ph & Pg & _ & Ps).
  change (capturing i1) with (capturing i) in Pc.
  change (decoding i1) with (decoding i) in Pd.
  change (dispatching i1) with (dispatching i) in Pp.
  change (handleOpen i1) with (handleOpen i) in Ph.
  change (pagerRunning i1) with (pagerRunning i) in Pg.
  assert (Ps' : stopSignals (trace (polled i1)) = stopSignals (trace i)).
  { rewrite Ps. unfold i1. cbn [trace emitted with_vars].
    rewrite stopSignals_app. cbn. now rewrite app_nil_r. }
  pose proof (polled_pool i1) as Ppool. change (pool_ i1) with (pool_ i) in Ppool.
  exists (Goroutines.mkState
            (with_running Dispatch false (emitted (EvStopSignal Dispatch) (polled i1)))
            (Goroutines.InStop Decode) None (Some m)).
  split.
  { cbn [Goroutines.run Goroutines.step Goroutines.idle Goroutines.readerAt
         Goroutines.inquisitor Goroutines.captureHolds Goroutines.decoderHolds].
    unfold Goroutines.atSelect at 1.
    cbn [running Goroutines.inquisitor Goroutines.captureHolds Goroutines.holdsNothing].
    rewrite Hc. cbn [andb].
    cbn [Goroutines.step Goroutines.readerAt Goroutines.inquisitor
         Goroutines.captureHolds Goroutines.decoderHolds].
    unfold Goroutines.atSelect at 1.
    cbn [running Goroutines.inquisitor Goroutines.decoderHolds Goroutines.holdsNothing].
    rewrite Hd, Hone. cbn [andb].
    cbn [Goroutines.step Goroutines.readerAt Goroutines.inquisitor
         Goroutines.captureHolds Goroutines.decoderHolds].
    change (emitted (EvLog LogEOF) (with_vars v' i)) with i1.
    unfold Goroutines.atSelect. cbn [running Goroutines.inquisitor].
    change (dispatching i1) with (dispatching i). rewrite Hp. cbn [andb].
    unfold Goroutines.after, bind. rewrite dispatchIteration_eq. cbn [selected].
    unfold ret, signalStop, bind, gets, emit, modify. cbn [running].
    rewrite Pp, Hp. reflexivity. }
  clearbody i1.
  cbn [Goroutines.readerAt Goroutines.inquisitor Goroutines.captureHolds
       Goroutines.decoderHolds trace capturing decoding dispatching handleOpen
       pagerRunning pool_ with_running emitted].
  do 3 (split; [reflexivity|]).
  split; [rewrite stopSignals_app, Ps'; reflexivity|].
  split; [reflexivity|].
  split; [now rewrite Pd|]. split; [now rewrite Pc|].
  split; [exact Ph|]. split; [exact Pg|]. split; [exact Ppool|].
  intros mv. destruct mv; try reflexivity.
  unfold Goroutines.step, Goroutines.atSelect.
  cbn [Goroutines.readerAt Goroutines.decoderHolds Goroutines.holdsNothing].
  now rewrite andb_false_r.
Qed.


End PipelineStages.

Abbreviation fixtureStep :=
  (Goroutines.step (decEthernet := Fixture.decEthernet) (decIPv4 := Fixture.decIPv4)
     (decTCP := Fixture.decTCP)).
Abbreviation fixtureRun :=
  (Goroutines.run (decEthernet := Fixture.decEthernet) (decIPv4 := Fixture.decIPv4)
     (decTCP := Fixture.decTCP)).
Abbreviation fixtureDecodeOne :=
  (decodeOne (decEthernet := Fixture.decEthernet) (decIPv4 := Fixture.decIPv4)
     (decTCP := Fixture.decTCP)).
Abbreviation fixtureDecodeLayers :=
  (DecodeLayers (decEthernet := Fixture.decEthernet) (decIPv4 := Fixture.decIPv4)
     (decTCP := Fixture.decTCP)).

(** A capture of one TCP segment: the segment is read and parsed, the next
    read returns EOF, and the dispatcher takes the stop signal. *)
Lemma C4_witness :
  exists s,
    fixtureRun
      [Goroutines.ReadPacketData (ReadData (Fixture.frame Fixture.hello) 7);
       Goroutines.Tchan;
       Goroutines.DecodePacketChan;
       Goroutines.ReadPacketData ReadEOF;
       Goroutines.StopChan]
      (Goroutines.idle (Fixture.started 0 100))
    = Goroutines.Next s
    /\ Goroutines.readerAt s = Goroutines.InStop Decode
    /\ stopSignals (trace (Goroutines.inquisitor s)) = [Dispatch]
    /\ decoding (Goroutines.inquisitor s) = true
    /\ capturing (Goroutines.inquisitor s) = true
    /\ handleOpen (Goroutines.inquisitor s) = true
    /\ pagerRunning (Goroutines.inquisitor s) = true
    /\ Goroutines.deadlocked (decEthernet := Fixture.decEthernet)
         (decIPv4 := Fixture.decIPv4) (decTCP := Fixture.decTCP) s.
Proof.
  destruct (C4_EOF_with_a_packet_in_flight_hangs
              (decEthernet := Fixture.decEthernet) (decIPv4 := Fixture.decIPv4)
              (decTCP := Fixture.decTCP)
              (Fixture.started 0 100) (Fixture.frame Fixture.hello) 7
              (fixtureDecodeLayers (Fixture.frame Fixture.hello)
                 (set_payload [] (vars (Fixture.started 0 100)))).1)
    as (s & H1 & H2 & _ & _ & H5 & _ & H7 & H8 & H9 & H10 & _ & H12).
  - vm_compute. reflexivity.
  - vm_compute. reflexivity.
  - vm_compute. reflexivity.
  - vm_compute. reflexivity.
  - exists s. split; [exact H1|]. split; [exact H2|].
    split; [exact H5|]. split; [exact H7|]. split; [exact H8|].
    split; [exact H9|]. split; [exact H10 | exact H12].
Defined.

Lemma C8_witness :
  exists s',
    fixtureStep Goroutines.DecodePacketChan
      (Goroutines.mkState (Fixture.started 0 100) Goroutines.AtRead
         (Some (mkTimedRawPacket 7 Fixture.arpFrame)) None)
    = Goroutines.Next s'
    /\ Goroutines.decoderHolds s' = None
    /\ trace (Goroutines.inquisitor s') = trace (Fixture.started 0 100).
Proof.
  destruct (C8_undecodable_packet_dropped
              (decEthernet := Fixture.decEthernet) (decIPv4 := Fixture.decIPv4)
              (decTCP := Fixture.decTCP)
              (Goroutines.mkState (Fixture.started 0 100) Goroutines.AtRead
                 (Some (mkTimedRawPacket 7 Fixture.arpFrame)) None)
              (mkTimedRawPacket 7 Fixture.arpFrame)
              (fixtureDecodeLayers Fixture.arpFrame
                 (set_payload [] (vars (Fixture.started 0 100)))).1
              (UnsupportedLayerType (LayerTypeOther 2054)))
    as (s' & H1 & H2 & _ & _ & _ & _ & _ & _ & H9 & _).
  - reflexivity.
  - vm_compute. reflexivity.
  - vm_compute. reflexivity.
  - exists s'. split; [exact H1|]. split; [exact H2 | exact H9].
Defined.

(** C8, as it is stated, fails: a packet that is dropped does change
    state. The parser fails on a UDP datagram at its third layer, after it
    has written the datagram's IPv4 header to [ip]. The next frame, cut
    after its Ethernet header, parses without error, and its manifest goes
    out with the addresses of the dropped datagram: the pool then tracks a
    flow it would not have tracked had the datagram not been read. *)
Lemma C8_counterexample :
  exists s1 sA sB,
    fixtureStep Goroutines.DecodePacketChan
      (Goroutines.mkState (Fixture.started 0 100) Goroutines.AtRead
         (Some (mkTimedRawPacket 7 Fixture.udpFrame)) None)
    = Goroutines.Next s1
    /\ Goroutines.decoderHolds s1 = None
    /\ Goroutines.inquisitor s1 <> Fixture.started 0 100
    /\ SrcIP (ip (vars (Goroutines.inquisitor s1))) = 151587081%N
    /\ SrcIP (ip (vars (Fixture.started 0 100))) = 0%N
    /\ fixtureRun
         [Goroutines.ReadPacketData (ReadData Fixture.ethernetOnly 8);
          Goroutines.Tchan; Goroutines.DecodePacketChan; Goroutines.DispatchPacketChan] s1
       = Goroutines.Next sA
    /\ fixtureRun
         [Goroutines.ReadPacketData (ReadData Fixture.ethernetOnly 8);
          Goroutines.Tchan; Goroutines.DecodePacketChan; Goroutines.DispatchPacketChan]
         (Goroutines.idle (Fixture.started 0 100))
       = Goroutines.Next sB
    /\ pool.Has (pool_ (Goroutines.inquisitor sA)) Fixture.udpFlow = true
    /\ pool.Has (pool_ (Goroutines.inquisitor sB)) Fixture.udpFlow = false.
Proof.
  eexists. eexists. eexists.
  split; [vm_compute; reflexivity|].
  split; [reflexivity|].
  assert (H1 : SrcIP (ip (vars (Fixture.started 0 100))) = 0%N)
    by (vm_compute; reflexivity).
  split.
  { intros H. rewrite <- H in H1. vm_compute in H1. discriminate. }
  split; [vm_compute; reflexivity|].
  split; [exact H1|].
  split; [vm_compute; reflexivity|].
  split; [vm_compute; reflexivity|].
  split; vm_compute; reflexivity.
Qed.

(** C10, as it is stated, fails: only [payload] is reset. After a segment
    from 1.2.3.4:1 to 2.3.4.5:2 carrying "hello", a frame cut after its
    IPv4 header (5.5.5.5 to 6.6.6.6) parses without error, and its manifest
    holds the TCP header of the segment before: its ports are in the flow,
    and the bytes of "hello" are in the TCP layer, none of which are among
    the bytes of the frame. Read first, the same frame gives another
    manifest. *)
Lemma C10_counterexample :
  exists m,
    (fixtureDecodeOne (mkTimedRawPacket 8 Fixture.ipv4Only)
       (fixtureDecodeOne (mkTimedRawPacket 7 (Fixture.frame Fixture.hello))
          Fixture.zeroVars).1).2
    = Some m
    /\ (fixtureDecodeOne (mkTimedRawPacket 8 Fixture.ipv4Only) Fixture.zeroVars).2
       <> Some m
    /\ RawPacket m = Fixture.ipv4Only
    /\ Flow m = NewTcpIpFlowFromFlows (mkFlow 84215045 101058054) (mkFlow 1 2)
    /\ SrcPort (TCP_ m) = 1%N /\ DstPort (TCP_ m) = 2%N
    /\ base_Payload (tcp_BaseLayer (TCP_ m)) = Fixture.hello
    /\ Payload m = [].
Proof.
  eexists. split; [vm_compute; reflexivity|].
  split; [vm_compute; discriminate|].
  repeat split; vm_compute; reflexivity.
Qed.

(** After a frame that carried "hello", a frame of the same conversation
    with nothing after its TCP header gets an empty [Payload]. *)
Lemma C10_witness :
  Payload <$> (decodeOne (decEthernet := Fixture.decEthernet)
                 (decIPv4 := Fixture.decIPv4) (decTCP := Fixture.decTCP)
                 (mkTimedRawPacket 8 (Fixture.frame []))
                 (decodeOne (decEthernet := Fixture.decEthernet)
                    (decIPv4 := Fixture.decIPv4) (decTCP := Fixture.decTCP)
                    (mkTimedRawPacket 7 (Fixture.frame Fixture.hello))
                    Fixture.zeroVars).1).2
  = Some [].
Proof.
  destruct (C10_payload_from_this_packet_only
              (decEthernet := Fixture.decEthernet) (decIPv4 := Fixture.decIPv4)
              (decTCP := Fixture.decTCP)
              (mkTimedRawPacket 8 (Fixture.frame []))
              (decodeOne (decEthernet := Fixture.decEthernet)
                 (decIPv4 := Fixture.decIPv4) (decTCP := Fixture.decTCP)
                 (mkTimedRawPacket 7 (Fixture.frame Fixture.hello))
                 Fixture.zeroVars).1
              Fixture.zeroVars) as (H & _ & _).
  rewrite H. vm_compute. reflexivity.
Defined.

(* --------------------------------------------------------------------- *)
(** ** Start-up *)

Lemma not_captureBegan_Fatal_nil (message : string) :
  ~ Main.captureBegan (Main.Fatal message []).
Proof. intros (d & s & l & H). cbn in H. now apply elem_of_nil in H. Qed.

(** C7. [main] requires a bound on memory before anything is started: with
    [max_concurrent_connections] and [total_max_buffer] both zero it ends in
    [log.Fatal] with no logger started and no supervisor run, so before any
    capture; with one of them non-zero the guard lets [main] through, to
    start the attack logger and run the supervisor (given that [main] got
    to the guard, that is, that the wire timeout flag parsed). Capture
    begins only if one of the two is non-zero. *)
Theorem C7_startup_requires_a_memory_bound (ParseDuration : string -> option Z)
    (f : Main.Flags) :
  (Main.maxConcurrentConnections f = 0 /\ Main.bufferedTotal f = 0 ->
   exists message,
     Main.main ParseDuration f = Main.Fatal message []
     /\ ~ Main.captureBegan (Main.main ParseDuration f))
  /\ (Main.maxConcurrentConnections f <> 0 \/ Main.bufferedTotal f <> 0 ->
      forall wireDuration,
        ParseDuration (Main.wireTimeout f) = Some wireDuration ->
        exists d s,
          Main.main ParseDuration f
          = Main.Returned [Main.AttackLoggerStart (Main.metadataAttackLog f);
                           Main.SupervisorRun d s (Main.logPackets f);
                           Main.AttackLoggerStop]
          /\ Main.d_MaxConcurrentConnections d = Main.maxConcurrentConnections f
          /\ Main.d_BufferedTotal d = Main.bufferedTotal f
          /\ Main.captureBegan (Main.main ParseDuration f))
  /\ (Main.captureBegan (Main.main ParseDuration f) ->
      Main.maxConcurrentConnections f <> 0 \/ Main.bufferedTotal f <> 0).
Proof.
  unfold Main.main. split; [|split].
  - intros [Hm Hb]. rewrite Hm, Hb. cbn [Z.eqb andb].
    destruct (ParseDuration (Main.wireTimeout f));
      eexists; (split; [reflexivity | apply not_captureBegan_Fatal_nil]).
  - intros Hne wireDuration ->.
    assert (Hg : (Main.maxConcurrentConnections f =? 0)
                 && (Main.bufferedTotal f =? 0) = false).
    { destruct (Z.eqb_spec (Main.maxConcurrentConnections f) 0);
        destruct (Z.eqb_spec (Main.bufferedTotal f) 0); cbn; try reflexivity.
      destruct Hne; contradiction. }
    rewrite Hg. eexists. eexists. split; [reflexivity|].
    split; [reflexivity|]. split; [reflexivity|].
    eexists. eexists. eexists. cbn. apply elem_of_cons. right. apply elem_of_cons.
    left. reflexivity.
  - destruct (ParseDuration (Main.wireTimeout f)).
    + destruct (Z.eqb_spec (Main.maxConcurrentConnections f) 0);
        destruct (Z.eqb_spec (Main.bufferedTotal f) 0); cbn [andb]; auto.
      intros H. now apply not_captureBegan_Fatal_nil in H.
    + intros H. now apply not_captureBegan_Fatal_nil in H.
Qed.

Lemma C7_witness :
  (exists message, Main.main Fixture.parseDuration Main.defaultFlags
                   = Main.Fatal message [])
  /\ Main.captureBegan (Main.main Fixture.parseDuration Fixture.boundedFlags).
Proof.
  split.
  - destruct (C7_startup_requires_a_memory_bound Fixture.parseDuration Main.defaultFlags)
      as (H1 & _ & _).
    destruct H1 as (message & Hm & _).
    + split; vm_compute; reflexivity.
    + exists message. exact Hm.
  - destruct (C7_startup_requires_a_memory_bound Fixture.parseDuration Fixture.boundedFlags)
      as (_ & H2 & _).
    assert (Hne : Main.maxConcurrentConnections Fixture.boundedFlags <> 0
                  \/ Main.bufferedTotal Fixture.boundedFlags <> 0)
      by (left; vm_compute; discriminate).
    assert (Hparse : Fixture.parseDuration (Main.wireTimeout Fixture.boundedFlags)
                     = Some 3000000000) by (vm_compute; reflexivity).
    destruct (H2 Hne 3000000000 Hparse) as (d & s & _ & _ & _ & H). exact H.
Defined.

(* ===================================================================== *)
(** * Further properties of the pipeline *)

(** ** The three ways a manifest is handled *)

Lemma onManifest_cases (i : Inquisitor) (m : PacketManifest) :
  (exists conn, pool.Get (pool_ i) (Flow m) = Some conn
                /\ onManifest m i = Done Continue (delivered conn m i))
  \/ (pool.Has (pool_ i) (Flow m) = false
      /\ MaxConcurrentConnections (options i) <> 0
      /\ MaxConcurrentConnections (options i) <= Z.of_nat (pool.Len (pool_ i))
      /\ onManifest m i = Done Continue i)
  \/ (pool.Has (pool_ i) (Flow m) = false
      /\ (MaxConcurrentConnections (options i) = 0
          \/ Z.of_nat (pool.Len (pool_ i)) < MaxConcurrentConnections (options i))
      /\ onManifest m i
         = Done Continue (delivered (fresh (dom (conns i))) m (setUp (Flow m) i))).
Proof.
  destruct (pool.Has (pool_ i) (Flow m)) eqn:HH.
  - left. destruct (Has_true_Get _ _ HH) as [conn HG].
    exists conn. split; [exact HG | now apply onManifest_known].
  - right.
    destruct (Z.eq_dec (MaxConcurrentConnections (options i)) 0) as [Hz|Hz].
    + right. split; [reflexivity|]. split; [now left|].
      apply onManifest_new; [exact HH | now left].
    + destruct (Z.lt_ge_cases (Z.of_nat (pool.Len (pool_ i)))
                              (MaxConcurrentConnections (options i))) as [Hlt|Hge].
      * right. split; [reflexivity|]. split; [now right|].
        apply onManifest_new; [exact HH | now right].
      * left. split; [reflexivity|]. split; [exact Hz|]. split; [exact Hge|].
        now apply onManifest_full.
Qed.

Lemma setUp_options (flow : TcpIpFlow) (i : Inquisitor) :
  options (setUp flow i) = options i.
Proof. unfold setUp. cbn. now destruct (LogPackets (options i)). Qed.

Lemma Put_Len_new (p : pool.ConnectionPool) (f : TcpIpFlow) (c : nat) :
  pool.Has p f = false -> pool.Len (pool.Put p f c) = S (pool.Len p).
Proof.
  intros HH. unfold pool.Len, pool.Put. cbn.
  apply map_size_insert_None. apply (Has_false_Get _ _ HH).
Qed.

Lemma delivered_options (conn : nat) (m : PacketManifest) (i : Inquisitor) :
  options (delivered conn m i) = options i.
Proof. reflexivity. Qed.

Lemma delivered_closeChan (conn : nat) (m : PacketManifest) (i : Inquisitor) :
  closeConnectionChan (delivered conn m i) = closeConnectionChan i.
Proof. reflexivity. Qed.

Lemma delivered_trace (conn : nat) (m : PacketManifest) (i : Inquisitor) :
  trace (delivered conn m i) = trace i ++ [EvReceivePacket conn m].
Proof. reflexivity. Qed.

Lemma delivered_pool (conn : nat) (m : PacketManifest) (i : Inquisitor) :
  pool_ (delivered conn m i) = pool_ i.
Proof. reflexivity. Qed.

Lemma delivered_conns (conn : nat) (m : PacketManifest) (i : Inquisitor) :
  conns (delivered conn m i) = alter (add_received m) conn (conns i).
Proof. reflexivity. Qed.

(** The connections a stretch of trace stops. *)
Definition stops (evs : list Event) : list nat :=
  omap (fun e => match e with EvStop c => Some c | _ => None end) evs.

Lemma stops_app (l1 l2 : list Event) : stops (l1 ++ l2) = stops l1 ++ stops l2.
Proof. unfold stops. apply omap_app. Qed.

Lemma stops_closes (cs : list nat) : stops (map EvClose cs) = [].
Proof. induction cs as [|c cs IH]; [reflexivity|]. cbn. exact IH. Qed.

(** What the second [select] of a turn does to the pool, the close
    requests, the options and the trace. *)
Lemma selected_effect (sel : Selected) (i j : Inquisitor) (l : Loop) :
  selected sel i = Done l j ->
  options j = options i
  /\ closeConnectionChan j = closeConnectionChan i
  /\ (exists evs, trace j = trace i ++ evs /\ stops evs = [])
  /\ (pool_ j = pool_ i
      \/ (MaxConcurrentConnections (options i) = 0
          \/ Z.of_nat (pool.Len (pool_ i)) < MaxConcurrentConnections (options i))
         /\ pool.Len (pool_ j) = S (pool.Len (pool_ i))).
Proof.
  destruct sel as [now | | m]; cbn [selected].
  - unfold onTick, bind, gets. destruct (tickerFires _); [|discriminate].
    rewrite pool_CloseOlderThan_eq.
    set (t := Time_Add now _).
    destruct (reaped_frame t i) as (Hq & Hp & Ht & _).
    assert (Ho : options (reaped t i) = options i).
    { unfold reaped. cbv zeta.
      set (old := List.filter _ _).
      destruct (emitAll_frame (map EvClose old)
                  (with_conns (pool.closeEach old (conns i)) i)) as (H & _).
      exact H. }
    destruct (_ =? 0); unfold ret, log, emit, modify; intros [= <- <-].
    + split; [exact Ho|]. split; [exact Hq|]. split; [|now left].
      eexists. split; [exact Ht | apply stops_closes].
    + split; [exact Ho|]. split; [exact Hq|]. split; [|now left].
      eexists. split.
      * cbn [trace emitted]. rewrite Ht, <- app_assoc. reflexivity.
      * rewrite stops_app, stops_closes. reflexivity.
  - intros [= <- <-]. split; [reflexivity|]. split; [reflexivity|].
    split; [|now left]. exists []. split; [now rewrite app_nil_r | reflexivity].
  - destruct (onManifest_cases i m) as [(conn & HG & ->)|[(HH & Hz & Hge & ->)|(HH & Hcap & ->)]];
      intros [= <- <-].
    + split; [reflexivity|]. split; [reflexivity|]. split; [|now left].
      eexists. split; [reflexivity|reflexivity].
    + split; [reflexivity|]. split; [reflexivity|]. split; [|now left].
      exists []. split; [now rewrite app_nil_r | reflexivity].
    + rewrite delivered_options, delivered_closeChan, delivered_trace, delivered_pool.
      rewrite setUp_options, setUp_closeChan, setUp_trace, setUp_pool.
      split; [reflexivity|]. split; [reflexivity|]. split.
      * rewrite <- !app_assoc. eexists. split; [reflexivity|].
        destruct (LogPackets (options i)); reflexivity.
      * right. split; [exact Hcap | now apply Put_Len_new].
Qed.

(** The same for a whole turn: it takes the first close request, if any. *)
Lemma dispatchIteration_effect (sel : Selected) (i j : Inquisitor) (l : Loop) :
  dispatchIteration sel i = Done l j ->
  options j = options i
  /\ closeConnectionChan j = drop 1 (closeConnectionChan i)
  /\ (exists evs, trace j = trace i ++ evs
                  /\ stops evs = take 1 (closeConnectionChan i))
  /\ (pool_ j = pool_ i
      \/ (MaxConcurrentConnections (options i) = 0
          \/ Z.of_nat (pool.Len (pool_ i)) < MaxConcurrentConnections (options i))
         /\ pool.Len (pool_ j) = S (pool.Len (pool_ i))).
Proof.
  rewrite dispatchIteration_eq. intros H.
  apply selected_effect in H as (Ho & Hq & (evs & Ht & Hs) & Hp).
  rewrite polled_options in Ho, Hp. rewrite polled_pool in Hp.
  split; [exact Ho|]. split; [|split; [|exact Hp]].
  - rewrite Hq. unfold polled. destruct (closeConnectionChan i) as [|c rest] eqn:E.
    + exact E.
    + reflexivity.
  - revert Ht. unfold polled. destruct (closeConnectionChan i) as [|c rest].
    + intros Ht. exists evs. split; [exact Ht | exact Hs].
    + cbn [trace emitted with_conns with_closeChan]. intros Ht.
      exists ([EvLog LogCloseRequest; EvStop c] ++ evs). split.
      * rewrite Ht, <- !app_assoc. reflexivity.
      * rewrite stops_app, Hs. reflexivity.
Qed.

(** The state a goroutine is left in, however it ended. *)
Definition stateOf {A : Type} (o : Outcome A) : Inquisitor :=
  match o with
  | Done _ i => i
  | Panic i => i
  | Blocked i => i
  end.

(** As far as the dispatcher is concerned, a turn never panics: the
    [panic(err)] after [Get] cannot be reached, and the only way not to
    finish a turn is to wait for a ticker that does not exist. *)
Lemma dispatchIteration_outcome (sel : Selected) (i : Inquisitor) :
  (exists l j, dispatchIteration sel i = Done l j)
  \/ (exists now, sel = Tick now
                  /\ TcpIdleTimeout (options i) <= 0
                  /\ dispatchIteration sel i = Blocked (polled i)).
Proof.
  rewrite dispatchIteration_eq. destruct sel as [now | | m]; cbn [selected].
  - unfold onTick, bind, gets, tickerFires. rewrite polled_options.
    destruct (Z.ltb_spec 0 (TcpIdleTimeout (options i))).
    + left. rewrite pool_CloseOlderThan_eq. destruct (_ =? 0); eauto.
    + right. exists now. split; [reflexivity|]. split; [lia | reflexivity].
  - left. eauto.
  - left.
    destruct (onManifest_cases (polled i) m)
      as [(conn & _ & ->)|[(_ & _ & _ & ->)|(_ & _ & ->)]]; eauto.
Qed.

(** ** The dispatcher over many turns *)

Lemma dispatchPackets_cons (sel : Selected) (rest : list Selected) (i : Inquisitor) :
  dispatchPackets (sel :: rest) i
  = match dispatchIteration sel i with
    | Done Continue j => dispatchPackets rest j
    | Done Return j => Done tt j
    | Panic j => Panic j
    | Blocked j => Blocked j
    end.
Proof.
  cbn [dispatchPackets]. unfold bind.
  destruct (dispatchIteration sel i) as [[] j | j | j]; reflexivity.
Qed.

(** The cap on the number of connections is an invariant of the
    dispatcher: with [MaxConcurrentConnections > 0] and no more connections
    in the pool than that, no run of the loop, however it ends, leaves more
    of them in the pool. *)
Theorem dispatchPackets_keeps_the_cap (sels : list Selected) :
  forall i : Inquisitor,
    0 < MaxConcurrentConnections (options i) ->
    Z.of_nat (pool.Len (pool_ i)) <= MaxConcurrentConnections (options i) ->
    options (stateOf (dispatchPackets sels i)) = options i
    /\ Z.of_nat (pool.Len (pool_ (stateOf (dispatchPackets sels i))))
       <= MaxConcurrentConnections (options i).
Proof.
  induction sels as [|sel rest IH]; intros i Hpos Hle; [split; [reflexivity | exact Hle]|].
  rewrite dispatchPackets_cons.
  destruct (dispatchIteration_outcome sel i) as [(l & j & Hj)|(now & _ & _ & Hb)].
  - rewrite Hj.
    destruct (dispatchIteration_effect _ _ _ _ Hj) as (Ho & _ & _ & Hp).
    assert (Hj' : Z.of_nat (pool.Len (pool_ j)) <= MaxConcurrentConnections (options i)).
    { destruct Hp as [-> | [[Hz|Hlt] ->]]; lia. }
    destruct l.
    + destruct (IH j) as [IH1 IH2]; [rewrite Ho; exact Hpos | rewrite Ho; exact Hj'|].
      rewrite IH1, Ho in *. split; [reflexivity | exact IH2].
    + cbn [stateOf]. split; [exact Ho | exact Hj'].
  - rewrite Hb. cbn [stateOf]. rewrite polled_options, polled_pool.
    split; [reflexivity | exact Hle].
Qed.

Lemma dispatchPackets_keeps_the_cap_witness :
  Z.of_nat (pool.Len (pool_ (stateOf (dispatchPackets
      [Manifest (Fixture.manifestOf Fixture.flow 1);
       Manifest (Fixture.manifestOf Fixture.flow2 2);
       Manifest (Fixture.manifestOf Fixture.flow3 3)]
      (Fixture.started 2 100)))))
  <= 2.
Proof.
  apply (dispatchPackets_keeps_the_cap
           [Manifest (Fixture.manifestOf Fixture.flow 1);
            Manifest (Fixture.manifestOf Fixture.flow2 2);
            Manifest (Fixture.manifestOf Fixture.flow3 3)]
           (Fixture.started 2 100)).
  - vm_compute. reflexivity.
  - vm_compute. discriminate.
Defined.

(** The two ends of the cap. With [MaxConcurrentConnections = 0] nothing is
    ever dropped: every manifest is handed to a connection the pool holds
    for its flow. With a negative [MaxConcurrentConnections] the test
    [Len() >= MaxConcurrentConnections] always succeeds: no connection is
    ever created, even into an empty pool. *)
Theorem cap_zero_tracks_all_negative_tracks_none (i : Inquisitor) (m : PacketManifest) :
  (MaxConcurrentConnections (options i) = 0 ->
   exists conn j,
     onManifest m i = Done Continue j
     /\ last (trace j) = Some (EvReceivePacket conn m)
     /\ pool.Get (pool_ j) (Flow m) = Some conn)
  /\ (MaxConcurrentConnections (options i) < 0 ->
      pool.Has (pool_ i) (Flow m) = false ->
      onManifest m i = Done Continue i).
Proof.
  split.
  - intros Hz.
    destruct (onManifest_cases i m)
      as [(conn & HG & ->)|[(_ & Hne & _)|(HH & _ & ->)]]; [|contradiction|].
    + exists conn, (delivered conn m i). split; [reflexivity|].
      split; [rewrite delivered_trace; apply last_snoc | exact HG].
    + exists (fresh (dom (conns i))), (delivered (fresh (dom (conns i))) m (setUp (Flow m) i)).
      split; [reflexivity|]. split; [rewrite delivered_trace; apply last_snoc|].
      rewrite delivered_pool, setUp_pool. unfold pool.Get, pool.Put; cbn.
      apply lookup_insert_eq.
  - intros Hneg HH. apply onManifest_full; [exact HH | lia | lia].
Qed.

Lemma cap_zero_tracks_all_negative_tracks_none_witness :
  onManifest (Fixture.manifestOf Fixture.flow 1) (Fixture.started (-1) 100)
  = Done Continue (Fixture.started (-1) 100).
Proof.
  destruct (cap_zero_tracks_all_negative_tracks_none
              (Fixture.started (-1) 100) (Fixture.manifestOf Fixture.flow 1)) as [_ H].
  apply H; vm_compute; reflexivity.
Defined.

(** [setupNewConnection] makes a connection that did not exist, registers
    it under the flow, so that it is found from either direction, and
    starts it; every other connection and every pool entry of another
    conversation is left as it was. The packet logger is started, before
    the connection is put in the pool, exactly when [LogPackets] is set. *)
Theorem setupNewConnection_touches_nothing_else (flow : TcpIpFlow) (i : Inquisitor) :
  exists conn j,
    setupNewConnection flow i = Done conn j
    /\ conns i !! conn = None
    /\ conns j !! conn = Some (mkConnection 0 true false false [])
    /\ (forall c, c <> conn -> conns j !! c = conns i !! c)
    /\ pool.Get (pool_ j) flow = Some conn
    /\ pool.Get (pool_ j) (Reverse flow) = Some conn
    /\ (forall f, key f <> key flow -> pool.Get (pool_ j) f = pool.Get (pool_ i) f)
    /\ trace j
       = trace i ++ [EvNewConnection conn]
           ++ (if LogPackets (options i) then [EvPacketLoggerStart conn flow] else [])
           ++ [EvPut flow conn; EvStart conn].
Proof.
  exists (fresh (dom (conns i))), (setUp flow i).
  split; [apply setupNewConnection_eq|]. split; [apply fresh_conn_new|].
  rewrite setUp_conns, setUp_pool, setUp_trace.
  split; [now rewrite lookup_alter_eq, lookup_insert_eq|].
  split.
  { intros c Hc. rewrite lookup_alter_ne, lookup_insert_ne by congruence. reflexivity. }
  unfold pool.Get, pool.Put; cbn [pool.connectionMap].
  split; [apply lookup_insert_eq|].
  split; [rewrite key_Reverse; apply lookup_insert_eq|].
  split; [intros f Hf; apply lookup_insert_ne; congruence | reflexivity].
Qed.

(** A backlog of close requests drains one request per turn, oldest
    first: after a run of [n] turns that ends without a stop signal, the
    first [n] connections waiting on the channel have been stopped, in
    order, and the others are still waiting. *)
Theorem close_requests_drain_one_per_turn (sels : list Selected) :
  forall i j : Inquisitor,
    StopDispatch ∉ sels ->
    dispatchPackets sels i = Done tt j ->
    closeConnectionChan j = drop (length sels) (closeConnectionChan i)
    /\ exists evs, trace j = trace i ++ evs
                   /\ stops evs = take (length sels) (closeConnectionChan i).
Proof.
  induction sels as [|sel rest IH]; intros i j Hno.
  - intros [= <-]. split; [reflexivity|]. exists []. split; [now rewrite app_nil_r | reflexivity].
  - rewrite dispatchPackets_cons.
    destruct (dispatchIteration sel i) as [l k | k | k] eqn:Hk; try (destruct l); try discriminate.
    + intros Hrest.
      destruct (dispatchIteration_effect _ _ _ _ Hk) as (_ & Hq & (evs & Ht & Hs) & _).
      destruct (IH k j) as (IHq & evs' & IHt & IHs);
        [intros Hin; apply Hno; now right | exact Hrest |].
      rewrite Hq in IHq, IHs. split.
      * rewrite IHq, drop_drop. reflexivity.
      * exists (evs ++ evs'). split; [rewrite IHt, Ht, <- app_assoc; reflexivity|].
        rewrite stops_app, Hs, IHs, take_take_drop. reflexivity.
    + exfalso. apply Hno.
      rewrite dispatchIteration_eq in Hk.
      destruct sel as [now | | m]; [| left |].
      * cbn [selected] in Hk. unfold onTick, bind, gets in Hk.
        destruct (tickerFires _); [|discriminate].
        rewrite pool_CloseOlderThan_eq in Hk. destruct (_ =? 0); discriminate.
      * cbn [selected] in Hk.
        destruct (onManifest_cases (polled i) m)
          as [(conn & _ & E)|[(_ & _ & _ & E)|(_ & _ & E)]];
          rewrite E in Hk; discriminate.
Qed.

Lemma close_requests_drain_one_per_turn_witness :
  closeConnectionChan
    (stateOf (dispatchPackets [Manifest (Fixture.manifestOf Fixture.flow2 9)]
                Fixture.twoRequests))
  = [1%nat].
Proof.
  destruct (close_requests_drain_one_per_turn
              [Manifest (Fixture.manifestOf Fixture.flow2 9)]
              Fixture.twoRequests
              (stateOf (dispatchPackets [Manifest (Fixture.manifestOf Fixture.flow2 9)]
                          Fixture.twoRequests))) as [H _].
  - rewrite elem_of_cons, elem_of_nil. intros [?|[]]; discriminate.
  - vm_compute. reflexivity.
  - rewrite H. vm_compute. reflexivity.
Defined.

(** The loop ends at the stop signal: whatever the dispatcher would have
    selected afterwards is never handled. *)
Theorem dispatchPackets_ends_at_stop (pre post : list Selected) (i : Inquisitor) :
  dispatchPackets (pre ++ StopDispatch :: post) i
  = dispatchPackets (pre ++ [StopDispatch]) i.
Proof.
  revert i. induction pre as [|sel pre IH]; intros i.
  - cbn [app]. rewrite !dispatchPackets_cons, dispatchIteration_eq. reflexivity.
  - cbn [app]. rewrite !dispatchPackets_cons.
    destruct (dispatchIteration sel i) as [[] j | j | j]; [apply IH | | |]; reflexivity.
Qed.

(** ** [Start] and [Stop] *)




(** ** End of stream with nothing on its way *)

Lemma stopSignals_closes (cs : list nat) : stopSignals (map EvClose cs) = [].
Proof. induction cs as [|c cs IH]; [reflexivity|]. cbn. exact IH. Qed.

Lemma reaped_stages (t : Z) (i : Inquisitor) :
  capturing (reaped t i) = capturing i
  /\ decoding (reaped t i) = decoding i
  /\ dispatching (reaped t i) = dispatching i
  /\ stopSignals (trace (reaped t i)) = stopSignals (trace i).
Proof.
  destruct (reaped_frame t i) as (_ & _ & Ht & _).
  rewrite Ht, stopSignals_app, stopSignals_closes, app_nil_r.
  unfold reaped. cbv zeta. set (old := List.filter _ _).
  destruct (emitAll_frame (map EvClose old) (with_conns (pool.closeEach old (conns i)) i))
    as (_ & _ & _ & _ & Hc & Hd & Hp & _).
  rewrite Hc, Hd, Hp. repeat split.
Qed.

(** A tick signals no stage and stops none. *)
Lemma tick_turn_stages (now : Z) (i j : Inquisitor) (l : Loop) :
  dispatchIteration (Tick now) i = Done l j ->
  capturing j = capturing i
  /\ decoding j = decoding i
  /\ dispatching j = dispatching i
  /\ stopSignals (trace j) = stopSignals (trace i).
Proof.
  rewrite dispatchIteration_eq. cbn [selected]. unfold onTick, bind, gets.
  destruct (tickerFires _); [|discriminate].
  rewrite pool_CloseOlderThan_eq. set (t := Time_Add now _).
  destruct (reaped_stages t (polled i)) as (Hc & Hd & Hp & Hs).
  destruct (polled_stages i) as (Pc & Pd & Pp & _ & _ & _ & Ps).
  rewrite Pc in Hc. rewrite Pd in Hd. rewrite Pp in Hp. rewrite Ps in Hs.
  destruct (_ =? 0); unfold ret, log, emit, modify; intros [= <- <-];
    cbn [capturing decoding dispatching trace emitted].
  - repeat split; assumption.
  - rewrite stopSignals_app, Hs. cbn. rewrite app_nil_r. repeat split; assumption.
Qed.

(** The state after the last signal of [Stop] has been taken, [Stop] has
    returned and [tchan] is closed. *)
Definition afterStop (i : Inquisitor) : Inquisitor :=
  let i := with_running Capture false (emitted (EvStopSignal Capture) i) in
  let i := emitAll (EvCloseAllConnections :: map EvClose (pool.Connections (pool_ i)))
             (with_conns (pool.closeEach (pool.Connections (pool_ i)) (conns i)) i) in
  let i := emitted EvHandleClose (with_handleOpen false i) in
  emitted EvCloseTchan (emitted EvPagerStop (with_pagerRunning false i)).

Lemma afterStop_eq (i : Inquisitor) :
  capturing i = true ->
  (signalStop Capture ;; Goroutines.closeDown ;; emit EvCloseTchan) i = Done tt (afterStop i).
Proof.
  intros Hc.
  unfold signalStop, Goroutines.closeDown, afterStop, bind, gets, emit, modify,
    pool_CloseAllConnections, pool.CloseAllConnections.
  cbn [running]. rewrite Hc. reflexivity.
Qed.

Lemma afterStop_spec (i : Inquisitor) :
  capturing (afterStop i) = false
  /\ decoding (afterStop i) = decoding i
  /\ dispatching (afterStop i) = dispatching i
  /\ handleOpen (afterStop i) = false
  /\ pagerRunning (afterStop i) = false
  /\ pool_ (afterStop i) = pool_ i
  /\ stopSignals (trace (afterStop i)) = stopSignals (trace i) ++ [Capture].
Proof.
  unfold afterStop. cbv zeta.
  set (i1 := with_running Capture false (emitted (EvStopSignal Capture) i)).
  set (all := pool.Connections (pool_ i1)).
  set (i2 := with_conns _ i1).
  destruct (emitAll_frame (EvCloseAllConnections :: map EvClose all) i2)
    as (_ & Hpool & _ & _ & Hc & Hd & Hp & _).
  pose proof (emitAll_trace (EvCloseAllConnections :: map EvClose all) i2) as Htr.
  cbn [capturing decoding dispatching handleOpen pagerRunning pool_ trace emitted
       with_handleOpen with_pagerRunning].
  rewrite Hc, Hd, Hp, Hpool, Htr.
  do 6 (split; [reflexivity|]).
  unfold i2, i1. cbn [trace with_conns with_running emitted].
  change (EvCloseAllConnections :: map EvClose all)
    with ([EvCloseAllConnections] ++ map EvClose all).
  rewrite !stopSignals_app, stopSignals_closes. cbn. rewrite !app_nil_r. reflexivity.
Qed.

Section Stopping.

Context {decEthernet : DecodingLayer Ethernet}.
Context {decIPv4 : DecodingLayer IPv4}.
Context {decTCP : DecodingLayer TCP}.

Lemma run_app (l1 l2 : list Goroutines.Move) (s : Goroutines.State) :
  Goroutines.run (l1 ++ l2) s
  = match Goroutines.run l1 s with
    | Goroutines.Next s' => Goroutines.run l2 s'
    | r => r
    end.
Proof.
  revert s. induction l1 as [|mv l1 IH]; intros s; cbn [app Goroutines.run].
  - reflexivity.
  - destruct (Goroutines.step mv s); [apply IH | reflexivity | reflexivity].
Qed.

Lemma run_cons (mv : Goroutines.Move) (rest : list Goroutines.Move)
    (s : Goroutines.State) :
  Goroutines.run (mv :: rest) s
  = match Goroutines.step mv s with
    | Goroutines.Next s' => Goroutines.run rest s'
    | r => r
    end.
Proof. cbn [Goroutines.run]. now destruct (Goroutines.step mv s). Qed.

(** The three sends of [Stop], each met by a stage at its [select]. *)
Lemma StopChan_Dispatch (i : Inquisitor) (ch : option TimedRawPacket)
    (dh : option PacketManifest) :
  dispatching i = true ->
  Goroutines.step Goroutines.StopChan
    (Goroutines.mkState i (Goroutines.InStop Dispatch) ch dh)
  = Goroutines.Next
      (Goroutines.mkState
         (with_running Dispatch false (emitted (EvStopSignal Dispatch) (polled i)))
         (Goroutines.InStop Decode) ch dh).
Proof.
  intros Hp. unfold Goroutines.step, Goroutines.atSelect.
  cbn [Goroutines.readerAt Goroutines.captureHolds Goroutines.decoderHolds
       Goroutines.inquisitor running].
  rewrite Hp. cbn [andb]. unfold Goroutines.after, bind.
  rewrite dispatchIteration_eq. cbn [selected]. unfold ret.
  destruct (polled_stages i) as (_ & _ & Pp & _).
  unfold signalStop, bind, gets, emit, modify. cbn [running]. now rewrite Pp, Hp.
Qed.

Lemma StopChan_Decode (i : Inquisitor) (ch : option TimedRawPacket) :
  decoding i = true ->
  Goroutines.step Goroutines.StopChan
    (Goroutines.mkState i (Goroutines.InStop Decode) ch None)
  = Goroutines.Next
      (Goroutines.mkState (with_running Decode false (emitted (EvStopSignal Decode) i))
         (Goroutines.InStop Capture) ch None).
Proof.
  intros Hd. unfold Goroutines.step, Goroutines.atSelect.
  cbn [Goroutines.readerAt Goroutines.captureHolds Goroutines.decoderHolds
       Goroutines.inquisitor running Goroutines.holdsNothing].
  rewrite Hd. cbn [andb].
  unfold Goroutines.after, signalStop, bind, gets, emit, modify. cbn [running].
  now rewrite Hd.
Qed.

Lemma StopChan_Capture (i : Inquisitor) (dh : option PacketManifest) :
  capturing i = true ->
  Goroutines.step Goroutines.StopChan
    (Goroutines.mkState i (Goroutines.InStop Capture) None dh)
  = Goroutines.Next (Goroutines.mkState (afterStop i) Goroutines.ReaderReturned None dh).
Proof.
  intros Hc. unfold Goroutines.step, Goroutines.atSelect.
  cbn [Goroutines.readerAt Goroutines.captureHolds Goroutines.decoderHolds
       Goroutines.inquisitor running Goroutines.holdsNothing].
  rewrite Hc. cbn [andb]. unfold Goroutines.after. now rewrite (afterStop_eq i Hc).
Qed.

(** [Stop] under way with no packet on its way: each stage is at its
    [select] until its signal comes, and the signals sent so far are those
    of the stages that have left, after the signals [base] of before. *)
Definition stopping (base : list Stage) (s : Goroutines.State) : Prop :=
  Goroutines.captureHolds s = None
  /\ Goroutines.decoderHolds s = None
  /\ match Goroutines.readerAt s with
     | Goroutines.InStop Dispatch =>
         capturing (Goroutines.inquisitor s) = true
         /\ decoding (Goroutines.inquisitor s) = true
         /\ dispatching (Goroutines.inquisitor s) = true
         /\ stopSignals (trace (Goroutines.inquisitor s)) = base
     | Goroutines.InStop Decode =>
         capturing (Goroutines.inquisitor s) = true
         /\ decoding (Goroutines.inquisitor s) = true
         /\ dispatching (Goroutines.inquisitor s) = false
         /\ stopSignals (trace (Goroutines.inquisitor s)) = base ++ [Dispatch]
     | Goroutines.InStop Capture =>
         capturing (Goroutines.inquisitor s) = true
         /\ decoding (Goroutines.inquisitor s) = false
         /\ dispatching (Goroutines.inquisitor s) = false
         /\ stopSignals (trace (Goroutines.inquisitor s)) = base ++ [Dispatch; Decode]
     | Goroutines.ReaderReturned =>
         capturing (Goroutines.inquisitor s) = false
         /\ decoding (Goroutines.inquisitor s) = false
         /\ dispatching (Goroutines.inquisitor s) = false
         /\ handleOpen (Goroutines.inquisitor s) = false
         /\ pagerRunning (Goroutines.inquisitor s) = false
         /\ stopSignals (trace (Goroutines.inquisitor s))
            = base ++ [Dispatch; Decode; Capture]
     | _ => False
     end.

Definition nextSend (st : Stage) : Goroutines.ReaderAt :=
  match st with
  | Dispatch => Goroutines.InStop Decode
  | Decode => Goroutines.InStop Capture
  | Capture => Goroutines.ReaderReturned
  end.

Lemma stopping_StopChan (base : list Stage) (s : Goroutines.State) (st : Stage) :
  stopping base s ->
  Goroutines.readerAt s = Goroutines.InStop st ->
  exists s',
    Goroutines.step Goroutines.StopChan s = Goroutines.Next s'
    /\ Goroutines.readerAt s' = nextSend st
    /\ stopping base s'.
Proof.
  destruct s as [i r ch dh]. unfold stopping.
  cbn [Goroutines.readerAt Goroutines.captureHolds Goroutines.decoderHolds
       Goroutines.inquisitor].
  intros (-> & -> & H) ->.
  unfold Goroutines.step, Goroutines.atSelect.
  destruct st; destruct H as (Hc & Hd & Hp & Hs);
    cbn [Goroutines.readerAt Goroutines.captureHolds Goroutines.decoderHolds
         Goroutines.inquisitor Goroutines.holdsNothing running nextSend].
  - rewrite Hc. cbn [andb]. unfold Goroutines.after. rewrite (afterStop_eq i Hc).
    eexists. split; [reflexivity|]. split; [reflexivity|].
    cbn [Goroutines.readerAt Goroutines.captureHolds Goroutines.decoderHolds
         Goroutines.inquisitor].
    destruct (afterStop_spec i) as (S1 & S2 & S3 & S4 & S5 & _ & S7).
    rewrite S1, S2, S3, S4, S5, S7, Hd, Hp, Hs, <- app_assoc.
    repeat split.
  - rewrite Hd. cbn [andb]. unfold Goroutines.after, signalStop, bind, gets, emit, modify.
    cbn [running]. rewrite Hd.
    eexists. split; [reflexivity|]. split; [reflexivity|].
    cbn [Goroutines.readerAt Goroutines.captureHolds Goroutines.decoderHolds
         Goroutines.inquisitor capturing decoding dispatching trace with_running emitted].
    rewrite stopSignals_app, Hs, <- app_assoc. repeat split; assumption.
  - rewrite Hp. cbn [andb]. unfold Goroutines.after, bind.
    rewrite dispatchIteration_eq. cbn [selected]. unfold ret.
    destruct (polled_stages i) as (Pc & Pd & Pp & _ & _ & _ & Ps).
    unfold signalStop, bind, gets, emit, modify. cbn [running]. rewrite Pp, Hp.
    eexists. split; [reflexivity|]. split; [reflexivity|].
    cbn [Goroutines.readerAt Goroutines.captureHolds Goroutines.decoderHolds
         Goroutines.inquisitor capturing decoding dispatching trace with_running emitted].
    rewrite stopSignals_app, Ps, Pc, Pd, Hs. repeat split; assumption.
Qed.

Lemma stopping_step (base : list Stage) (mv : Goroutines.Move) (s s' : Goroutines.State) :
  stopping base s ->
  Goroutines.step mv s = Goroutines.Next s' ->
  stopping base s'.
Proof.
  intros Hs Hstep.
  destruct (Goroutines.readerAt s) as [|t|st|] eqn:Hr.
  - destruct Hs as (_ & _ & H). now rewrite Hr in H.
  - destruct Hs as (_ & _ & H). now rewrite Hr in H.
  - destruct mv as [r| | | |now|].
    + unfold Goroutines.step in Hstep. now rewrite Hr in Hstep.
    + unfold Goroutines.step in Hstep. now rewrite Hr in Hstep.
    + unfold Goroutines.step in Hstep. destruct Hs as (Hch & _). now rewrite Hch in Hstep.
    + unfold Goroutines.step in Hstep. destruct Hs as (_ & Hdh & _). now rewrite Hdh in Hstep.
    + unfold Goroutines.step in Hstep.
      destruct (_ && _); [|discriminate].
      unfold Goroutines.after in Hstep.
      destruct (dispatchIteration (Tick now) (Goroutines.inquisitor s)) as [l j| |] eqn:E;
        try discriminate.
      injection Hstep as <-.
      apply tick_turn_stages in E as (Ec & Ed & Ep & Es).
      destruct Hs as (Hch & Hdh & H). unfold stopping.
      cbn [Goroutines.readerAt Goroutines.captureHolds Goroutines.decoderHolds
           Goroutines.inquisitor].
      rewrite Hr in H |- *. rewrite Ec, Ed, Ep, Es.
      split; [exact Hch|]. split; [exact Hdh|]. exact H.
    + destruct (stopping_StopChan base s st Hs Hr) as (s2 & H2 & _ & H3).
      rewrite H2 in Hstep. now injection Hstep as <-.
  - destruct mv as [r| | | |now|].
    + unfold Goroutines.step in Hstep. now rewrite Hr in Hstep.
    + unfold Goroutines.step in Hstep. now rewrite Hr in Hstep.
    + unfold Goroutines.step in Hstep. destruct Hs as (Hch & _). now rewrite Hch in Hstep.
    + unfold Goroutines.step in Hstep. destruct Hs as (_ & Hdh & _). now rewrite Hdh in Hstep.
    + unfold Goroutines.step, Goroutines.atSelect in Hstep.
      destruct Hs as (_ & _ & H). rewrite Hr in H. destruct H as (_ & _ & Hp & _).
      cbn [running] in Hstep. now rewrite Hp in Hstep.
    + unfold Goroutines.step in Hstep. now rewrite Hr in Hstep.
Qed.

Lemma stopping_run (base : list Stage) (mvs : list Goroutines.Move) :
  forall s s', stopping base s -> Goroutines.run mvs s = Goroutines.Next s' ->
               stopping base s'.
Proof.
  induction mvs as [|mv mvs IH]; intros s s' Hs; cbn [Goroutines.run].
  - now intros [= <-].
  - destruct (Goroutines.step mv s) as [s1|s1|] eqn:E; try discriminate.
    apply IH. eapply stopping_step; eassumption.
Qed.

(** When the read that returns EOF finds every goroutine at the head of
    its loop, with no packet on its way, [Stop] cannot hang, whatever is
    scheduled next: in every state that can follow, nothing is on its way,
    and either the send [Stop] stands at has a receiver at its [select], or
    [Stop] has returned with the three stages out of their loops (the
    dispatcher signalled first, then the decoder, then the capture loop),
    the handle closed and the pager afterStop. Three moves are enough. *)
Theorem EOF_at_rest_never_hangs (i : Inquisitor) (mvs : list Goroutines.Move)
    (s : Goroutines.State) :
  capturing i = true -> decoding i = true -> dispatching i = true ->
  Goroutines.run (Goroutines.ReadPacketData ReadEOF :: mvs) (Goroutines.idle i)
  = Goroutines.Next s ->
  Goroutines.captureHolds s = None
  /\ Goroutines.decoderHolds s = None
  /\ ((exists st s', Goroutines.readerAt s = Goroutines.InStop st
                     /\ Goroutines.step Goroutines.StopChan s = Goroutines.Next s'
                     /\ Goroutines.readerAt s' = nextSend st)
      \/ (Goroutines.readerAt s = Goroutines.ReaderReturned
          /\ capturing (Goroutines.inquisitor s) = false
          /\ decoding (Goroutines.inquisitor s) = false
          /\ dispatching (Goroutines.inquisitor s) = false
          /\ handleOpen (Goroutines.inquisitor s) = false
          /\ pagerRunning (Goroutines.inquisitor s) = false
          /\ stopSignals (trace (Goroutines.inquisitor s))
             = stopSignals (trace i) ++ [Dispatch; Decode; Capture]))
  /\ exists s3,
       Goroutines.run [Goroutines.ReadPacketData ReadEOF; Goroutines.StopChan;
                       Goroutines.StopChan; Goroutines.StopChan] (Goroutines.idle i)
       = Goroutines.Next s3
       /\ Goroutines.readerAt s3 = Goroutines.ReaderReturned.
Proof.
  intros Hc Hd Hp Hrun.
  set (s0 := Goroutines.mkState (emitted (EvLog LogEOF) i) (Goroutines.InStop Dispatch)
               None None).
  assert (H0 : stopping (stopSignals (trace i)) s0).
  { unfold stopping, s0.
    cbn [Goroutines.readerAt Goroutines.captureHolds Goroutines.decoderHolds
         Goroutines.inquisitor capturing decoding dispatching trace emitted].
    rewrite stopSignals_app. cbn. rewrite app_nil_r. repeat split; assumption. }
  change (Goroutines.run (Goroutines.ReadPacketData ReadEOF :: mvs) (Goroutines.idle i))
    with (Goroutines.run mvs s0) in Hrun.
  pose proof (stopping_run _ mvs s0 s H0 Hrun) as Hs.
  split; [apply Hs|]. split; [apply Hs|]. split.
  - destruct (Goroutines.readerAt s) as [|t|st|] eqn:Hr.
    + destruct Hs as (_ & _ & H). now rewrite Hr in H.
    + destruct Hs as (_ & _ & H). now rewrite Hr in H.
    + left. destruct (stopping_StopChan _ s st Hs Hr) as (s' & H1 & H2 & _).
      exists st, s'. repeat split; assumption.
    + right. destruct Hs as (_ & _ & H). rewrite Hr in H.
      split; [reflexivity | exact H].
  - destruct (stopping_StopChan _ s0 Dispatch H0 eq_refl) as (s1 & E1 & R1 & H1).
    destruct (stopping_StopChan _ s1 Decode H1 R1) as (s2 & E2 & R2 & H2).
    destruct (stopping_StopChan _ s2 Capture H2 R2) as (s3 & E3 & R3 & _).
    exists s3. split; [|exact R3].
    change (Goroutines.run [Goroutines.ReadPacketData ReadEOF; Goroutines.StopChan;
                            Goroutines.StopChan; Goroutines.StopChan] (Goroutines.idle i))
      with (Goroutines.run [Goroutines.StopChan; Goroutines.StopChan; Goroutines.StopChan]
              s0).
    cbn [Goroutines.run]. rewrite E1, E2, E3. reflexivity.
Qed.

End Stopping.

Lemma EOF_at_rest_never_hangs_witness :
  exists s3,
    fixtureRun [Goroutines.ReadPacketData ReadEOF; Goroutines.StopChan;
                Goroutines.StopChan; Goroutines.StopChan]
      (Goroutines.idle (Fixture.started 0 100))
    = Goroutines.Next s3
    /\ Goroutines.readerAt s3 = Goroutines.ReaderReturned.
Proof.
  destruct (EOF_at_rest_never_hangs
              (decEthernet := Fixture.decEthernet) (decIPv4 := Fixture.decIPv4)
              (decTCP := Fixture.decTCP)
              (Fixture.started 0 100) []
              (Goroutines.mkState (emitted (EvLog LogEOF) (Fixture.started 0 100))
                 (Goroutines.InStop Dispatch) None None))
    as (_ & _ & _ & H).
  - vm_compute. reflexivity.
  - vm_compute. reflexivity.
  - vm_compute. reflexivity.
  - reflexivity.
  - exact H.
Defined.

(** ** Reading and decoding *)

Section PipelineMore.

Context {decEthernet : DecodingLayer Ethernet}.
Context {decIPv4 : DecodingLayer IPv4}.
Context {decTCP : DecodingLayer TCP}.

Lemma reader_cons (r : ReadResult) (rest : list ReadResult) (i : Inquisitor) :
  reader (r :: rest) i
  = match readerStep r i with
    | Done Continue j => reader rest j
    | Done Return j => Done tt j
    | Panic j => Panic j
    | Blocked j => Blocked j
    end.
Proof.
  change (reader (r :: rest) i)
    with (bind (readerStep r)
               (fun l => match l with Return => ret tt | Continue => reader rest end) i).
  unfold bind. destruct (readerStep r i) as [[] j | j | j]; reflexivity.
Qed.

Definition isReadError (r : ReadResult) : bool :=
  match r with ReadError => true | _ => false end.

(** Read errors other than EOF leave no mark: the reading goroutine
    behaves as if they had not been returned. And it ends at the first EOF:
    nothing is read after it. *)
Theorem reader_skips_errors_and_ends_at_EOF (rs : list ReadResult) (i : Inquisitor) :
  reader rs i = reader (List.filter (fun r => negb (isReadError r)) rs) i
  /\ forall post, reader (rs ++ ReadEOF :: post) i = reader (rs ++ [ReadEOF]) i.
Proof.
  split.
  - revert i. induction rs as [|r rs IH]; intros i; [reflexivity|].
    destruct r as [| |raw ts]; cbn [List.filter isReadError negb].
    + rewrite !reader_cons. destruct (readerStep ReadEOF i) as [[] j | j | j];
        [apply IH | | |]; reflexivity.
    + rewrite reader_cons. cbn [readerStep]. unfold ret. apply IH.
    + rewrite !reader_cons. destruct (readerStep (ReadData raw ts) i) as [[] j | j | j];
        [apply IH | | |]; reflexivity.
  - intros post. revert i. induction rs as [|r rs IH]; intros i; cbn [app].
    + rewrite !reader_cons.
      assert (H : forall o, readerStep ReadEOF i = o ->
                  match o with Done Continue _ => False | _ => True end).
      { intros o <-. unfold readerStep, bind.
        destruct (log LogEOF i) as [[] j | j | j]; [|exact I|exact I].
        destruct (Stop j) as [[] k | k | k]; [|exact I|exact I].
        destruct (emit EvCloseTchan k) as [[] k' | k' | k']; exact I. }
      specialize (H _ eq_refl).
      destruct (readerStep ReadEOF i) as [[] j | j | j]; [contradiction | | |]; reflexivity.
    + rewrite !reader_cons. destruct (readerStep r i) as [[] j | j | j];
        [apply IH | | |]; reflexivity.
Qed.

(** The moves of one turn of the reading goroutine when each handoff of
    its packet is taken before anything else happens. *)
Definition movesOf (r : ReadResult) (i : Inquisitor) : list Goroutines.Move :=
  match r with
  | ReadEOF =>
      [Goroutines.ReadPacketData ReadEOF; Goroutines.StopChan; Goroutines.StopChan;
       Goroutines.StopChan]
  | ReadError => [Goroutines.ReadPacketData ReadError]
  | ReadData rawPacket timestamp =>
      [Goroutines.ReadPacketData r; Goroutines.Tchan; Goroutines.DecodePacketChan]
      ++ match (decodeOne (mkTimedRawPacket timestamp rawPacket) (vars i)).2 with
         | Some _ => [Goroutines.DispatchPacketChan]
         | None => []
         end
  end.

(** [readerStep] describes one schedule of the goroutines among others:
    from a pipeline at rest, with no close request waiting, it ends as the
    moves of [movesOf] do, with the pipeline at rest again, or the reading
    goroutine returned after EOF. *)
Theorem readerStep_is_one_schedule (r : ReadResult) (i : Inquisitor) :
  capturing i = true -> decoding i = true -> dispatching i = true ->
  closeConnectionChan i = [] ->
  Goroutines.run (movesOf r i) (Goroutines.idle i)
  = match readerStep r i with
    | Done Continue j => Goroutines.Next (Goroutines.idle j)
    | Done Return j =>
        Goroutines.Next (Goroutines.mkState j Goroutines.ReaderReturned None None)
    | Panic j => Goroutines.Crash (Goroutines.idle j)
    | Blocked j => Goroutines.Disabled
    end.
Proof.
  intros Hc Hd Hp Hq. destruct r as [| |rawPacket timestamp].
  - set (i0 := emitted (EvLog LogEOF) i).
    assert (Hstep : readerStep ReadEOF i
                    = Done Return (emitted EvCloseTchan (shutDown i0))).
    { unfold readerStep, bind, log, emit, modify.
      change (emitted (EvLog LogEOF) i) with i0.
      rewrite (Stop_eq i0 Hc Hd Hp). reflexivity. }
    rewrite Hstep.
    assert (Hpoll : polled i0 = i0) by (unfold polled; cbn; now rewrite Hq).
    cbn [movesOf]. rewrite run_cons.
    change (Goroutines.step (Goroutines.ReadPacketData ReadEOF) (Goroutines.idle i))
      with (Goroutines.Next
              (Goroutines.mkState i0 (Goroutines.InStop Dispatch) None None)).
    cbv beta iota.
    rewrite run_cons, (StopChan_Dispatch i0 None None Hp), Hpoll. cbv beta iota.
    rewrite run_cons, StopChan_Decode by exact Hd. cbv beta iota.
    rewrite run_cons, StopChan_Capture by exact Hc. cbv beta iota.
    reflexivity.
  - reflexivity.
  - pose (t := mkTimedRawPacket timestamp rawPacket).
    assert (Hsync : readerStep (ReadData rawPacket timestamp) i
                    = match (decodeOne t (vars i)).2 with
                      | None => Done Continue (with_vars (decodeOne t (vars i)).1 i)
                      | Some m =>
                          match dispatchIteration (Manifest m)
                                  (with_vars (decodeOne t (vars i)).1 i) with
                          | Done _ j => Done Continue j
                          | Panic j => Panic j
                          | Blocked j => Blocked j
                          end
                      end).
    { unfold readerStep, sendToCapture, sendToDecode, bind, gets.
      rewrite Hc, Hd. fold t. destruct (decodeOne t (vars i)) as [v' [m|]]; cbn [fst snd].
      - unfold modify at 1. unfold sendToDispatch, bind, gets.
        cbn [dispatching with_vars]. rewrite Hp.
        destruct (dispatchIteration (Manifest m) (with_vars v' i)); reflexivity.
      - reflexivity. }
    rewrite Hsync. cbn [movesOf]. fold t. rewrite run_app.
    assert (Hrun : Goroutines.run
                     [Goroutines.ReadPacketData (ReadData rawPacket timestamp);
                      Goroutines.Tchan; Goroutines.DecodePacketChan] (Goroutines.idle i)
                   = Goroutines.Next
                       (Goroutines.mkState (with_vars (decodeOne t (vars i)).1 i)
                          Goroutines.AtRead None (decodeOne t (vars i)).2)).
    { cbn [Goroutines.run Goroutines.step Goroutines.idle Goroutines.readerAt
           Goroutines.inquisitor Goroutines.captureHolds Goroutines.decoderHolds].
      unfold Goroutines.atSelect at 1.
      cbn [running Goroutines.inquisitor Goroutines.captureHolds Goroutines.holdsNothing].
      rewrite Hc. cbn [andb].
      cbn [Goroutines.step Goroutines.readerAt Goroutines.inquisitor
           Goroutines.captureHolds Goroutines.decoderHolds].
      unfold Goroutines.atSelect at 1.
      cbn [running Goroutines.inquisitor Goroutines.decoderHolds Goroutines.holdsNothing].
      rewrite Hd. cbn [andb]. fold t. now destruct (decodeOne t (vars i)). }
    rewrite Hrun. destruct (decodeOne t (vars i)) as [v' [m|]]; cbn [fst snd].
    + cbn [Goroutines.run Goroutines.step Goroutines.decoderHolds Goroutines.readerAt
           Goroutines.captureHolds Goroutines.inquisitor].
      unfold Goroutines.atSelect. cbn [running Goroutines.inquisitor with_vars dispatching].
      rewrite Hp. cbn [andb]. unfold Goroutines.after.
      destruct (dispatchIteration (Manifest m) (with_vars v' i)); reflexivity.
    + reflexivity.
Qed.

(** What the parser decoded of a packet, and what it left alone: the
    layers it lists in [decoded] come after those listed before, and a
    header variable whose layer is not among the new ones keeps its value. *)
Lemma decodeLoop_headers (fuel : nat) :
  forall (typ : LayerType) (data : list Byte.byte) (v v' : DecoderVars),
    decodeLoop fuel typ data v = (v', None) ->
    exists ds, decoded v' = decoded v ++ ds
               /\ (LayerTypeIPv4 ∉ ds -> ip v' = ip v)
               /\ (LayerTypeTCP ∉ ds -> tcp v' = tcp v).
Proof.
  induction fuel as [|fuel IH]; intros typ data v v';
    destruct data as [|b data]; cbn [decodeLoop];
    try (intros [= <-]; exists []; rewrite app_nil_r; repeat split; reflexivity);
    try discriminate.
  destruct typ; try discriminate.
  - destruct (DecodeFromBytes (b :: data)) as [l|]; [|discriminate].
    intros H. apply IH in H as (ds & Hd & Hi & Ht). cbn in Hd, Hi, Ht.
    exists (LayerTypeEthernet :: ds). rewrite Hd, <- app_assoc.
    split; [reflexivity|]. rewrite !not_elem_of_cons. split; intros [_ H]; auto.
  - destruct (DecodeFromBytes (b :: data)) as [l|]; [|discriminate].
    intros H. apply IH in H as (ds & Hd & Hi & Ht). cbn in Hd, Hi, Ht.
    exists (LayerTypeIPv4 :: ds). rewrite Hd, <- app_assoc.
    split; [reflexivity|]. rewrite !not_elem_of_cons.
    split; [intros [H _]; congruence | intros [_ H]; auto].
  - destruct (DecodeFromBytes (b :: data)) as [l|]; [|discriminate].
    intros H. apply IH in H as (ds & Hd & Hi & Ht). cbn in Hd, Hi, Ht.
    exists (LayerTypeTCP :: ds). rewrite Hd, <- app_assoc.
    split; [reflexivity|]. rewrite !not_elem_of_cons.
    split; [intros [_ H]; auto | intros [H _]; congruence].
  - intros H. apply IH in H as (ds & Hd & Hi & Ht). cbn in Hd, Hi, Ht.
    exists (LayerTypePayload :: ds). rewrite Hd, <- app_assoc.
    split; [reflexivity|]. rewrite !not_elem_of_cons. split; intros [_ H]; auto.
Qed.

(** Unlike the payload, the header variables are not reset before a
    packet is parsed. When the parser succeeds without having decoded the
    IPv4 layer, or the TCP layer, the manifest is sent all the same, with
    the header the previous packet left in the variable, and with the flow
    computed from it. An empty raw packet is the plain case: nothing is
    decoded, and a manifest with both old headers goes out. *)
Theorem headers_of_the_previous_packet (p : TimedRawPacket) (v v' : DecoderVars)
    (m : PacketManifest) :
  decodeOne p v = (v', Some m) ->
  (LayerTypeIPv4 ∉ decoded v' -> IP m = ip v /\ ipFlow (Flow m) = NetworkFlow (ip v))
  /\ (LayerTypeTCP ∉ decoded v' -> TCP_ m = tcp v /\ tcpFlow (Flow m) = TransportFlow (tcp v))
  /\ (raw_RawPacket p = [] ->
      decoded v' = [] /\ IP m = ip v /\ TCP_ m = tcp v /\ Payload m = []
      /\ Timestamp m = raw_Timestamp p).
Proof.
  unfold decodeOne, DecodeLayers.
  destruct (decodeLoop _ _ _ _) as [w err] eqn:Hloop.
  destruct err; [discriminate|]. intros [= <- <-].
  destruct (decodeLoop_headers _ _ _ _ _ Hloop) as (ds & Hd & Hi & Ht).
  cbn [decoded ip tcp set_decoded set_payload app] in Hd, Hi, Ht.
  cbn [IP TCP_ Flow Payload Timestamp NewTcpIpFlowFromFlows ipFlow tcpFlow].
  rewrite Hd. split; [|split].
  - intros H. rewrite (Hi H). split; reflexivity.
  - intros H. rewrite (Ht H). split; reflexivity.
  - intros Hraw. rewrite Hraw in Hloop. cbn in Hloop. injection Hloop as <-.
    cbn in Hd. subst ds. cbn. repeat split; reflexivity.
Qed.

End PipelineMore.

Lemma readerStep_is_one_schedule_witness :
  fixtureRun
    (movesOf (decEthernet := Fixture.decEthernet) (decIPv4 := Fixture.decIPv4)
       (decTCP := Fixture.decTCP) (ReadData (Fixture.frame Fixture.hello) 7)
       (Fixture.started 0 100))
    (Goroutines.idle (Fixture.started 0 100))
  = match readerStep (decEthernet := Fixture.decEthernet) (decIPv4 := Fixture.decIPv4)
            (decTCP := Fixture.decTCP) (ReadData (Fixture.frame Fixture.hello) 7)
            (Fixture.started 0 100) with
    | Done Continue j => Goroutines.Next (Goroutines.idle j)
    | Done Return j =>
        Goroutines.Next (Goroutines.mkState j Goroutines.ReaderReturned None None)
    | Panic j => Goroutines.Crash (Goroutines.idle j)
    | Blocked j => Goroutines.Disabled
    end.
Proof.
  refine (readerStep_is_one_schedule
            (decEthernet := Fixture.decEthernet) (decIPv4 := Fixture.decIPv4)
            (decTCP := Fixture.decTCP) (ReadData (Fixture.frame Fixture.hello) 7)
            (Fixture.started 0 100) _ _ _ _); vm_compute; reflexivity.
Defined.

(** The variables after a frame from 1.2.3.4:1 to 2.3.4.5:2 was decoded. *)
Definition afterHello : DecoderVars :=
  (decodeOne (decEthernet := Fixture.decEthernet) (decIPv4 := Fixture.decIPv4)
     (decTCP := Fixture.decTCP)
     (mkTimedRawPacket 7 (Fixture.frame Fixture.hello)) Fixture.zeroVars).1.

Lemma headers_of_the_previous_packet_witness :
  exists m,
    (decodeOne (decEthernet := Fixture.decEthernet) (decIPv4 := Fixture.decIPv4)
       (decTCP := Fixture.decTCP) (mkTimedRawPacket 8 []) afterHello).2 = Some m
    /\ IP m = ip afterHello
    /\ TCP_ m = tcp afterHello.
Proof.
  destruct (decodeOne (decEthernet := Fixture.decEthernet) (decIPv4 := Fixture.decIPv4)
              (decTCP := Fixture.decTCP) (mkTimedRawPacket 8 []) afterHello)
    as [v' [m|]] eqn:E.
  - exists m. split; [reflexivity|].
    destruct (headers_of_the_previous_packet
                (decEthernet := Fixture.decEthernet) (decIPv4 := Fixture.decIPv4)
                (decTCP := Fixture.decTCP)
                (mkTimedRawPacket 8 []) afterHello v' m E) as (_ & _ & H).
    destruct (H eq_refl) as (_ & H1 & H2 & _). split; assumption.
  - vm_compute in E. discriminate.
Defined.


(* ===================================================================== *)
(** * Further properties of the first-generation Inquisitor *)

Lemma Legacy_CloseAll_range_spec (cs : list nat) :
  forall a : Legacy.Inquisitor,
    let r := Legacy.CloseAllConnections_range cs a in
    Legacy.connPool r = Legacy.connPool a
    /\ Legacy.trace r = Legacy.trace a ++ map EvClose cs
    /\ forall c, Legacy.conns r !! c
                 = closedIf (bool_decide (c ∈ cs)) <$> Legacy.conns a !! c.
Proof.
  induction cs as [|d cs IH]; intros a; cbn zeta; cbn [Legacy.CloseAllConnections_range].
  - rewrite app_nil_r. repeat split. intros c. now destruct (Legacy.conns a !! c).
  - destruct (IH (Legacy.Close d a)) as (I1 & I2 & I3).
    cbn [Legacy.Close Legacy.conns Legacy.trace Legacy.connPool] in *.
    split; [exact I1|]. split; [rewrite I2, <- app_assoc; reflexivity|].
    intros c. rewrite I3, lookup_alter.
    destruct (decide (d = c)) as [<-|Hcd].
    + rewrite (bool_decide_true (d ∈ d :: cs)) by apply list_elem_of_here.
      destruct (Legacy.conns a !! d) as [x|]; [|reflexivity]. simpl.
      now destruct (bool_decide (d ∈ cs)).
    + destruct (bool_decide_reflect (c ∈ cs)).
      * rewrite (bool_decide_true (c ∈ d :: cs)) by (now apply list_elem_of_further).
        reflexivity.
      * rewrite (bool_decide_false (c ∈ d :: cs))
          by (rewrite elem_of_cons; intros [?|?]; congruence).
        reflexivity.
Qed.

(** [CloseAllConnections] calls [Close] once on each connection of the
    pool, in the order [Connections()] lists them, and touches no other
    connection; the pool itself is not changed by the call. *)
Theorem Legacy_CloseAllConnections_closes_each_once (a : Legacy.Inquisitor) :
  let r := Legacy.CloseAllConnections a in
  Legacy.connPool r = Legacy.connPool a
  /\ Legacy.trace r
     = Legacy.trace a ++ EvLog LogCloseAllConnections
         :: map EvClose (pool.Connections (Legacy.connPool a))
  /\ (forall c conn, Legacy.conns a !! c = Some conn ->
        Legacy.conns r !! c
        = Some (if bool_decide (c ∈ pool.Connections (Legacy.connPool a))
                then set_closing conn else conn)).
Proof.
  cbn zeta. unfold Legacy.CloseAllConnections.
  destruct (Legacy_CloseAll_range_spec (pool.Connections (Legacy.connPool a))
              (Legacy.log LogCloseAllConnections a)) as (H1 & H2 & H3).
  cbn [Legacy.log Legacy.connPool Legacy.conns Legacy.trace] in *.
  split; [exact H1|]. split; [rewrite H2, <- app_assoc; reflexivity|].
  intros c conn Hc. rewrite H3, Hc. simpl. now destruct (bool_decide _).
Qed.

Lemma filter_all_true {A} (f : A -> bool) (l : list A) :
  (forall x, x ∈ l -> f x = true) -> List.filter f l = l.
Proof.
  induction l as [|x l IH]; intros H; [reflexivity|]. cbn.
  rewrite (H x) by apply list_elem_of_here. f_equal. apply IH.
  intros y Hy. apply H. now apply list_elem_of_further.
Qed.

(** With a threshold that no connection of the pool has outlived,
    [CloseOlderThan] does what [CloseAllConnections] does: the same [Close]
    calls in the same order, the same connections afterwards, and the
    number of connections of the pool as its count. *)
Theorem Legacy_CloseOlderThan_late_is_CloseAll (t : Z) (a : Legacy.Inquisitor) :
  Z.of_nat (length (pool.Connections (Legacy.connPool a))) < 2 ^ 63 ->
  (forall c, c ∈ pool.Connections (Legacy.connPool a) ->
             exists conn, Legacy.conns a !! c = Some conn /\ lastSeen conn <= t) ->
  (Legacy.CloseOlderThan t a).1
  = Z.of_nat (length (pool.Connections (Legacy.connPool a)))
  /\ Legacy.conns (Legacy.CloseOlderThan t a).2
     = Legacy.conns (Legacy.CloseAllConnections a)
  /\ Legacy.trace (Legacy.CloseOlderThan t a).2
     = Legacy.trace a ++ EvLog (LogCloseOlderThan t)
         :: map EvClose (pool.Connections (Legacy.connPool a)).
Proof.
  intros Hlen Hall.
  destruct (Legacy_CloseOlderThan_spec t a Hlen) as (H1 & _ & H3 & H4).
  assert (Hf : List.filter (pool.seenBy (Legacy.conns a) t)
                           (pool.Connections (Legacy.connPool a))
               = pool.Connections (Legacy.connPool a)).
  { apply filter_all_true. intros c Hc. destruct (Hall c Hc) as (conn & Hconn & Hle).
    unfold pool.seenBy. rewrite Hconn. now apply Z.leb_le. }
  rewrite Hf in H1, H3, H4. split; [exact H1|]. split; [|exact H3].
  apply map_eq. intros c. rewrite H4.
  unfold Legacy.CloseAllConnections.
  destruct (Legacy_CloseAll_range_spec (pool.Connections (Legacy.connPool a))
              (Legacy.log LogCloseAllConnections a)) as (_ & _ & H).
  cbn [Legacy.log Legacy.connPool Legacy.conns] in H. now rewrite H.
Qed.

Lemma Legacy_CloseOlderThan_late_is_CloseAll_witness :
  (Legacy.CloseOlderThan 20 Fixture.legacy).1 = 2.
Proof.
  destruct (Legacy_CloseOlderThan_late_is_CloseAll 20 Fixture.legacy) as (H & _).
  - vm_compute. reflexivity.
  - assert (E : pool.Connections (Legacy.connPool Fixture.legacy) = [0%nat; 1%nat])
      by (vm_compute; reflexivity).
    intros c Hc. rewrite E in Hc. apply list_elem_of_In in Hc.
    destruct Hc as [<-|[<-|[]]].
    + exists (mkConnection 5 true false false []).
      split; [vm_compute; reflexivity | vm_compute; discriminate].
    + exists (mkConnection 20 true false false []).
      split; [vm_compute; reflexivity | vm_compute; discriminate].
  - rewrite H. vm_compute. reflexivity.
Defined.

Lemma filter_length_mono {A} (f g : A -> bool) (l : list A) :
  (forall x, f x = true -> g x = true) ->
  (length (List.filter f l) <= length (List.filter g l))%nat.
Proof.
  intros H. induction l as [|x l IH]; [reflexivity|]. cbn.
  destruct (f x) eqn:Hf.
  - rewrite (H x Hf). cbn. lia.
  - destruct (g x); cbn; lia.
Qed.

(** [CloseOlderThan] grows with its threshold: with a later threshold it
    closes every connection it closes with an earlier one, and returns a
    count at least as large. *)
Theorem Legacy_CloseOlderThan_monotone (t t' : Z) (a : Legacy.Inquisitor) :
  Z.of_nat (length (pool.Connections (Legacy.connPool a))) < 2 ^ 63 ->
  t <= t' ->
  (Legacy.CloseOlderThan t a).1 <= (Legacy.CloseOlderThan t' a).1
  /\ forall c, EvClose c ∈ Legacy.trace (Legacy.CloseOlderThan t a).2 ->
               EvClose c ∈ Legacy.trace (Legacy.CloseOlderThan t' a).2.
Proof.
  intros Hlen Htt.
  destruct (Legacy_CloseOlderThan_spec t a Hlen) as (H1 & _ & H3 & _).
  destruct (Legacy_CloseOlderThan_spec t' a Hlen) as (H1' & _ & H3' & _).
  assert (Himp : forall c, pool.seenBy (Legacy.conns a) t c = true ->
                           pool.seenBy (Legacy.conns a) t' c = true).
  { intros c. unfold pool.seenBy. destruct (Legacy.conns a !! c); [|discriminate].
    rewrite !Z.leb_le. lia. }
  split.
  - rewrite H1, H1'. apply inj_le. now apply filter_length_mono.
  - intros c. rewrite H3, H3'. rewrite !elem_of_app, !elem_of_cons, !list_elem_of_fmap.
    intros [H|[H|(d & [= <-] & Hd)]]; [now left | discriminate |].
    right. right. exists c. split; [reflexivity|].
    rewrite list_elem_of_In, filter_In in *. destruct Hd as [Hin Hs].
    split; [exact Hin | now apply Himp].
Qed.

Lemma Legacy_CloseOlderThan_monotone_witness :
  (Legacy.CloseOlderThan 10 Fixture.legacy).1 <= (Legacy.CloseOlderThan 20 Fixture.legacy).1.
Proof.
  destruct (Legacy_CloseOlderThan_monotone 10 20 Fixture.legacy) as [H _].
  - vm_compute. reflexivity.
  - vm_compute. discriminate.
  - exact H.
Defined.

(** [CloseOlderThan] returns 0 exactly when no connection of the pool was
    last seen at or before the threshold, and then it has called [Close] on
    nothing and left every connection as it was: only its log line is
    added. An empty pool is the plain case. *)
Theorem Legacy_CloseOlderThan_zero (t : Z) (a : Legacy.Inquisitor) :
  Z.of_nat (length (pool.Connections (Legacy.connPool a))) < 2 ^ 63 ->
  ((Legacy.CloseOlderThan t a).1 = 0
   <-> forall c conn, c ∈ pool.Connections (Legacy.connPool a) ->
                      Legacy.conns a !! c = Some conn -> t < lastSeen conn)
  /\ ((Legacy.CloseOlderThan t a).1 = 0 ->
      Legacy.conns (Legacy.CloseOlderThan t a).2 = Legacy.conns a
      /\ Legacy.trace (Legacy.CloseOlderThan t a).2
         = Legacy.trace a ++ [EvLog (LogCloseOlderThan t)]).
Proof.
  intros Hlen.
  destruct (Legacy_CloseOlderThan_spec t a Hlen) as (H1 & _ & H3 & H4).
  set (old := List.filter (pool.seenBy (Legacy.conns a) t)
                          (pool.Connections (Legacy.connPool a))) in *.
  assert (Hnil : (Legacy.CloseOlderThan t a).1 = 0 <-> old = []).
  { rewrite H1. destruct old; cbn; split; intros H; try reflexivity; try discriminate; lia. }
  split.
  - rewrite Hnil. split.
    + intros Ho c conn Hin Hc.
      destruct (Z.lt_ge_cases t (lastSeen conn)) as [Hlt|Hge]; [exact Hlt|].
      assert (Hc' : c ∈ old).
      { unfold old. rewrite list_elem_of_In, filter_In, <- list_elem_of_In.
        split; [exact Hin|]. unfold pool.seenBy. rewrite Hc. apply Z.leb_le. lia. }
      rewrite Ho in Hc'. now apply elem_of_nil in Hc'.
    + intros Hall.
      assert (Hnone : forall c, c ∈ old -> False).
      { intros c Hc. unfold old in Hc.
        rewrite list_elem_of_In, filter_In, <- list_elem_of_In in Hc.
        destruct Hc as [Hin Hs]. unfold pool.seenBy in Hs.
        destruct (Legacy.conns a !! c) as [conn|] eqn:Hconn; [|discriminate].
        apply Z.leb_le in Hs. specialize (Hall c conn Hin Hconn). lia. }
      clear -Hnone. clearbody old. destruct old as [|c old']; [reflexivity|].
      exfalso. apply (Hnone c). apply list_elem_of_here.
  - intros Hz. apply Hnil in Hz. rewrite Hz in H3, H4. split; [|exact H3].
    apply map_eq. intros c. rewrite H4. now destruct (Legacy.conns a !! c).
Qed.

Lemma Legacy_CloseOlderThan_zero_witness :
  Legacy.conns (Legacy.CloseOlderThan 1 Fixture.legacy).2 = Legacy.conns Fixture.legacy.
Proof.
  destruct (Legacy_CloseOlderThan_zero 1 Fixture.legacy) as (_ & H).
  - vm_compute. reflexivity.
  - destruct H as [H _]; [vm_compute; reflexivity | exact H].
Defined.

(* ===================================================================== *)
(** * From a packet read to a connection *)

Section EndToEnd.

Context {decEthernet : DecodingLayer Ethernet}.
Context {decIPv4 : DecodingLayer IPv4}.
Context {decTCP : DecodingLayer TCP}.

(** A raw packet the parser accepts, read with the pipeline at rest, as
    far as the decoder: the decoder stands at its send with the manifest. *)
Lemma run_to_the_decoder (i : Inquisitor) (rawPacket : list Byte.byte) (timestamp : Z)
    (v' : DecoderVars) :
  capturing i = true -> decoding i = true ->
  DecodeLayers rawPacket (set_payload [] (vars i)) = (v', None) ->
  Goroutines.run
    [Goroutines.ReadPacketData (ReadData rawPacket timestamp); Goroutines.Tchan;
     Goroutines.DecodePacketChan] (Goroutines.idle i)
  = Goroutines.Next
      (Goroutines.mkState (with_vars v' i) Goroutines.AtRead None
         (Some (mkPacketManifest timestamp
                  (NewTcpIpFlowFromFlows (NetworkFlow (ip v')) (TransportFlow (tcp v')))
                  rawPacket (ip v') (tcp v') (payload v')))).
Proof.
  intros Hc Hd He.
  pose proof (decodeOne_ok (mkTimedRawPacket timestamp rawPacket) (vars i) v' He) as Hone.
  cbn [raw_Timestamp raw_RawPacket] in Hone.
  cbn [Goroutines.run Goroutines.step Goroutines.idle Goroutines.readerAt
       Goroutines.inquisitor Goroutines.captureHolds Goroutines.decoderHolds].
  unfold Goroutines.atSelect at 1.
  cbn [running Goroutines.inquisitor Goroutines.captureHolds Goroutines.holdsNothing].
  rewrite Hc. cbn [andb].
  cbn [Goroutines.step Goroutines.readerAt Goroutines.inquisitor
       Goroutines.captureHolds Goroutines.decoderHolds].
  unfold Goroutines.atSelect at 1.
  cbn [running Goroutines.inquisitor Goroutines.decoderHolds Goroutines.holdsNothing].
  rewrite Hd, Hone. reflexivity.
Qed.

(** A raw packet that the parser accepts, read with the pipeline at rest,
    reaches the connection of its flow when its three handoffs take place
    (nothing makes them: a [Stop] in between leaves the manifest with the
    decoder), unless the flow is new and the pool is full. The manifest
    handed over carries the capture timestamp and the raw bytes as they
    were read, the headers and payload the parser left in the decoder's
    variables, and the flow made of the addresses and ports of those
    headers; afterwards every goroutine is back at the head of its loop and
    the pool holds the receiver under that flow. *)
Theorem read_packet_reaches_its_connection (i : Inquisitor) (rawPacket : list Byte.byte)
    (timestamp : Z) (v' : DecoderVars) :
  capturing i = true -> decoding i = true -> dispatching i = true ->
  DecodeLayers rawPacket (set_payload [] (vars i)) = (v', None) ->
  let flow := NewTcpIpFlowFromFlows (NetworkFlow (ip v')) (TransportFlow (tcp v')) in
  let m := mkPacketManifest timestamp flow rawPacket (ip v') (tcp v') (payload v') in
  MaxConcurrentConnections (options i) = 0
  \/ pool.Has (pool_ i) flow = true
  \/ Z.of_nat (pool.Len (pool_ i)) < MaxConcurrentConnections (options i) ->
  exists conn s,
    Goroutines.run
      [Goroutines.ReadPacketData (ReadData rawPacket timestamp); Goroutines.Tchan;
       Goroutines.DecodePacketChan; Goroutines.DispatchPacketChan] (Goroutines.idle i)
    = Goroutines.Next s
    /\ Goroutines.readerAt s = Goroutines.AtRead
    /\ Goroutines.captureHolds s = None
    /\ Goroutines.decoderHolds s = None
    /\ last (trace (Goroutines.inquisitor s)) = Some (EvReceivePacket conn m)
    /\ pool.Get (pool_ (Goroutines.inquisitor s)) flow = Some conn
    /\ (pool.Has (pool_ i) flow = true -> pool_ (Goroutines.inquisitor s) = pool_ i).
Proof.
  intros Hc Hd Hp He flow m Hroom.
  change [Goroutines.ReadPacketData (ReadData rawPacket timestamp); Goroutines.Tchan;
          Goroutines.DecodePacketChan; Goroutines.DispatchPacketChan]
    with ([Goroutines.ReadPacketData (ReadData rawPacket timestamp); Goroutines.Tchan;
           Goroutines.DecodePacketChan] ++ [Goroutines.DispatchPacketChan]).
  rewrite run_app, (run_to_the_decoder i rawPacket timestamp v' Hc Hd He).
  fold flow. fold m.
  cbn [Goroutines.run Goroutines.step Goroutines.decoderHolds Goroutines.readerAt
       Goroutines.captureHolds Goroutines.inquisitor].
  unfold Goroutines.atSelect. cbn [running Goroutines.inquisitor with_vars dispatching].
  rewrite Hp. cbn [andb]. unfold Goroutines.after.
  rewrite dispatchIteration_eq. cbn [selected].
  set (i1 := polled (with_vars v' i)).
  assert (Hpool : pool_ i1 = pool_ i) by (unfold i1; now rewrite polled_pool).
  assert (Hopts : options i1 = options i) by (unfold i1; now rewrite polled_options).
  destruct (onManifest_cases i1 m)
    as [(conn & HG & ->)|[(HH & Hne & Hge & _)|(HH & _ & ->)]].
  - exists conn. eexists. split; [reflexivity|].
    cbn [Goroutines.readerAt Goroutines.captureHolds Goroutines.decoderHolds
         Goroutines.inquisitor].
    do 3 (split; [reflexivity|]).
    rewrite delivered_trace, delivered_pool.
    split; [apply last_snoc|]. split; [exact HG|]. intros _. exact Hpool.
  - exfalso. rewrite Hpool, Hopts in *. cbn [Flow m] in HH.
    destruct Hroom as [Hz|[Hhas|Hlt]]; [contradiction | congruence | lia].
  - exists (fresh (dom (conns i1))). eexists. split; [reflexivity|].
    cbn [Goroutines.readerAt Goroutines.captureHolds Goroutines.decoderHolds
         Goroutines.inquisitor].
    do 3 (split; [reflexivity|]).
    rewrite delivered_trace, delivered_pool, setUp_pool.
    split; [apply last_snoc|]. split.
    + unfold pool.Get, pool.Put; cbn. apply lookup_insert_eq.
    + intros Hhas. rewrite Hpool in HH. cbn [Flow m] in HH. congruence.
Qed.

End EndToEnd.

Lemma read_packet_reaches_its_connection_witness :
  exists conn s,
    fixtureRun
      [Goroutines.ReadPacketData (ReadData (Fixture.frame Fixture.hello) 7);
       Goroutines.Tchan; Goroutines.DecodePacketChan; Goroutines.DispatchPacketChan]
      (Goroutines.idle (Fixture.started 0 100))
    = Goroutines.Next s
    /\ pool.Get (pool_ (Goroutines.inquisitor s)) Fixture.flow = Some conn.
Proof.
  destruct (read_packet_reaches_its_connection
              (decEthernet := Fixture.decEthernet) (decIPv4 := Fixture.decIPv4)
              (decTCP := Fixture.decTCP)
              (Fixture.started 0 100) (Fixture.frame Fixture.hello) 7
              (fixtureDecodeLayers (Fixture.frame Fixture.hello)
                 (set_payload [] (vars (Fixture.started 0 100)))).1)
    as (conn & s & H1 & _ & _ & _ & _ & H3 & _).
  - vm_compute. reflexivity.
  - vm_compute. reflexivity.
  - vm_compute. reflexivity.
  - vm_compute. reflexivity.
  - left. vm_compute. reflexivity.
  - exists conn, s. split; [exact H1|].
    assert (E : NewTcpIpFlowFromFlows
                  (NetworkFlow (ip (fixtureDecodeLayers (Fixture.frame Fixture.hello)
                     (set_payload [] (vars (Fixture.started 0 100)))).1))
                  (TransportFlow (tcp (fixtureDecodeLayers (Fixture.frame Fixture.hello)
                     (set_payload [] (vars (Fixture.started 0 100)))).1))
                = Fixture.flow) by (vm_compute; reflexivity).
    rewrite E in H3. exact H3.
Defined.

(* ===================================================================== *)
(** * Opening and closing the capture handle *)

Section HandleProperties.

Variable PcapHandle : Type.
Variable TPacket : Type.
Variable NewTPacket : string -> option TPacket.
Variable OpenOffline : string -> option PcapHandle.
Variable OpenLive : string -> Z -> bool -> Duration -> option PcapHandle.
Variable SetBPFFilter : PcapHandle -> string -> bool.

(** [Inquisitor.setupHandle] either ends in [log.Fatal] or leaves a handle
    on which the BPF filter has been installed: it is fatal exactly when the
    open fails or the filter is refused. A file name, when there is one,
    wins over the interface: the handle is then the one [OpenOffline] gave,
    and [OpenLive] is not consulted. *)
Theorem Inquisitor_setupHandle_fatal_or_filtered (o : InquisitorOptions) :
  let opened :=
    if String.eqb (Filename o) EmptyString
    then OpenLive (Interface o) (wrap32 (Snaplen o)) true (WireDuration o)
    else OpenOffline (Filename o) in
  (forall handle,
     Handle.setupHandle PcapHandle OpenOffline OpenLive SetBPFFilter o = Handle.Ready handle
     <-> opened = Some handle /\ SetBPFFilter handle (Filter o) = true)
  /\ (Handle.setupHandle PcapHandle OpenOffline OpenLive SetBPFFilter o = Handle.LogFatal
      <-> opened = None
          \/ exists handle, opened = Some handle /\ SetBPFFilter handle (Filter o) = false)
  /\ (Filename o <> EmptyString ->
      forall OpenLive',
        Handle.setupHandle PcapHandle OpenOffline OpenLive' SetBPFFilter o
        = Handle.setupHandle PcapHandle OpenOffline OpenLive SetBPFFilter o).
Proof.
  cbn zeta. unfold Handle.setupHandle.
  destruct (String.eqb_spec (Filename o) EmptyString) as [He|He]; cbn [negb].
  - split; [|split; [|contradiction]].
    + intros handle.
      destruct (OpenLive _ _ _ _) as [h|]; [|split; [discriminate | intros [? _]; discriminate]].
      destruct (SetBPFFilter h (Filter o)) eqn:Hf; split.
      * intros [= <-]. auto.
      * intros [[= <-] _]. reflexivity.
      * discriminate.
      * intros [[= <-] Hf']. congruence.
    + destruct (OpenLive _ _ _ _) as [h|]; [|split; auto].
      destruct (SetBPFFilter h (Filter o)) eqn:Hf; split.
      * discriminate.
      * intros [?|(h' & [= <-] & Hf')]; [discriminate | congruence].
      * intros _. right. eauto.
      * reflexivity.
  - split; [|split; [|reflexivity]].
    + intros handle.
      destruct (OpenOffline _) as [h|]; [|split; [discriminate | intros [? _]; discriminate]].
      destruct (SetBPFFilter h (Filter o)) eqn:Hf; split.
      * intros [= <-]. auto.
      * intros [[= <-] _]. reflexivity.
      * discriminate.
      * intros [[= <-] Hf']. congruence.
    + destruct (OpenOffline _) as [h|]; [|split; auto].
      destruct (SetBPFFilter h (Filter o)) eqn:Hf; split.
      * discriminate.
      * intros [?|(h' & [= <-] & Hf')]; [discriminate | congruence].
      * intros _. right. eauto.
      * reflexivity.
Qed.

Abbreviation sniffer_setupHandle :=
  (Sniffer.setupHandle PcapHandle TPacket NewTPacket OpenOffline OpenLive SetBPFFilter).
Abbreviation sniffer_Start :=
  (Sniffer.Start PcapHandle TPacket NewTPacket OpenOffline OpenLive SetBPFFilter).
Abbreviation sniffer_Stop := (Sniffer.Stop PcapHandle TPacket).
Abbreviation SnifferT := (Sniffer.Sniffer PcapHandle TPacket).

(** With [UseAfPacket] set, [Sniffer.setupHandle] sniffs the interface
    through AF_PACKET whatever the other options say: a pcap file name is
    ignored, no BPF filter is installed, and the pcap library is not
    consulted at all. It is fatal exactly when [NewTPacket] fails. *)
Theorem Sniffer_setupHandle_afpacket_first (s : SnifferT) :
  Main.s_UseAfPacket (Sniffer.options s) = true ->
  let iface := Main.s_Interface (Sniffer.options s) in
  (forall OpenOffline' OpenLive' SetBPFFilter',
     Sniffer.setupHandle PcapHandle TPacket NewTPacket OpenOffline' OpenLive' SetBPFFilter' s
     = sniffer_setupHandle s)
  /\ (NewTPacket iface = None -> exists s', sniffer_setupHandle s = Sniffer.LogFatal s')
  /\ (forall h, NewTPacket iface = Some h ->
        exists s',
          sniffer_setupHandle s = Sniffer.Done tt s'
          /\ Sniffer.tpacketHandle s' = Some h
          /\ Sniffer.packetDataSource s' = Sniffer.FromTPacket (Some h)
          /\ Sniffer.pcapHandle s' = Sniffer.pcapHandle s
          /\ Sniffer.trace s'
             = Sniffer.trace s ++ [Sniffer.EvLog (Sniffer.LogAfPacket iface)]).
Proof.
  intros Hu. cbn zeta.
  unfold Sniffer.setupHandle, Sniffer.bind, Sniffer.gets. rewrite Hu.
  split; [reflexivity|]. split.
  - intros ->. eexists. reflexivity.
  - intros h ->. eexists. split; [reflexivity|]. cbn. repeat split.
Qed.

(** Reading from a pcap file (no AF_PACKET, a file name), [setupHandle]
    never ends in [log.Fatal]: the error of [OpenOffline] is not looked at.
    The sniffer is left with whatever pointer [OpenOffline] returned, nil if
    it failed, and no BPF filter is installed on it. *)
Theorem Sniffer_setupHandle_file_never_fatal (s : SnifferT) :
  Main.s_UseAfPacket (Sniffer.options s) = false ->
  Main.s_Filename (Sniffer.options s) <> EmptyString ->
  let file := Main.s_Filename (Sniffer.options s) in
  (forall OpenLive' SetBPFFilter',
     Sniffer.setupHandle PcapHandle TPacket NewTPacket OpenOffline OpenLive' SetBPFFilter' s
     = sniffer_setupHandle s)
  /\ exists s',
       sniffer_setupHandle s = Sniffer.Done tt s'
       /\ Sniffer.pcapHandle s' = OpenOffline file
       /\ Sniffer.packetDataSource s' = Sniffer.FromPcap (OpenOffline file)
       /\ Sniffer.tpacketHandle s' = Sniffer.tpacketHandle s
       /\ Sniffer.trace s'
          = Sniffer.trace s ++ [Sniffer.EvLog (Sniffer.LogPcapFile file)].
Proof.
  intros Hu Hf. cbn zeta.
  unfold Sniffer.setupHandle, Sniffer.bind, Sniffer.gets. rewrite Hu.
  destruct (String.eqb_spec (Main.s_Filename (Sniffer.options s)) EmptyString)
    as [He|He]; [contradiction|]. cbn [negb].
  split; [reflexivity|]. eexists. split; [reflexivity|]. cbn. repeat split.
Qed.

(** Capturing live through pcap (no AF_PACKET, no file name), a failed
    [OpenLive] or a refused filter is fatal, and otherwise the handle has
    the filter installed. *)
Theorem Sniffer_setupHandle_live_fatal_or_filtered (s : SnifferT) :
  Main.s_UseAfPacket (Sniffer.options s) = false ->
  Main.s_Filename (Sniffer.options s) = EmptyString ->
  let o := Sniffer.options s in
  let opened := OpenLive (Main.s_Interface o) (Main.s_Snaplen o) true
                         (Main.s_WireDuration o) in
  ((exists s', sniffer_setupHandle s = Sniffer.LogFatal s')
   <-> opened = None
       \/ exists h, opened = Some h /\ SetBPFFilter h (Main.s_Filter o) = false)
  /\ (forall s', sniffer_setupHandle s = Sniffer.Done tt s' ->
        exists h, opened = Some h
                  /\ SetBPFFilter h (Main.s_Filter o) = true
                  /\ Sniffer.pcapHandle s' = Some h
                  /\ Sniffer.packetDataSource s' = Sniffer.FromPcap (Some h)).
Proof.
  intros Hu Hf. cbn zeta.
  unfold Sniffer.setupHandle, Sniffer.bind, Sniffer.gets. rewrite Hu, Hf.
  cbn [String.eqb negb].
  destruct (OpenLive _ _ _ _) as [h|]; cbn.
  - destruct (SetBPFFilter h _) eqn:Hb; cbn; split.
    + split; [intros [s' H]; discriminate|].
      intros [?|(h' & [= <-] & Hb')]; [discriminate | congruence].
    + intros s' [= <-]. exists h. repeat split. exact Hb.
    + split; [intros _; right; eauto | intros _; eauto].
    + intros s' H. discriminate.
  - split; [split; [intros _; left; reflexivity | intros _; eauto]|].
    intros s' H. discriminate.
Qed.

Abbreviation sniffer_readerStep :=
  (Sniffer.readerStep PcapHandle TPacket).

(** [Sniffer.Stop] signals the capture loop first and the decoder second,
    then closes the pcap handle if there is one and the AF_PACKET handle
    otherwise. With neither handle it panics on the nil AF_PACKET handle,
    after both stages have been stopped. *)
Theorem Sniffer_Stop_capture_then_decode (s : SnifferT) :
  Sniffer.capturing s = true ->
  Sniffer.decoding s = true ->
  exists s',
    Sniffer.capturing s' = false
    /\ Sniffer.decoding s' = false
    /\ match Sniffer.pcapHandle s, Sniffer.tpacketHandle s with
       | Some h, _ =>
           sniffer_Stop s = Sniffer.Done tt s'
           /\ Sniffer.trace s'
              = Sniffer.trace s ++ [Sniffer.EvStopSignal Capture;
                                    Sniffer.EvStopSignal Decode; Sniffer.EvPcapClose h]
       | None, Some h =>
           sniffer_Stop s = Sniffer.Done tt s'
           /\ Sniffer.trace s'
              = Sniffer.trace s ++ [Sniffer.EvStopSignal Capture;
                                    Sniffer.EvStopSignal Decode; Sniffer.EvTPacketClose h]
       | None, None =>
           sniffer_Stop s = Sniffer.Panic s'
           /\ Sniffer.trace s'
              = Sniffer.trace s ++ [Sniffer.EvStopSignal Capture;
                                    Sniffer.EvStopSignal Decode]
       end.
Proof.
  intros Hc Hd.
  unfold Sniffer.Stop, Sniffer.signalStop, Sniffer.bind, Sniffer.gets, Sniffer.emit,
    Sniffer.set_capturing, Sniffer.set_decoding, Sniffer.modify.
  rewrite Hc. cbn. rewrite Hd. cbn.
  destruct (Sniffer.pcapHandle s) as [h|]; [|destruct (Sniffer.tpacketHandle s) as [h|]];
    eexists; (split; [|split; [|split; [reflexivity|]]]); cbn;
    rewrite <- ?app_assoc; reflexivity.
Qed.

(** A pcap file that cannot be opened goes unnoticed at start-up: [Start]
    returns with both stages running; the first call of [ReadPacketData]
    then panics on the nil handle, and so does [Stop], after it has stopped
    both stages. *)
Theorem Sniffer_unopened_file_panics_later (s : SnifferT)
    `{DecodingLayer Ethernet} `{DecodingLayer IPv4} `{DecodingLayer TCP} :
  Main.s_UseAfPacket (Sniffer.options s) = false ->
  Main.s_Filename (Sniffer.options s) <> EmptyString ->
  OpenOffline (Main.s_Filename (Sniffer.options s)) = None ->
  Sniffer.pcapHandle s = None ->
  Sniffer.tpacketHandle s = None ->
  exists s1,
    sniffer_Start s = Sniffer.Done tt s1
    /\ Sniffer.capturing s1 = true
    /\ Sniffer.decoding s1 = true
    /\ (forall r, sniffer_readerStep r s1 = Sniffer.Panic s1)
    /\ exists s2, sniffer_Stop s1 = Sniffer.Panic s2
                  /\ Sniffer.capturing s2 = false
                  /\ Sniffer.decoding s2 = false.
Proof.
  intros Hu Hf Ho Hp Ht.
  unfold Sniffer.Start, Sniffer.bind, Sniffer.gets. rewrite Hp, Ht.
  unfold Sniffer.setupHandle, Sniffer.bind, Sniffer.gets. rewrite Hu.
  destruct (String.eqb_spec (Main.s_Filename (Sniffer.options s)) EmptyString)
    as [He|He]; [contradiction|]. cbn [negb]. rewrite Ho. cbn.
  eexists. split; [reflexivity|]. cbn. split; [reflexivity|]. split; [reflexivity|].
  split.
  - intros r. reflexivity.
  - unfold Sniffer.Stop, Sniffer.signalStop, Sniffer.bind, Sniffer.gets. cbn.
    rewrite Ht. eexists. split; [reflexivity|]. split; reflexivity.
Qed.

(** On end of stream the sniffer's reading goroutine stops the capture
    loop, then the decoder, closes the handle, closes its channel and only
    then tells the supervisor that it has stopped. *)
Theorem Sniffer_EOF_stops_then_tells_supervisor (s : SnifferT) (h : PcapHandle)
    `{DecodingLayer Ethernet} `{DecodingLayer IPv4} `{DecodingLayer TCP} :
  Sniffer.capturing s = true ->
  Sniffer.decoding s = true ->
  Sniffer.pcapHandle s = Some h ->
  Sniffer.packetDataSource s = Sniffer.FromPcap (Some h) ->
  exists s',
    sniffer_readerStep PacketSource.ReadEOF s = Sniffer.Done PacketSource.Return s'
    /\ Sniffer.capturing s' = false
    /\ Sniffer.decoding s' = false
    /\ Sniffer.trace s'
       = Sniffer.trace s ++ [Sniffer.EvLog Sniffer.LogEOF;
                             Sniffer.EvStopSignal Capture; Sniffer.EvStopSignal Decode;
                             Sniffer.EvPcapClose h; Sniffer.EvCloseTchan;
                             Sniffer.EvSupervisorStopped].
Proof.
  intros Hc Hd Hp Hs.
  unfold Sniffer.readerStep, Sniffer.bind, Sniffer.gets. rewrite Hs.
  unfold Sniffer.Stop, Sniffer.signalStop, Sniffer.bind, Sniffer.gets, Sniffer.emit,
    Sniffer.set_capturing, Sniffer.set_decoding, Sniffer.modify, Sniffer.ret.
  cbn. rewrite Hc. cbn. rewrite Hd. cbn. rewrite Hp.
  eexists. split; [reflexivity|]. cbn. split; [reflexivity|]. split; [reflexivity|].
  rewrite <- !app_assoc. reflexivity.
Qed.

End HandleProperties.

(** Capture libraries to run the definitions on: handles are numbers, one
    file opens and the filter [tcp] is accepted. *)
Definition testOpenOffline (file : string) : option nat :=
  if String.eqb file "good.pcap" then Some 1%nat else None.
Definition testOpenLive (iface : string) (snaplen : Z) (promisc : bool) (d : Z)
  : option nat := if String.eqb iface "eth0" then Some 2%nat else None.
Definition testSetBPFFilter (h : nat) (f : string) : bool := String.eqb f "tcp".
Definition testNewTPacket (iface : string) : option nat :=
  if String.eqb iface "eth0" then Some 3%nat else None.

Definition testSniffer (file : string) (afpacket : bool) : Sniffer.Sniffer nat nat :=
  Sniffer.NewSniffer nat nat
    (Main.mkSnifferOptions "eth0" file 3000000000 65536 "tcp" afpacket)
    Fixture.zeroVars.

Lemma Sniffer_setupHandle_afpacket_first_witness :
  exists s',
    Sniffer.setupHandle nat nat testNewTPacket testOpenOffline testOpenLive
      testSetBPFFilter (testSniffer "good.pcap" true) = Sniffer.Done tt s'
    /\ Sniffer.packetDataSource s' = Sniffer.FromTPacket (Some 3%nat).
Proof.
  destruct (Sniffer_setupHandle_afpacket_first nat nat testNewTPacket testOpenOffline
              testOpenLive testSetBPFFilter (testSniffer "good.pcap" true) eq_refl)
    as (_ & _ & H).
  destruct (H 3%nat eq_refl) as (s' & H1 & _ & H3 & _).
  exists s'. split; assumption.
Defined.

Lemma Sniffer_setupHandle_file_never_fatal_witness :
  exists s',
    Sniffer.setupHandle nat nat testNewTPacket testOpenOffline testOpenLive
      testSetBPFFilter (testSniffer "missing.pcap" false) = Sniffer.Done tt s'
    /\ Sniffer.pcapHandle s' = None.
Proof.
  destruct (Sniffer_setupHandle_file_never_fatal nat nat testNewTPacket testOpenOffline
              testOpenLive testSetBPFFilter (testSniffer "missing.pcap" false) eq_refl)
    as (_ & s' & H1 & H2 & _).
  - discriminate.
  - exists s'. split; [exact H1 | exact H2].
Defined.

Lemma Sniffer_setupHandle_live_fatal_or_filtered_witness :
  ~ exists s',
      Sniffer.setupHandle nat nat testNewTPacket testOpenOffline testOpenLive
        testSetBPFFilter (testSniffer EmptyString false) = Sniffer.LogFatal s'.
Proof.
  destruct (Sniffer_setupHandle_live_fatal_or_filtered nat nat testNewTPacket
              testOpenOffline testOpenLive testSetBPFFilter
              (testSniffer EmptyString false) eq_refl eq_refl) as (H & _).
  intros Hf. apply H in Hf as [Hf|(h & [= <-] & Hf)]; discriminate.
Defined.

Lemma Sniffer_Stop_capture_then_decode_witness :
  exists s',
    Sniffer.Stop nat nat
      (Sniffer.mkSniffer nat nat
         (Main.mkSnifferOptions "eth0" "good.pcap" 3000000000 65536 "tcp" false)
         (Some 1%nat) None (Sniffer.FromPcap (Some 1%nat)) true true Fixture.zeroVars [])
    = Sniffer.Done tt s'
    /\ Sniffer.trace s'
       = [Sniffer.EvStopSignal Capture; Sniffer.EvStopSignal Decode;
          Sniffer.EvPcapClose 1%nat].
Proof.
  destruct (Sniffer_Stop_capture_then_decode nat nat
              (Sniffer.mkSniffer nat nat
                 (Main.mkSnifferOptions "eth0" "good.pcap" 3000000000 65536 "tcp" false)
                 (Some 1%nat) None (Sniffer.FromPcap (Some 1%nat)) true true
                 Fixture.zeroVars [])
              eq_refl eq_refl) as (s' & _ & _ & H1 & H2).
  exists s'. split; [exact H1 | exact H2].
Defined.

Lemma Sniffer_unopened_file_panics_later_witness :
  exists s1,
    Sniffer.Start nat nat testNewTPacket testOpenOffline testOpenLive testSetBPFFilter
      (testSniffer "missing.pcap" false) = Sniffer.Done tt s1
    /\ exists s2, Sniffer.Stop nat nat s1 = Sniffer.Panic s2.
Proof.
  destruct (Sniffer_unopened_file_panics_later nat nat testNewTPacket testOpenOffline
              testOpenLive testSetBPFFilter (testSniffer "missing.pcap" false)
              (H := Fixture.decEthernet) (H0 := Fixture.decIPv4) (H1 := Fixture.decTCP)
              eq_refl ltac:(discriminate) eq_refl eq_refl eq_refl)
    as (s1 & H1 & _ & _ & _ & s2 & H2 & _).
  exists s1. split; [exact H1|]. exists s2. exact H2.
Defined.

Lemma Sniffer_EOF_stops_then_tells_supervisor_witness :
  exists s',
    Sniffer.readerStep nat nat (decEthernet := Fixture.decEthernet)
      (decIPv4 := Fixture.decIPv4) (decTCP := Fixture.decTCP) PacketSource.ReadEOF
      (Sniffer.mkSniffer nat nat
         (Main.mkSnifferOptions "eth0" "good.pcap" 3000000000 65536 "tcp" false)
         (Some 1%nat) None (Sniffer.FromPcap (Some 1%nat)) true true Fixture.zeroVars [])
    = Sniffer.Done PacketSource.Return s'
    /\ Sniffer.decoding s' = false.
Proof.
  destruct (Sniffer_EOF_stops_then_tells_supervisor nat nat
              (Sniffer.mkSniffer nat nat
                 (Main.mkSnifferOptions "eth0" "good.pcap" 3000000000 65536 "tcp" false)
                 (Some 1%nat) None (Sniffer.FromPcap (Some 1%nat)) true true
                 Fixture.zeroVars [])
              1%nat (H := Fixture.decEthernet) (H0 := Fixture.decIPv4)
              (H1 := Fixture.decTCP) eq_refl eq_refl eq_refl eq_refl)
    as (s' & H1 & _ & H3 & _).
  exists s'. split; [exact H1 | exact H3].
Defined.

(* ===================================================================== *)
(** * The receive loop of the first-generation Inquisitor *)

Section LegacyLoopProperties.

Context {decEthernet : DecodingLayer Ethernet}.
Context {decIPv4 : DecodingLayer IPv4}.
Context {decTCP : DecodingLayer TCP}.

Lemma legacy_tick_eq (s : LegacyLoop.State) :
  LegacyLoop.lastTimestamp s <> 0 ->
  let t := LegacyLoop.lastTimestamp s + LegacyLoop.timeout in
  let r := Legacy.CloseOlderThan t (LegacyLoop.inq s) in
  LegacyLoop.turn LegacyLoop.SelTick s
  = LegacyLoop.Continue
      (LegacyLoop.with_inq
         (if r.1 =? 0 then r.2 else Legacy.log (LogTimeoutClosed r.1) r.2)
         (LegacyLoop.with_lastTimestamp t
            (LegacyLoop.called (LegacyLoop.LogLastTimestamp (LegacyLoop.lastTimestamp s))
               (LegacyLoop.called LegacyLoop.LogTick s)))).
Proof.
  intros Hnz. cbn zeta. unfold LegacyLoop.turn.
  cbn [LegacyLoop.lastTimestamp LegacyLoop.called LegacyLoop.with_lastTimestamp
       LegacyLoop.inq].
  destruct (Z.eqb_spec (LegacyLoop.lastTimestamp s) 0) as [|_]; [contradiction|].
  cbn [negb]. unfold Time_Add.
  destruct (Legacy.CloseOlderThan _ _) as [closed a]. cbn [fst snd].
  destruct (closed =? 0); reflexivity.
Qed.

(** The ticker of the first-generation loop works on packet time. Before
    any packet has been decoded a tick only logs. After one, a tick moves
    [lastTimestamp] on by the timeout and closes the connections of the pool
    last seen at or before the new value: that is five minutes after the
    last packet, so a connection last seen at the very time of the last
    packet is closed with the rest. *)
Theorem legacy_tick_closes_up_to_last_packet_plus_timeout (s : LegacyLoop.State) :
  (LegacyLoop.lastTimestamp s = 0 ->
   LegacyLoop.turn LegacyLoop.SelTick s
   = LegacyLoop.Continue (LegacyLoop.called LegacyLoop.LogTick s))
  /\ (LegacyLoop.lastTimestamp s <> 0 ->
      Z.of_nat (length (pool.Connections (Legacy.connPool (LegacyLoop.inq s)))) < 2 ^ 63 ->
      exists s',
        LegacyLoop.turn LegacyLoop.SelTick s = LegacyLoop.Continue s'
        /\ LegacyLoop.lastTimestamp s' = LegacyLoop.lastTimestamp s + LegacyLoop.timeout
        /\ Legacy.connPool (LegacyLoop.inq s') = Legacy.connPool (LegacyLoop.inq s)
        /\ forall c conn,
             c ∈ pool.Connections (Legacy.connPool (LegacyLoop.inq s)) ->
             Legacy.conns (LegacyLoop.inq s) !! c = Some conn ->
             (lastSeen conn <= LegacyLoop.lastTimestamp s + LegacyLoop.timeout ->
              Legacy.conns (LegacyLoop.inq s') !! c = Some (set_closing conn))
             /\ (LegacyLoop.lastTimestamp s + LegacyLoop.timeout < lastSeen conn ->
                 Legacy.conns (LegacyLoop.inq s') !! c = Some conn)).
Proof.
  split.
  - intros Hz. unfold LegacyLoop.turn.
    cbn [LegacyLoop.lastTimestamp LegacyLoop.called]. rewrite Hz. reflexivity.
  - intros Hnz Hlen. rewrite (legacy_tick_eq s Hnz). cbn zeta.
    set (t := LegacyLoop.lastTimestamp s + LegacyLoop.timeout).
    destruct (Legacy_CloseOlderThan_spec t (LegacyLoop.inq s) Hlen) as (_ & H2 & _ & H4).
    set (r := Legacy.CloseOlderThan t (LegacyLoop.inq s)) in *.
    eexists. split; [reflexivity|].
    cbn [LegacyLoop.lastTimestamp LegacyLoop.inq LegacyLoop.with_inq
         LegacyLoop.with_lastTimestamp].
    split; [reflexivity|].
    assert (Hpool : Legacy.connPool (if r.1 =? 0 then r.2
                                     else Legacy.log (LogTimeoutClosed r.1) r.2)
                    = Legacy.connPool (LegacyLoop.inq s))
      by (destruct (r.1 =? 0); exact H2).
    assert (Hconns : Legacy.conns (if r.1 =? 0 then r.2
                                   else Legacy.log (LogTimeoutClosed r.1) r.2)
                     = Legacy.conns r.2)
      by (destruct (r.1 =? 0); reflexivity).
    split; [exact Hpool|].
    intros c conn Hin Hc. rewrite Hconns, H4, Hc. cbn [fmap option_fmap option_map].
    split; intros Hle.
    + rewrite bool_decide_true; [reflexivity|].
      rewrite list_elem_of_In, filter_In, <- list_elem_of_In. split; [exact Hin|].
      unfold pool.seenBy. rewrite Hc. now apply Z.leb_le.
    + rewrite bool_decide_false; [reflexivity|].
      rewrite list_elem_of_In, filter_In, <- list_elem_of_In. intros [_ Hs].
      unfold pool.seenBy in Hs. rewrite Hc in Hs. apply Z.leb_le in Hs. lia.
Qed.

(** Without traffic the threshold keeps moving: after a packet at a time
    [T > 0], [k] ticks in a row leave [lastTimestamp] at [T + k * timeout],
    and the loop going. *)
Theorem legacy_ticks_keep_advancing (k : nat) :
  forall s : LegacyLoop.State,
    0 < LegacyLoop.lastTimestamp s ->
    exists s',
      LegacyLoop.receivePackets (repeat LegacyLoop.SelTick k) s = LegacyLoop.Continue s'
      /\ LegacyLoop.lastTimestamp s'
         = LegacyLoop.lastTimestamp s + Z.of_nat k * LegacyLoop.timeout.
Proof.
  induction k as [|k IH]; intros s Hpos.
  - exists s. split; [reflexivity | cbn; lia].
  - cbn [repeat LegacyLoop.receivePackets].
    rewrite legacy_tick_eq by lia. cbn zeta.
    set (s1 := LegacyLoop.with_inq _ _).
    assert (H1 : LegacyLoop.lastTimestamp s1
                 = LegacyLoop.lastTimestamp s + LegacyLoop.timeout) by reflexivity.
    destruct (IH s1) as (s' & Hrun & Hts).
    + rewrite H1. unfold LegacyLoop.timeout. lia.
    + exists s'. split; [exact Hrun|]. rewrite Hts, H1. lia.
Qed.

(** The loop can be ended from outside only. [Stop] from another goroutine
    makes it close [stopChan], close all connections and return, and closes
    the handle; after that a further [Stop] panics on the closed channel.
    On end of stream the loop calls [Stop] itself, and waits for ever on a
    channel only it receives from: the connections are not closed and the
    handle stays open, whatever would have been selected next. *)
Theorem legacy_loop_ends_from_outside_only (s : LegacyLoop.State) :
  LegacyLoop.stopChanClosed s = false ->
  (exists s',
     LegacyLoop.Stop s = LegacyLoop.Returned s'
     /\ LegacyLoop.handleOpen s' = false
     /\ LegacyLoop.inq s' = Legacy.CloseAllConnections (LegacyLoop.inq s)
     /\ LegacyLoop.Stop s' = LegacyLoop.Panic s')
  /\ (forall rest, exists s',
        LegacyLoop.receivePackets
          (LegacyLoop.SelDefault ReadEOF :: rest) s = LegacyLoop.Blocked s'
        /\ LegacyLoop.handleOpen s' = LegacyLoop.handleOpen s
        /\ Legacy.conns (LegacyLoop.inq s') = Legacy.conns (LegacyLoop.inq s)
        /\ Legacy.trace (LegacyLoop.inq s')
           = Legacy.trace (LegacyLoop.inq s) ++ [EvLog LogEOF]
        /\ LegacyLoop.calls s' = LegacyLoop.calls s).
Proof.
  intros Hopen. split.
  - unfold LegacyLoop.Stop at 1. rewrite Hopen. eexists. split; [reflexivity|].
    split; [reflexivity|]. split; [reflexivity|]. reflexivity.
  - intros rest. cbn [LegacyLoop.receivePackets LegacyLoop.turn].
    cbn [LegacyLoop.stopChanClosed LegacyLoop.with_inq]. rewrite Hopen.
    eexists. split; [reflexivity|]. repeat split.
Qed.

(** The first-generation loop tracks every flow, with no cap: a packet
    the parser accepts sets [lastTimestamp] to its capture time and is
    handed, first to [receivePacket] and then to [PacketLoggerWrite], to the
    connection the pool holds for its flow, a connection with its two
    loggers being made and put in the pool when there is none. A read error
    or a packet the parser rejects changes neither [lastTimestamp] nor the
    inquisitor. *)
Theorem legacy_every_flow_is_tracked (s : LegacyLoop.State)
    (rawPacket : list Byte.byte) (timestamp : Z) (v : DecoderVars) :
  (DecodeLayers rawPacket (set_payload [] (LegacyLoop.vars s)) = (v, None) ->
   let flow := NewTcpIpFlowFromFlows (NetworkFlow (ip v)) (TransportFlow (tcp v)) in
   let m := LegacyLoop.mkManifest (ip v) (tcp v) (payload v) in
   let tracked := pool.Has (Legacy.connPool (LegacyLoop.inq s)) flow in
   exists conn s',
     LegacyLoop.turn (LegacyLoop.SelDefault (ReadData rawPacket timestamp)) s
     = LegacyLoop.Continue s'
     /\ LegacyLoop.lastTimestamp s' = timestamp
     /\ pool.Get (Legacy.connPool (LegacyLoop.inq s')) flow = Some conn
     /\ LegacyLoop.calls s'
        = LegacyLoop.calls s
          ++ (if tracked then []
              else [LegacyLoop.NewConnectionPacketLogger conn flow;
                    LegacyLoop.NewAttackJsonLogger conn flow])
          ++ [LegacyLoop.ReceivePacket conn m flow timestamp;
              LegacyLoop.PacketLoggerWrite conn rawPacket flow]
     /\ (tracked = true -> LegacyLoop.inq s' = LegacyLoop.inq s)
     /\ (tracked = false ->
         Legacy.conns (LegacyLoop.inq s) !! conn = None
         /\ pool.Len (Legacy.connPool (LegacyLoop.inq s'))
            = S (pool.Len (Legacy.connPool (LegacyLoop.inq s)))))
  /\ (forall e,
        DecodeLayers rawPacket (set_payload [] (LegacyLoop.vars s)) = (v, Some e) ->
        LegacyLoop.turn (LegacyLoop.SelDefault (ReadData rawPacket timestamp)) s
        = LegacyLoop.Continue (LegacyLoop.with_vars v s))
  /\ LegacyLoop.turn (LegacyLoop.SelDefault ReadError) s = LegacyLoop.Continue s.
Proof.
  split; [|split; [|reflexivity]].
  - intros He. cbn zeta. unfold LegacyLoop.turn. rewrite He.
    unfold LegacyLoop.InquestWithTimestamp.
    cbn [LegacyLoop.inq LegacyLoop.with_lastTimestamp LegacyLoop.with_vars].
    set (flow := NewTcpIpFlowFromFlows (NetworkFlow (ip v)) (TransportFlow (tcp v))).
    set (a := LegacyLoop.inq s).
    destruct (pool.Has (Legacy.connPool a) flow) eqn:HH.
    + destruct (Has_true_Get _ _ HH) as [conn HG]. rewrite HG.
      exists conn. eexists. split; [reflexivity|].
      cbn [LegacyLoop.lastTimestamp LegacyLoop.called LegacyLoop.inq LegacyLoop.calls
           LegacyLoop.with_lastTimestamp LegacyLoop.with_vars].
      split; [reflexivity|]. split; [exact HG|].
      split; [rewrite <- app_assoc; reflexivity|].
      split; [reflexivity | discriminate].
    + exists (fresh (dom (Legacy.conns a))). eexists. split; [reflexivity|].
      cbn [LegacyLoop.lastTimestamp LegacyLoop.called LegacyLoop.inq LegacyLoop.calls
           LegacyLoop.with_lastTimestamp LegacyLoop.with_vars LegacyLoop.with_inq
           Legacy.connPool].
      split; [reflexivity|].
      split; [unfold pool.Get, pool.Put; cbn; apply lookup_insert_eq|].
      split; [rewrite <- !app_assoc; reflexivity|].
      split; [discriminate|]. intros _.
      split; [apply not_elem_of_dom, is_fresh | now apply Put_Len_new].
  - intros e He. unfold LegacyLoop.turn. rewrite He. reflexivity.
Qed.

End LegacyLoopProperties.

Lemma legacy_loop_ends_from_outside_only_witness :
  exists s',
    LegacyLoop.receivePackets (decEthernet := Fixture.decEthernet)
      (decIPv4 := Fixture.decIPv4) (decTCP := Fixture.decTCP)
      [LegacyLoop.SelDefault ReadEOF; LegacyLoop.SelStop]
      (LegacyLoop.mkState Fixture.legacy 0 Fixture.zeroVars false true [])
    = LegacyLoop.Blocked s'
    /\ LegacyLoop.handleOpen s' = true.
Proof.
  destruct (legacy_loop_ends_from_outside_only
              (decEthernet := Fixture.decEthernet) (decIPv4 := Fixture.decIPv4)
              (decTCP := Fixture.decTCP)
              (LegacyLoop.mkState Fixture.legacy 0 Fixture.zeroVars false true [])
              eq_refl) as (_ & H).
  destruct (H [LegacyLoop.SelStop]) as (s' & H1 & H2 & _).
  exists s'. split; [exact H1 | exact H2].
Defined.

Lemma legacy_ticks_keep_advancing_witness :
  exists s',
    LegacyLoop.receivePackets (decEthernet := Fixture.decEthernet)
      (decIPv4 := Fixture.decIPv4) (decTCP := Fixture.decTCP)
      (repeat LegacyLoop.SelTick 3)
      (LegacyLoop.mkState Fixture.legacy 7 Fixture.zeroVars false true [])
    = LegacyLoop.Continue s'
    /\ LegacyLoop.lastTimestamp s' = 7 + 3 * LegacyLoop.timeout.
Proof.
  destruct (legacy_ticks_keep_advancing
              (decEthernet := Fixture.decEthernet) (decIPv4 := Fixture.decIPv4)
              (decTCP := Fixture.decTCP) 3
              (LegacyLoop.mkState Fixture.legacy 7 Fixture.zeroVars false true []))
    as (s' & H1 & H2).
  - reflexivity.
  - exists s'. split; [exact H1 | exact H2].
Defined.

(** A first tick after a packet at time 7 closes both connections of the
    fixture, last seen at 5 and at 20. *)
Lemma legacy_tick_closes_up_to_last_packet_plus_timeout_witness :
  exists s',
    LegacyLoop.turn (decEthernet := Fixture.decEthernet)
      (decIPv4 := Fixture.decIPv4) (decTCP := Fixture.decTCP) LegacyLoop.SelTick
      (LegacyLoop.mkState Fixture.legacy 7 Fixture.zeroVars false true [])
    = LegacyLoop.Continue s'
    /\ LegacyLoop.lastTimestamp s' = 7 + LegacyLoop.timeout.
Proof.
  destruct (legacy_tick_closes_up_to_last_packet_plus_timeout
              (decEthernet := Fixture.decEthernet) (decIPv4 := Fixture.decIPv4)
              (decTCP := Fixture.decTCP)
              (LegacyLoop.mkState Fixture.legacy 7 Fixture.zeroVars false true []))
    as (_ & H).
  destruct H as (s' & H1 & H2 & _).
  - discriminate.
  - vm_compute. reflexivity.
  - exists s'. split; [exact H1 | exact H2].
Defined.

Lemma legacy_every_flow_is_tracked_witness :
  exists conn s',
    LegacyLoop.turn (decEthernet := Fixture.decEthernet)
      (decIPv4 := Fixture.decIPv4) (decTCP := Fixture.decTCP)
      (LegacyLoop.SelDefault (ReadData (Fixture.frame Fixture.hello) 9))
      (LegacyLoop.mkState Fixture.legacy 0 Fixture.zeroVars false true [])
    = LegacyLoop.Continue s'
    /\ LegacyLoop.lastTimestamp s' = 9
    /\ pool.Get (Legacy.connPool (LegacyLoop.inq s')) Fixture.flow = Some conn.
Proof.
  destruct (legacy_every_flow_is_tracked
              (decEthernet := Fixture.decEthernet) (decIPv4 := Fixture.decIPv4)
              (decTCP := Fixture.decTCP)
              (LegacyLoop.mkState Fixture.legacy 0 Fixture.zeroVars false true [])
              (Fixture.frame Fixture.hello) 9
              (DecodeLayers (decEthernet := Fixture.decEthernet)
                 (decIPv4 := Fixture.decIPv4) (decTCP := Fixture.decTCP)
                 (Fixture.frame Fixture.hello) (set_payload [] Fixture.zeroVars)).1)
    as (H & _).
  destruct H as (conn & s' & H1 & H2 & H3 & _).
  - vm_compute. reflexivity.
  - exists conn, s'. split; [exact H1|]. split; [exact H2|].
    assert (E : NewTcpIpFlowFromFlows
                  (NetworkFlow (ip (DecodeLayers (decEthernet := Fixture.decEthernet)
                     (decIPv4 := Fixture.decIPv4) (decTCP := Fixture.decTCP)
                     (Fixture.frame Fixture.hello) (set_payload [] Fixture.zeroVars)).1))
                  (TransportFlow (tcp (DecodeLayers (decEthernet := Fixture.decEthernet)
                     (decIPv4 := Fixture.decIPv4) (decTCP := Fixture.decTCP)
                     (Fixture.frame Fixture.hello) (set_payload [] Fixture.zeroVars)).1))
                = Fixture.flow) by (vm_compute; reflexivity).
    rewrite E in H3. exact H3.
Defined.

(* ===================================================================== *)
(** * The flags of [main] *)

Definition with_bufferedPerConnection (n : Z) (f : Main.Flags) : Main.Flags :=
  Main.mkFlags (Main.pcapfile f) (Main.iface f) (Main.snaplen f) (Main.filter f)
    (Main.logDir f) (Main.archiveDir f) (Main.wireTimeout f) (Main.metadataAttackLog f)
    (Main.logPackets f) (Main.tcpTimeout f) (Main.maxRingPackets f) (Main.detectHijack f)
    (Main.detectInjection f) (Main.detectCoalesceInjection f)
    (Main.maxConcurrentConnections f) n (Main.bufferedTotal f) (Main.useAfPacket f)
    (Main.maxPcapLogSize f) (Main.maxNumPcapRotations f).

Definition isFatal (e : Main.Exit) : bool :=
  match e with Main.Fatal _ _ => true | Main.Returned _ => false end.

(** [main] ends in [log.Fatal] exactly when the wire timeout does not
    parse or [max_concurrent_connections] and [total_max_buffer] are both
    zero, and then nothing has been started. [connection_max_buffer], which
    the message of the second [log.Fatal] names, has no part in it. When
    the supervisor is run, the sniffer gets the snap length converted to
    [int32]: the flag itself when it fits, wrapped around otherwise. *)
Theorem main_fatal_iff (ParseDuration : string -> option Z) (f : Main.Flags) :
  (isFatal (Main.main ParseDuration f) = true
   <-> ParseDuration (Main.wireTimeout f) = None
       \/ (Main.maxConcurrentConnections f = 0 /\ Main.bufferedTotal f = 0))
  /\ (forall message done, Main.main ParseDuration f = Main.Fatal message done -> done = [])
  /\ (forall n, isFatal (Main.main ParseDuration (with_bufferedPerConnection n f))
                = isFatal (Main.main ParseDuration f))
  /\ (forall done d s l,
        Main.main ParseDuration f = Main.Returned done ->
        Main.SupervisorRun d s l ∈ done ->
        Main.s_Snaplen s = wrap32 (Main.snaplen f)
        /\ (- 2 ^ 31 <= Main.snaplen f < 2 ^ 31 -> Main.s_Snaplen s = Main.snaplen f)
        /\ ParseDuration (Main.wireTimeout f) = Some (Main.s_WireDuration s)
        /\ Main.d_BufferedPerConnection d = Main.bufferedPerConnection f).
Proof.
  unfold Main.main. split; [|split; [|split]].
  - destruct (ParseDuration (Main.wireTimeout f)) as [w|]; cbn.
    + destruct (Z.eqb_spec (Main.maxConcurrentConnections f) 0) as [Hm|Hm];
        destruct (Z.eqb_spec (Main.bufferedTotal f) 0) as [Hb|Hb]; cbn;
        split; try (intros _; right; split; assumption); try reflexivity;
        try discriminate; intros [?|[? ?]]; try discriminate; contradiction.
    + split; [intros _; left; reflexivity | reflexivity].
  - intros message done.
    destruct (ParseDuration (Main.wireTimeout f)) as [w|]; [|now intros [= _ <-]].
    destruct (_ && _); [now intros [= _ <-] | discriminate].
  - intros n. cbn [with_bufferedPerConnection Main.wireTimeout
                   Main.maxConcurrentConnections Main.bufferedTotal].
    destruct (ParseDuration (Main.wireTimeout f)) as [w|]; [|reflexivity].
    destruct (_ && _); reflexivity.
  - intros done d s l.
    destruct (ParseDuration (Main.wireTimeout f)) as [w|]; [|discriminate].
    destruct (_ && _); [discriminate|]. intros [= <-].
    rewrite !elem_of_cons, elem_of_nil. intros [H|[H|[H|[]]]]; try discriminate.
    injection H as -> -> _. cbn. split; [reflexivity|].
    split; [|split; reflexivity].
    intros Hr. unfold wrap32. rewrite Z.mod_small by lia. lia.
Qed.

(* ===================================================================== *)
(** * The sniffer's decoder *)

Section SnifferDecoding.

Variable PcapHandle : Type.
Variable TPacket : Type.

Context {decEthernet : DecodingLayer Ethernet}.
Context {decIPv4 : DecodingLayer IPv4}.
Context {decTCP : DecodingLayer TCP}.

(** A packet read by a running sniffer makes at most one call of the
    dispatcher's [ReceivePacket]: one, with the manifest of the packet,
    when the parser accepts it, none when it does not. The decoder's
    variables apart, nothing else of the sniffer changes, and the reading
    goroutine goes on. *)
Theorem Sniffer_packet_goes_to_dispatcher (s : Sniffer.Sniffer PcapHandle TPacket)
    (h : PcapHandle) (rawPacket : list Byte.byte) (timestamp : Z) :
  Sniffer.capturing s = true ->
  Sniffer.decoding s = true ->
  Sniffer.packetDataSource s = Sniffer.FromPcap (Some h) ->
  let d := decodeOne (mkTimedRawPacket timestamp rawPacket) (Sniffer.vars s) in
  exists s',
    Sniffer.readerStep PcapHandle TPacket (ReadData rawPacket timestamp) s
    = Sniffer.Done Continue s'
    /\ Sniffer.vars s' = d.1
    /\ Sniffer.trace s'
       = Sniffer.trace s
         ++ match d.2 with
            | Some m => [Sniffer.EvDispatcherReceivePacket m]
            | None => []
            end
    /\ Sniffer.capturing s' = true
    /\ Sniffer.decoding s' = true
    /\ Sniffer.pcapHandle s' = Sniffer.pcapHandle s
    /\ Sniffer.tpacketHandle s' = Sniffer.tpacketHandle s
    /\ Sniffer.packetDataSource s' = Sniffer.packetDataSource s.
Proof.
  intros Hc Hd Hs. cbn zeta.
  unfold Sniffer.readerStep, Sniffer.bind, Sniffer.gets. rewrite Hs.
  unfold Sniffer.sendToCapture, Sniffer.sendToDecode, Sniffer.bind, Sniffer.gets.
  rewrite Hc, Hd.
  destruct (decodeOne (mkTimedRawPacket timestamp rawPacket) (Sniffer.vars s))
    as [v' [m|]]; cbn.
  - eexists. split; [reflexivity|]. cbn. rewrite Hc, Hd, Hs. repeat split.
  - eexists. split; [reflexivity|]. cbn. rewrite Hc, Hd, Hs, app_nil_r. repeat split.
Qed.

End SnifferDecoding.

Lemma Sniffer_packet_goes_to_dispatcher_witness :
  exists s',
    Sniffer.readerStep nat nat (decEthernet := Fixture.decEthernet)
      (decIPv4 := Fixture.decIPv4) (decTCP := Fixture.decTCP)
      (ReadData Fixture.arpFrame 7)
      (Sniffer.mkSniffer nat nat
         (Main.mkSnifferOptions "eth0" "good.pcap" 3000000000 65536 "tcp" false)
         (Some 1%nat) None (Sniffer.FromPcap (Some 1%nat)) true true Fixture.zeroVars [])
    = Sniffer.Done Continue s'
    /\ Sniffer.decoding s' = true.
Proof.
  destruct (Sniffer_packet_goes_to_dispatcher nat nat
              (decEthernet := Fixture.decEthernet) (decIPv4 := Fixture.decIPv4)
              (decTCP := Fixture.decTCP)
              (Sniffer.mkSniffer nat nat
                 (Main.mkSnifferOptions "eth0" "good.pcap" 3000000000 65536 "tcp" false)
                 (Some 1%nat) None (Sniffer.FromPcap (Some 1%nat)) true true
                 Fixture.zeroVars [])
              1%nat Fixture.arpFrame 7 eq_refl eq_refl eq_refl)
    as (s' & H1 & _ & _ & _ & H5 & _).
  exists s'. split; [exact H1 | exact H5].
Defined.
